(** * HALLEL Shibuya booking: classifier, field extraction and merge engine

    A shallow embedding of the reservation pipeline of the repository
    (reservation_classifier.py, gmail_parser.py, gmail_fast_sync.py, app.py)
    and the properties of its specification.

    Conventions.
    - A Python [str] is a list of Unicode code points ([str := list N]).
      String constants are written as UTF-8 literals and decoded by [u].
    - A Python [float] is an IEEE binary64 number ([PrimFloat.float]); the
      additions of the confidence score are the machine additions.
    - A Python [dict] keyed by date is a [gmap str _]; [dict.get] of a key
      that may be missing is an [option].
    - [re] patterns are values of [Re.re] run by a backtracking matcher with
      Python's priorities (leftmost match, greedy or lazy repetition).
    - The Unicode tables behind [str.lower], [\d], [int] and [\s] are not
      part of the repository: they are the fields of the class [Unicode]. *)

From Stdlib Require Import Floats ZArith NArith List String Ascii Bool Lia.
From stdpp Require Import gmap list.

#[local] Set Warnings "-inexact-float".
#[local] Open Scope N_scope.

(** ** Python strings *)

Definition str := list N.

Module Py.

(** UTF-8 decoding of a source literal into code points. *)
Fixpoint utf8_decode (bs : list N) : str :=
  match bs with
  | [] => []
  | b :: r =>
    if b <? 0x80 then b :: utf8_decode r
    else if b <? 0xE0 then
      match r with
      | b1 :: r1 =>
          N.lor (N.shiftl (N.land b 0x1F) 6) (N.land b1 0x3F) :: utf8_decode r1
      | _ => []
      end
    else if b <? 0xF0 then
      match r with
      | b1 :: b2 :: r2 =>
          N.lor (N.shiftl (N.land b 0x0F) 12)
            (N.lor (N.shiftl (N.land b1 0x3F) 6) (N.land b2 0x3F))
          :: utf8_decode r2
      | _ => []
      end
    else
      match r with
      | b1 :: b2 :: b3 :: r3 =>
          N.lor (N.shiftl (N.land b 0x07) 18)
            (N.lor (N.shiftl (N.land b1 0x3F) 12)
               (N.lor (N.shiftl (N.land b2 0x3F) 6) (N.land b3 0x3F)))
          :: utf8_decode r3
      | _ => []
      end
  end.

Definition u (s : string) : str :=
  utf8_decode (map N_of_ascii (list_ascii_of_string s)).

(** The single code point of a one-character literal. *)
Definition ch (s : string) : N := hd 0 (u s).

(** [s.startswith(p)] *)
Fixpoint startswith (p s : str) : bool :=
  match p, s with
  | [], _ => true
  | a :: p', b :: s' => (a =? b) && startswith p' s'
  | _ :: _, [] => false
  end.

(** [p in s] for strings: [p] occurs as a contiguous run of [s]. *)
Fixpoint contains (p s : str) : bool :=
  startswith p s ||
  match s with
  | [] => false
  | _ :: s' => contains p s'
  end.

(** [s.endswith(p)] *)
Definition endswith (p s : str) : bool := startswith (rev p) (rev s).

(** [a == b] on strings *)
Definition str_eqb (a b : str) : bool := bool_decide (a = b).

(** [s.replace(c, "")] for a one-character [c] *)
Definition remove_char (c : N) (s : str) : str :=
  filter (fun x => x ≠ c) s.

(** Decimal digits of a natural number, as ASCII code points. *)
Fixpoint uint_digits (d : Decimal.uint) : str :=
  match d with
  | Decimal.Nil => []
  | Decimal.D0 d' => 48 :: uint_digits d'
  | Decimal.D1 d' => 49 :: uint_digits d'
  | Decimal.D2 d' => 50 :: uint_digits d'
  | Decimal.D3 d' => 51 :: uint_digits d'
  | Decimal.D4 d' => 52 :: uint_digits d'
  | Decimal.D5 d' => 53 :: uint_digits d'
  | Decimal.D6 d' => 54 :: uint_digits d'
  | Decimal.D7 d' => 55 :: uint_digits d'
  | Decimal.D8 d' => 56 :: uint_digits d'
  | Decimal.D9 d' => 57 :: uint_digits d'
  end.

Definition str_of_N (n : N) : str := uint_digits (N.to_uint n).

Definition zeros (k : nat) : str := repeat 48 k.

(** [format(n, "0<w>d")]: zero padding to width [w], the sign first. *)
Definition format_0d (w : nat) (n : Z) : str :=
  if (n <? 0)%Z
  then let d := str_of_N (Z.to_N (- n)) in
       45 :: zeros (w - 1 - length d) ++ d
  else let d := str_of_N (Z.to_N n) in
       zeros (w - length d) ++ d.

(** [s.zfill(w)]: zeros are inserted after a leading sign. *)
Definition zfill (w : nat) (s : str) : str :=
  match s with
  | c :: s' =>
      if (c =? 43) || (c =? 45)
      then c :: zeros (w - length s) ++ s'
      else zeros (w - length s) ++ s
  | [] => zeros w
  end.

(** [s.split(sep)] for a one-character separator. *)
Fixpoint split (sep : N) (s : str) : list str :=
  match s with
  | [] => [[]]
  | c :: s' =>
      if c =? sep then [] :: split sep s'
      else match split sep s' with
           | w :: ws => (c :: w) :: ws
           | [] => [[c]]
           end
  end.

End Py.

(** ** The Unicode tables of the Python runtime *)

Class Unicode := {
  (** [str.lower] *)
  lower : str -> str;
  (** the value of a decimal digit (category Nd), as [\d] and [int] see it *)
  digit_value : N -> option N;
  (** [str.isspace] of one character, which is also the class [\s] *)
  is_space : N -> bool;
  (** [str.isdigit] of one character *)
  is_digit_char : N -> bool
}.

Section PyUnicode.
Context `{Unicode}.

Definition is_digit (c : N) : bool :=
  match digit_value c with Some _ => true | None => false end.

(** [int(s)] for a string of decimal digits; [None] stands for ValueError. *)
Fixpoint int_digits (acc : N) (s : str) : option N :=
  match s with
  | [] => Some acc
  | c :: s' =>
      match digit_value c with
      | Some d => int_digits (10 * acc + d) s'
      | None => None
      end
  end.

Definition int (s : str) : option Z :=
  match s with
  | [] => None
  | _ => option_map Z.of_N (int_digits 0 s)
  end.

Fixpoint lstrip (s : str) : str :=
  match s with
  | c :: s' => if is_space c then lstrip s' else s
  | [] => []
  end.

(** [s.strip()] *)
Definition strip (s : str) : str := rev (lstrip (rev (lstrip s))).

(** [s.isdigit()] *)
Definition isdigit (s : str) : bool :=
  match s with
  | [] => false
  | _ => forallb is_digit_char s
  end.

End PyUnicode.

Import Py.

(** ** Regular expressions ([re.search], [re.match], [re.findall]) *)

Module Re.

Inductive re :=
| Eps
| Chr (c : N)                                        (* a literal character *)
| Cls (p : N -> bool)                                (* a character class *)
| Cat (a b : re)
| Alt (a b : re)
| Rep (greedy : bool) (lo : nat) (hi : option nat) (a : re)
| Grp (i : nat) (a : re)                             (* capturing group i *)
| Bol                                                (* ^ under re.MULTILINE *)
| Eol.                                               (* $ *)

(** Captured groups, the most recent first. *)
Definition caps := list (nat * str).

Definition under (hi : option nat) (n : nat) : bool :=
  match hi with
  | Some h => (n <? h)%nat
  | None => true
  end.

Definition orelse {A} (x y : option A) : option A :=
  match x with
  | Some _ => x
  | None => y
  end.

(** [run r prev s cs k]: match [r] at the front of [s] ([prev] is the
    character before it), then continue with [k]; alternatives are tried in
    the order of a backtracking matcher.  A repeated pattern is taken to
    consume at least one character each time, as every pattern of the
    repository does, so a repetition over [s] has at most [length s] rounds. *)
Fixpoint run {A} (r : re) (prev : option N) (s : str) (cs : caps)
    (k : option N -> str -> caps -> option A) : option A :=
  match r with
  | Eps => k prev s cs
  | Chr c =>
      match s with
      | x :: s' => if x =? c then k (Some x) s' cs else None
      | [] => None
      end
  | Cls p =>
      match s with
      | x :: s' => if p x then k (Some x) s' cs else None
      | [] => None
      end
  | Cat a b => run a prev s cs (fun p1 s1 c1 => run b p1 s1 c1 k)
  | Alt a b => orelse (run a prev s cs k) (run b prev s cs k)
  | Grp i a =>
      run a prev s cs
        (fun p1 s1 c1 => k p1 s1 ((i, take (length s - length s1) s) :: c1))
  | Bol =>
      match prev with
      | None => k prev s cs
      | Some c => if c =? 10 then k prev s cs else None
      end
  | Eol =>
      match s with
      | [] => k prev s cs
      | [c] => if c =? 10 then k prev s cs else None
      | _ => None
      end
  | Rep greedy lo hi a =>
      (fix loop (fuel n : nat) (prev : option N) (s : str) (cs : caps)
         {struct fuel} : option A :=
         let stop := if (lo <=? n)%nat then k prev s cs else None in
         let more :=
           match fuel with
           | O => None
           | S fuel' =>
               if under hi n
               then run a prev s cs (fun p1 s1 c1 => loop fuel' (S n) p1 s1 c1)
               else None
           end in
         if greedy then orelse more stop else orelse stop more)
        (S (length s)) O prev s cs
  end.

(** The result of a match: the captures and what follows the match. *)
Record hit := { groups : caps; after_prev : option N; after : str }.

Definition match_at (r : re) (prev : option N) (s : str) : option hit :=
  run r prev s [] (fun p1 s1 c1 => Some {| groups := c1; after_prev := p1; after := s1 |}).

(** [re.match(r, s)] *)
Definition match_ (r : re) (s : str) : option hit := match_at r None s.

Fixpoint search_from (r : re) (prev : option N) (s : str) : option hit :=
  match match_at r prev s with
  | Some h => Some h
  | None =>
      match s with
      | [] => None
      | x :: s' => search_from r (Some x) s'
      end
  end.

(** [re.search(r, s)] *)
Definition search (r : re) (s : str) : option hit := search_from r None s.

(** [m.group(i)] for a group that took part in the match ([""] otherwise). *)
Fixpoint lookup_group (i : nat) (cs : caps) : str :=
  match cs with
  | [] => []
  | (j, t) :: cs' => if (i =? j)%nat then t else lookup_group i cs'
  end.

Definition group (h : hit) (i : nat) : str := lookup_group i (groups h).

(** [re.findall(r, s)]: the successive non-overlapping matches, left to
    right; an empty match advances by one character. *)
Fixpoint findall_from (fuel : nat) (r : re) (prev : option N) (s : str) : list hit :=
  match fuel with
  | O => []
  | S fuel' =>
      match match_at r prev s with
      | Some h =>
          if (length (after h) <? length s)%nat
          then h :: findall_from fuel' r (after_prev h) (after h)
          else h :: match s with
                    | [] => []
                    | x :: s' => findall_from fuel' r (Some x) s'
                    end
      | None =>
          match s with
          | [] => []
          | x :: s' => findall_from fuel' r (Some x) s'
          end
      end
  end.

Definition findall (r : re) (s : str) : list hit :=
  findall_from (S (length s)) r None s.

(** A literal string. *)
Fixpoint lit (s : str) : re :=
  match s with
  | [] => Eps
  | [c] => Chr c
  | c :: s' => Cat (Chr c) (lit s')
  end.

(** A sequence of patterns. *)
Fixpoint seq (rs : list re) : re :=
  match rs with
  | [] => Eps
  | [r] => r
  | r :: rs' => Cat r (seq rs')
  end.

Definition one_of (cs : list N) : N -> bool := fun c => existsb (N.eqb c) cs.
Definition none_of (cs : list N) : N -> bool := fun c => negb (existsb (N.eqb c) cs).
Definition between (lo hi : N) : N -> bool := fun c => (lo <=? c) && (c <=? hi).
(** [.] : any character but a newline *)
Definition dot : re := Cls (none_of [10]).
Definition star (a : re) : re := Rep true 0 None a.
Definition plus (a : re) : re := Rep true 1 None a.
Definition times (lo hi : nat) (a : re) : re := Rep true lo (Some hi) a.

End Re.

(** ** reservation_classifier.py: HALLELReservationClassifier *)

Module Classifier.
Import Re.

(** The two values of [action_type]: ['booking'] and ['cancellation']. *)
Inductive action := booking | cancellation.

Record ReservationInfo := {
  action_type : action;
  date : str;              (* YYYY-MM-DD *)
  start_time : str;        (* HH:MM *)
  end_time : str;          (* HH:MM *)
  customer_name : str;
  studio : str;
  duration_minutes : Z;
  confidence : float;
  raw_text : str
}.

(** The dictionary returned by [_extract_date_time]. *)
Record date_info := {
  di_date : str;
  di_start_time : str;
  di_end_time : str;
  di_duration : Z
}.

Definition booking_keywords : list str :=
  [ u "ご予約ありがとうございます";
    u "以下の内容を承りました";
    u "ご確認ください";
    u "予約が完了";
    u "承りました" ].

Definition cancellation_keywords : list str :=
  [ u "キャンセルいたしました";
    u "予約をキャンセル";
    u "キャンセルしました";
    u "取り消し";
    u "キャンセル完了" ].

Definition hallel_indicators : list str := [ u "HALLEL"; u "hallel" ].

Section WithTables.
Context `{Unicode}.

Definition d : re := Cls is_digit.
Definition ws : re := Cls is_space.

(** [(\d{4})年(\d{1,2})月(\d{1,2})日] *)
Definition date_pattern : re :=
  seq [ Grp 1 (times 4 4 d); Chr (ch "年");
        Grp 2 (times 1 2 d); Chr (ch "月");
        Grp 3 (times 1 2 d); Chr (ch "日") ].

(** [(\d{1,2}):(\d{2})~(\d{1,2}):(\d{2})] *)
Definition time_pattern : re :=
  seq [ Grp 1 (times 1 2 d); Chr (ch ":"); Grp 2 (times 2 2 d); Chr (ch "~");
        Grp 3 (times 1 2 d); Chr (ch ":"); Grp 4 (times 2 2 d) ].

(** [(.*?)\s*様] *)
Definition customer_pattern : re :=
  seq [ Grp 1 (Rep false 0 None dot); star ws; Chr (ch "様") ].

(** [(渋谷店\s*STUDIO\s*[⑥①②③④⑤⑦⑧⑨⑩]*\s*\(\d+\))] *)
Definition studio_pattern : re :=
  Grp 1 (seq [ lit (u "渋谷店"); star ws; lit (u "STUDIO"); star ws;
               star (Cls (one_of (u "⑥①②③④⑤⑦⑧⑨⑩"))); star ws;
               Chr (ch "("); plus d; Chr (ch ")") ]).

Definition _is_hallel_email (subject body : str) : bool :=
  let combined_text := lower (subject ++ u " " ++ body) in
  let is_hallel :=
    existsb (fun indicator => contains (lower indicator) combined_text)
      hallel_indicators in
  if negb is_hallel then false
  else if contains (u "半蔵門店") body || contains (u "hanzomon") (lower body)
  then false
  else if contains (u "渋谷店") body || contains (u "shibuya") (lower body)
  then true
  else false.

Definition _determine_action_type (body : str) : option action :=
  let body_lower := lower body in
  if existsb (fun keyword => contains keyword body) cancellation_keywords
  then Some cancellation
  else if existsb (fun keyword => contains keyword body) booking_keywords
  then Some booking
  else if contains (u "キャンセル") body || contains (u "cancel") body_lower
  then Some cancellation
  else if contains (u "予約") body &&
          (contains (u "ありがとう") body || contains (u "承り") body)
  then Some booking
  else None.

Definition _extract_customer_name (body : str) : str :=
  match search customer_pattern body with
  | Some m => strip (group m 1)
  | None => u "不明"
  end.

(** [None] is the source's [return None]; a ValueError of [int], which the
    [except] of [classify_email] turns into the same [None], is folded in. *)
Definition _extract_date_time (body : str) : option date_info :=
  match search date_pattern body with
  | None => None
  | Some date_match =>
    match int (group date_match 1), int (group date_match 2),
          int (group date_match 3) with
    | Some year, Some month, Some day =>
      match search time_pattern body with
      | None => None
      | Some time_match =>
        match int (group time_match 1), int (group time_match 2),
              int (group time_match 3), int (group time_match 4) with
        | Some start_hour, Some start_minute, Some end_hour, Some end_minute =>
          let date_str :=
            format_0d 4 year ++ u "-" ++ format_0d 2 month ++ u "-" ++
            format_0d 2 day in
          let start_time := format_0d 2 start_hour ++ u ":" ++ format_0d 2 start_minute in
          let end_time := format_0d 2 end_hour ++ u ":" ++ format_0d 2 end_minute in
          let start_minutes := (start_hour * 60 + start_minute)%Z in
          let end_minutes := (end_hour * 60 + end_minute)%Z in
          let duration := (end_minutes - start_minutes)%Z in
          Some {| di_date := date_str; di_start_time := start_time;
                  di_end_time := end_time; di_duration := duration |}
        | _, _, _, _ => None
        end
      end
    | _, _, _ => None
    end
  end.

Definition _extract_studio_info (body : str) : str :=
  match search studio_pattern body with
  | Some m => strip (group m 1)
  | None => if contains (u "STUDIO") body then u "STUDIO" else u "不明"
  end.

(** [min(a, b)] of Python: [b] only when [b < a]. *)
Definition py_min (a b : float) : float := if (b <? a)%float then b else a.

Definition is_some {A} (o : option A) : bool :=
  match o with Some _ => true | None => false end.

(** The loop [for keyword in keywords: if keyword in body: confidence += w]. *)
Definition add_keywords (w : float) (keywords : list str) (body : str)
    (confidence : float) : float :=
  fold_left
    (fun confidence keyword =>
       if contains keyword body then (confidence + w)%float else confidence)
    keywords confidence.

Definition _calculate_confidence (action_type : action) (body : str) : float :=
  let confidence := 0.5%float in
  let confidence :=
    match action_type with
    | booking => add_keywords 0.1 booking_keywords body confidence
    | cancellation => add_keywords 0.15 cancellation_keywords body confidence
    end in
  let confidence :=
    if is_some (search date_pattern body) then (confidence + 0.1)%float
    else confidence in
  let confidence :=
    if is_some (search time_pattern body) then (confidence + 0.1)%float
    else confidence in
  let confidence :=
    if contains (u "HALLEL") body then (confidence + 0.1)%float
    else confidence in
  py_min confidence 1.0.

Definition classify_email (subject body : str) : option ReservationInfo :=
  if negb (_is_hallel_email subject body) then None
  else
    match _determine_action_type body with
    | None => None
    | Some action_type =>
      let customer_name := _extract_customer_name body in
      match _extract_date_time body with
      | None => None
      | Some date_info =>
        let studio_info := _extract_studio_info body in
        let confidence := _calculate_confidence action_type body in
        Some {| action_type := action_type;
                date := di_date date_info;
                start_time := di_start_time date_info;
                end_time := di_end_time date_info;
                customer_name := customer_name;
                studio := studio_info;
                duration_minutes := di_duration date_info;
                confidence := confidence;
                raw_text := body |}
      end
    end.

End WithTables.
End Classifier.

(** ** A table for running the definitions

    It has the ASCII letters, the ASCII digits and the white space of
    Python; it agrees with the runtime's tables on every text whose cased
    letters and digits are ASCII. *)

Module Tables.

Definition ascii_lower (s : str) : str :=
  map (fun c => if (65 <=? c) && (c <=? 90) then c + 32 else c) s.

Definition ascii_digit (c : N) : option N :=
  if (48 <=? c) && (c <=? 57) then Some (c - 48) else None.

Definition py_space (c : N) : bool :=
  Re.one_of [9; 10; 11; 12; 13; 28; 29; 30; 31; 32; 133; 160; 5760;
             8192; 8193; 8194; 8195; 8196; 8197; 8198; 8199; 8200; 8201; 8202;
             8232; 8233; 8239; 8287; 12288] c.

Definition ascii : Unicode :=
  {| lower := ascii_lower; digit_value := ascii_digit; is_space := py_space;
     is_digit_char := fun c => (48 <=? c) && (c <=? 57) |}.

End Tables.

(** ** gmail_fast_sync.py: FastGmailSync.parse_reservation *)

Module FastSync.
Import Re.

(** The dictionary returned by [parse_reservation]. *)
Record reservation := {
  date : str;
  start : str;
  end_ : str;
  customer_name : str;
  type_ : str;
  is_cancellation : bool;
  source : str
}.

Section WithTables.
Context `{Unicode}.

Definition d : re := Cls is_digit.
Definition ws : re := Cls is_space.
Definition not_eol : re := Cls (none_of [10; 13]).          (* [^\n\r] *)

Definition date_patterns : list re :=
  [ (* (\d{4})年(\d{1,2})月(\d{1,2})日 *)
    seq [ Grp 1 (times 4 4 d); Chr (ch "年"); Grp 2 (times 1 2 d); Chr (ch "月");
          Grp 3 (times 1 2 d); Chr (ch "日") ];
    (* (\d{4})[/-](\d{1,2})[/-](\d{1,2}) *)
    seq [ Grp 1 (times 4 4 d); Cls (one_of (u "/-")); Grp 2 (times 1 2 d);
          Cls (one_of (u "/-")); Grp 3 (times 1 2 d) ];
    (* 日時：(\d{4})年(\d{1,2})月(\d{1,2})日 *)
    seq [ lit (u "日時："); Grp 1 (times 4 4 d); Chr (ch "年");
          Grp 2 (times 1 2 d); Chr (ch "月"); Grp 3 (times 1 2 d); Chr (ch "日") ] ].

Definition time_patterns : list re :=
  [ (* (\d{1,2}):(\d{2})\s*[〜～~-]\s*(\d{1,2}):(\d{2}) *)
    seq [ Grp 1 (times 1 2 d); Chr (ch ":"); Grp 2 (times 2 2 d); star ws;
          Cls (one_of (u "〜～~-")); star ws;
          Grp 3 (times 1 2 d); Chr (ch ":"); Grp 4 (times 2 2 d) ];
    (* (\d{1,2}):(\d{2})～(\d{1,2}):(\d{2}) *)
    seq [ Grp 1 (times 1 2 d); Chr (ch ":"); Grp 2 (times 2 2 d); Chr (ch "～");
          Grp 3 (times 1 2 d); Chr (ch ":"); Grp 4 (times 2 2 d) ];
    (* (\d{1,2}):(\d{2})-(\d{1,2}):(\d{2}) *)
    seq [ Grp 1 (times 1 2 d); Chr (ch ":"); Grp 2 (times 2 2 d); Chr (ch "-");
          Grp 3 (times 1 2 d); Chr (ch ":"); Grp 4 (times 2 2 d) ] ].

Definition customer_patterns : list re :=
  [ (* ^([^\n\r]+)\s*様 *)
    seq [ Bol; Grp 1 (plus not_eol); star ws; Chr (ch "様") ];
    (* (?:お名前|氏名)[：:\s]*([^\n\r]+) *)
    seq [ Alt (lit (u "お名前")) (lit (u "氏名"));
          star (Cls (fun c => one_of (u "：:") c || is_space c));
          Grp 1 (plus not_eol) ];
    (* ([^\n\r]+)\s*様\s*\n\n(?:ご予約|以下の予約) *)
    seq [ Grp 1 (plus not_eol); star ws; Chr (ch "様"); star ws;
          Chr 10; Chr 10; Alt (lit (u "ご予約")) (lit (u "以下の予約")) ] ].

(** [for pattern in patterns: m = re.search(pattern, body); if m: break] *)
Fixpoint first_search (patterns : list re) (body : str) : option hit :=
  match patterns with
  | [] => None
  | pattern :: rest =>
      match search pattern body with
      | Some m => Some m
      | None => first_search rest body
      end
  end.

Definition parse_reservation (body subject : str) : option reservation :=
  match body with
  | [] => None
  | _ =>
    let body_lower := lower body in
    if negb (contains (u "渋谷") body || contains (u "shibuya") body_lower ||
             contains (u "hallel") body_lower)
    then None
    else
      let is_cancellation :=
        contains (u "キャンセル") subject || contains (u "cancel") (lower subject) in
      match first_search date_patterns body with
      | None => None
      | Some date_match =>
        let year := group date_match 1 in
        let month := group date_match 2 in
        let day := group date_match 3 in
        let date := year ++ u "-" ++ zfill 2 month ++ u "-" ++ zfill 2 day in
        match first_search time_patterns body with
        | None => None
        | Some time_match =>
          let start_hour := group time_match 1 in
          let start_min := group time_match 2 in
          let end_hour := group time_match 3 in
          let end_min := group time_match 4 in
          let start_time := zfill 2 start_hour ++ u ":" ++ start_min in
          let end_time := zfill 2 end_hour ++ u ":" ++ end_min in
          let customer_name :=
            match first_search customer_patterns body with
            | Some customer_match =>
                strip (remove_char (ch "様") (strip (group customer_match 1)))
            | None => u "N/A"
            end in
          Some {| date := date; start := start_time; end_ := end_time;
                  customer_name := customer_name; type_ := u "gmail";
                  is_cancellation := is_cancellation;
                  source := u "fast_gmail_sync" |}
        end
      end
  end.

End WithTables.
End FastSync.

(** ** gmail_parser.py: GmailReservationParser *)

Module GmailParser.
Import Re.

(** Exceptions that the modelled statements can raise. *)
Inductive exception := ValueError | IndexError.

Inductive exc (A : Type) :=
| Return (a : A)
| Raise (e : exception).
Arguments Return {A} a.
Arguments Raise {A} e.

Definition bind {A B} (m : exc A) (f : A -> exc B) : exc B :=
  match m with
  | Return a => f a
  | Raise e => Raise e
  end.

Notation "'do' x <- m ; k" := (bind m (fun x => k))
  (at level 10, x name, m at level 100, k at level 200).

(** The dictionary returned by [get_email_content]. *)
Record email_content := {
  ec_subject : str;
  ec_sender : str;
  ec_body : str;
  ec_message_id : str
}.

(** The dictionary returned by [parse_reservation_info]. *)
Record reservation := {
  date : str;
  start : str;
  end_ : str;
  type_ : str;
  source : str;
  email_subject : str;
  message_id : str;
  sender : str;
  customer_name : str;
  is_cancellation : bool;
  action : str;
  raw_body : str
}.

(** The dictionary built by [fetch_and_parse_reservations]. *)
Record reservation_data := {
  rd_action_type : Classifier.action;
  rd_date : str;
  rd_start : str;
  rd_end : str;
  rd_customer_name : str;
  rd_studio : str;
  rd_source : str;
  rd_confidence : float;
  rd_message_id : str;
  rd_email_subject : str
}.

(** One call [labeler.label_processed_reservation(id, action, customer)]. *)
Record label_call := {
  lc_message_id : str;
  lc_action_type : Classifier.action;
  lc_customer_name : str
}.

Definition cancel_words : list str :=
  [ u "cancel"; u "cancellation"; u "キャンセル"; u "きゃんせる"; u "取消";
    u "削除"; u "中止" ].

Definition charter_words : list str :=
  [ u "charter"; u "チャーター"; u "貸切"; u "貸し切り" ].

(** The tuple of the [n] groups that [re.findall] gives for one match. *)
Definition tuple_of (n : nat) (m : hit) : list str :=
  map (group m) (List.seq 1 n).

Definition str_of_Z (n : Z) : str := format_0d 0 n.

(** [l[i]]: IndexError out of range. *)
Definition index {A} (l : list A) (i : nat) : exc A :=
  match nth_error l i with
  | Some a => Return a
  | None => Raise IndexError
  end.

Section WithTables.
Context `{Unicode}.

Definition d : re := Cls is_digit.
Definition ws : re := Cls is_space.

(** [int(s)]: ValueError when [s] is not a number. *)
Definition int_exc (s : str) : exc Z :=
  match int s with
  | Some n => Return n
  | None => Raise ValueError
  end.

(** Each pattern with its number of groups. *)
Definition date_patterns : list (re * nat) :=
  [ (* (\d{4})[/-](\d{1,2})[/-](\d{1,2}) *)
    (seq [ Grp 1 (times 4 4 d); Cls (one_of (u "/-")); Grp 2 (times 1 2 d);
           Cls (one_of (u "/-")); Grp 3 (times 1 2 d) ], 3%nat);
    (* (\d{1,2})[/-](\d{1,2}) *)
    (seq [ Grp 1 (times 1 2 d); Cls (one_of (u "/-")); Grp 2 (times 1 2 d) ], 2%nat);
    (* (\d{1,2})月(\d{1,2})日 *)
    (seq [ Grp 1 (times 1 2 d); Chr (ch "月"); Grp 2 (times 1 2 d); Chr (ch "日") ],
     2%nat) ].

Definition time_patterns : list (re * nat) :=
  [ (* (\d{1,2}):(\d{2}) *)
    (seq [ Grp 1 (times 1 2 d); Chr (ch ":"); Grp 2 (times 2 2 d) ], 2%nat);
    (* (\d{1,2})時(\d{1,2})分? *)
    (seq [ Grp 1 (times 1 2 d); Chr (ch "時"); Grp 2 (times 1 2 d);
           times 0 1 (Chr (ch "分")) ], 2%nat) ].

(** The loop over [date_patterns]: the first pattern with a match decides. *)
Fixpoint find_date (current_year : Z) (patterns : list (re * nat)) (body : str)
    : option str :=
  match patterns with
  | [] => None
  | (pattern, n) :: rest =>
      match findall pattern body with
      | [] => find_date current_year rest body
      | m :: _ =>
          match tuple_of n m with
          | [year; month; day] =>
              Some (year ++ u "-" ++ zfill 2 month ++ u "-" ++ zfill 2 day)
          | [month; day] =>
              Some (str_of_Z current_year ++ u "-" ++ zfill 2 month ++ u "-" ++
                    zfill 2 day)
          | _ => None
          end
      end
  end.

(** The loop over [time_patterns]: every match of every pattern, in order. *)
Definition find_times (patterns : list (re * nat)) (body : str) : list str :=
  flat_map
    (fun '(pattern, n) =>
       flat_map
         (fun m =>
            match tuple_of n m with
            | [hour; minute] => [zfill 2 hour ++ u ":" ++ zfill 2 minute]
            | _ => []
            end)
         (findall pattern body))
    patterns.

(** Lines 211-219: the end assumed when the mail has only one time. *)
Definition assumed_end_time (start_time : str) : exc str :=
  do start_hour_s <- index (split (ch ":") start_time) 0;
  do start_hour <- int_exc start_hour_s;
  do start_minute_s <- index (split (ch ":") start_time) 1;
  do start_minute <- int_exc start_minute_s;
  let end_hour := (start_hour + 1)%Z in
  let end_minute := (start_minute + 30)%Z in
  let '(end_hour, end_minute) :=
    if (60 <=? end_minute)%Z then ((end_hour + 1)%Z, (end_minute - 60)%Z)
    else (end_hour, end_minute) in
  Return (format_0d 2 end_hour ++ u ":" ++ format_0d 2 end_minute).

(** [[\u3040-\u309F\u30A0-\u30FF\u4E00-\u9FAF]], with [\s] *)
Definition japanese_or_space (c : N) : bool :=
  between 0x3040 0x309F c || between 0x30A0 0x30FF c ||
  between 0x4E00 0x9FAF c || is_space c.

(** [^[\u3040-\u309F\u30A0-\u30FF\u4E00-\u9FAF\u3000-\u303Fa-zA-Z\s]+$] *)
Definition name_line : re :=
  seq [ plus (Cls (fun c => between 0x3040 0x309F c || between 0x30A0 0x30FF c ||
                            between 0x4E00 0x9FAF c || between 0x3000 0x303F c ||
                            between 97 122 c || between 65 90 c || is_space c));
        Eol ].

Definition not_a_name : list str :=
  [ u "@"; u "http"; u "www"; u ".com"; u ".jp"; u "hallel"; u "メール"; u "ご予約" ].

(** The inner loop [for j in range(i-1, -1, -1)], over the lines before the
    anchor, the nearest first; [None] when it ends without [return]. *)
Fixpoint name_above (prevs : list str) : option str :=
  match prevs with
  | [] => None
  | l :: rest =>
      let prev_line := strip l in
      if negb (str_eqb prev_line []) && negb (endswith (u "メール") prev_line) &&
         (length prev_line <=? 20)%nat
      then
        if Classifier.is_some (match_ name_line prev_line)
        then
          if negb (existsb (fun word => contains word (lower prev_line)) not_a_name)
             && negb (isdigit prev_line)
          then Some prev_line
          else None
        else None
      else name_above rest
  end.

(** The outer loop over the lines; [before] holds the lines already passed,
    the nearest first. *)
Fixpoint name_by_lines (before lines : list str) : option str :=
  match lines with
  | [] => None
  | line :: rest =>
      let found :=
        if str_eqb (strip line) (u "より、ご予約をいただきました。") ||
           str_eqb (strip line) (u "より、ご予約をいただきました")
        then name_above before
        else None in
      match found with
      | Some name => Some name
      | None => name_by_lines (line :: before) rest
      end
  end.

Definition hallel_patterns : list re :=
  [ (* メール\n\n([...]+?)\n\nより、ご予約をいただきました *)
    seq [ lit (u "メール"); Chr 10; Chr 10;
          Grp 1 (Rep false 1 None (Cls japanese_or_space));
          Chr 10; Chr 10; lit (u "より、ご予約をいただきました") ];
    (* メール\s*\n\s*([...]+?)\s*\n\s*より、ご予約をいただきました *)
    seq [ lit (u "メール"); star ws; Chr 10; star ws;
          Grp 1 (Rep false 1 None (Cls japanese_or_space));
          star ws; Chr 10; star ws; lit (u "より、ご予約をいただきました") ] ].

(** [[^\s\n]{1,20}] *)
Definition name_run : re :=
  times 1 20 (Cls (fun c => negb (is_space c || (c =? 10)))).

Definition general_patterns : list re :=
  [ seq [ Grp 1 name_run; Chr (ch "様") ];
    seq [ Grp 1 name_run; lit (u "さま") ];
    seq [ Grp 1 name_run; lit (u "サマ") ];
    seq [ lit (u "お名前"); Cls (one_of (u "：:")); star ws; Grp 1 name_run ];
    seq [ lit (u "氏名"); Cls (one_of (u "：:")); star ws; Grp 1 name_run ];
    seq [ lit (u "予約者"); Cls (one_of (u "：:")); star ws; Grp 1 name_run ] ].

(** The loop over a pattern list: the first match of the first pattern whose
    stripped group passes [ok] is returned. *)
Fixpoint name_by_patterns (ok : str -> bool) (patterns : list re) (body : str)
    : option str :=
  match patterns with
  | [] => None
  | pattern :: rest =>
      match findall pattern body with
      | m :: _ =>
          let name := strip (group m 1) in
          if ok name then Some name else name_by_patterns ok rest body
      | [] => name_by_patterns ok rest body
      end
  end.

Definition extract_customer_name (body : str) : str :=
  match body with
  | [] => u "N/A"
  | _ =>
    match name_by_lines [] (split 10 body) with
    | Some name => name
    | None =>
      match name_by_patterns
              (fun name =>
                 (1 <=? length name)%nat && (length name <=? 15)%nat &&
                 negb (existsb (fun word => contains word (lower name))
                         (not_a_name ++ [u "より"])) &&
                 negb (isdigit name))
              hallel_patterns body with
      | Some name => name
      | None =>
        match name_by_patterns
                (fun name =>
                   (1 <=? length name)%nat &&
                   negb (existsb (fun char => contains char name)
                           [u "@"; u "http"; u "www"; u ".com"; u ".jp"]))
                general_patterns body with
        | Some name => name
        | None => u "N/A"
        end
      end
    end
  end.

(** [parse_reservation_info(email_content)]; [current_year] is
    [datetime.now().year]. *)
Definition parse_reservation_info (current_year : Z)
    (email_content : option email_content) : exc (option reservation) :=
  match email_content with
  | None => Return None
  | Some email_content =>
    let body := ec_body email_content in
    let subject := ec_subject email_content in
    let is_cancellation :=
      existsb (fun word => contains word (lower subject ++ lower body))
        cancel_words in
    let reservation_type :=
      if existsb (fun word => contains word (lower subject ++ lower body))
           charter_words
      then u "charter" else u "gmail" in
    let date_found := find_date current_year date_patterns body in
    let times_found := find_times time_patterns body in
    match date_found, times_found with
    | Some date_found, start_time :: more_times =>
        do end_time <-
          match more_times with
          | end_time :: _ => Return end_time
          | [] => assumed_end_time start_time
          end;
        let customer_name := extract_customer_name body in
        Return (Some
          {| date := date_found; start := start_time; end_ := end_time;
             type_ := reservation_type; source := u "gmail_auto";
             email_subject := subject;
             message_id := ec_message_id email_content;
             sender := ec_sender email_content;
             customer_name := customer_name;
             is_cancellation := is_cancellation;
             action := if is_cancellation then u "cancel" else u "book";
             raw_body := if (200 <? length body)%nat
                         then take 200 body ++ u "..." else body |})
    | _, _ => Return None
    end
  end.

(** [fetch_and_parse_reservations]: [messages] are the ids that
    [get_recent_emails] returned, [get_email_content] is the mail service and
    [labeler] tells whether [self.labeler] is set.  The result is the list
    [reservations] and the calls made to the labeler, in order. *)
Fixpoint process_messages (get_email_content : str -> option email_content)
    (labeler : bool) (messages : list str)
    : list reservation_data * list label_call :=
  match messages with
  | [] => ([], [])
  | message :: rest =>
      let '(reservations, labels) := process_messages get_email_content labeler rest in
      match get_email_content message with
      | None => (reservations, labels)
      | Some email_content =>
          match Classifier.classify_email (ec_subject email_content)
                  (ec_body email_content) with
          | Some reservation_info =>
              if (0.7 <? Classifier.confidence reservation_info)%float
              then
                let reservation_data :=
                  {| rd_action_type := Classifier.action_type reservation_info;
                     rd_date := Classifier.date reservation_info;
                     rd_start := Classifier.start_time reservation_info;
                     rd_end := Classifier.end_time reservation_info;
                     rd_customer_name := Classifier.customer_name reservation_info;
                     rd_studio := Classifier.studio reservation_info;
                     rd_source := u "gmail_auto";
                     rd_confidence := Classifier.confidence reservation_info;
                     rd_message_id := message;
                     rd_email_subject := ec_subject email_content |} in
                (reservation_data :: reservations,
                 if labeler
                 then {| lc_message_id := message;
                         lc_action_type := Classifier.action_type reservation_info;
                         lc_customer_name := Classifier.customer_name reservation_info |}
                      :: labels
                 else labels)
              else (reservations, labels)
          | None => (reservations, labels)
          end
      end
  end.

Definition fetch_and_parse_reservations
    (get_email_content : str -> option email_content) (labeler : bool)
    (messages : list str) : list reservation_data * list label_call :=
  process_messages get_email_content labeler (take 20 messages).

End WithTables.
End GmailParser.

(** ** app.py: the schedule store, the merge loops and the logs *)

Module App.

(** A stored reservation: a dictionary whose keys are read with [.get], so
    every key may be missing. *)
Record slot := {
  type_ : option str;
  start : option str;
  end_ : option str;
  source : option str;
  sender : option str;
  email_subject : option str;
  message_id : option str;
  customer_name : option str;
  confidence : option float;
  status : option str;
  group : option Z
}.

(** What one pass of a merge loop did with its reservation: the branch of
    the loop body that ran.  The loops count [Added] in [added_count] and
    [Cancelled] in [cancelled_count]; the hacomono loop also counts
    [Skipped_Duplicate]. *)
Inductive outcome :=
| Added
| Cancelled
| Skipped_Duplicate
| Cancel_Not_Found
| No_Action.

(** The messages given to [log_activity] by the modelled functions. *)
Inductive activity :=
| Gas_sync_added (date start end_ customer_name : str)
| Gas_sync_cancelled (date start end_ customer_name : str)
| Gas_webhook_error (key : str)
| Hacomono_sync_added (date start end_ type_ customer_name : str)
| Hacomono_sync_skipped (date start end_ type_ : str).

(** The entries of [reservation_judgment_logs], before they are rendered
    as text; each starts with its time stamp. *)
Inductive log_entry :=
| Judgment (timestamp action_type customer_name date time_slot : str)
    (confidence : float)
| Manual (timestamp message : str)
| Clear (timestamp : str) (log_count : nat)
| Export (timestamp : str).

(** The module-level variables of app.py. *)
Record state := {
  reservations_db : gmap str (list slot);
  activity_logs : list (str * activity);
  reservation_judgment_logs : list log_entry
}.

Definition HACOMONO_ENABLED : bool := false.

(** A reservation as [FastGmailSync.get_recent_reservations] hands it to
    [sync_gmail_reservations]: the keys read with [reservation[...]] are
    always there, the keys read with [.get] may be missing. *)
Record gmail_reservation := {
  g_date : str;
  g_start : str;
  g_end : str;
  g_source : str;
  g_customer_name : option str;
  g_action_type : option str;
  g_confidence : option float;
  g_sender : option str;
  g_email_subject : option str;
  g_message_id : option str
}.

(** A reservation of the JSON body of [/api/gas/webhook]: a dictionary in
    which any key may be missing.  [date], [start], [end] and [type] are
    read with [reservation[...]], which raises [KeyError] for a missing key;
    [customer_name] and [is_cancellation] are read with [.get]. *)
Record gas_reservation := {
  w_date : option str;
  w_start : option str;
  w_end : option str;
  w_type : option str;
  w_customer_name : option str;
  w_is_cancellation : bool
}.

(** How one pass of the loop of [gas_webhook] ends: with an outcome, or with
    the [KeyError] of the key that the reservation does not have. *)
Inductive gas_result :=
| Done (o : outcome)
| KeyError (key : str).

(** A reservation returned by the hacomono scraper. *)
Record hacomono_reservation := {
  h_date : str;
  h_start : str;
  h_end : str;
  h_type : str;
  h_source : str;
  h_customer_name : option str;
  h_status : option str
}.

(** [d.get(key, default)] *)
Definition get {A} (o : option A) (default : A) : A :=
  match o with
  | Some a => a
  | None => default
  end.

(** [existing.get(key) == value] *)
Definition is_ (o : option str) (value : str) : bool := bool_decide (o = Some value).

(** [log_activity(action)] at time [timestamp] *)
Definition log_activity (timestamp : str) (action : activity)
    (activity_logs : list (str * activity)) : list (str * activity) :=
  let activity_logs := activity_logs ++ [(timestamp, action)] in
  if (100 <? length activity_logs)%nat then drop 1 activity_logs else activity_logs.

(** [log_reservation_judgment(...)] at time [timestamp] *)
Definition log_reservation_judgment (timestamp action_type date time_slot
    customer_name : str) (confidence : float) (logs : list log_entry)
    : list log_entry :=
  let log_entry := Judgment timestamp action_type customer_name date time_slot confidence in
  let logs := logs ++ [log_entry] in
  if (200 <? length logs)%nat then drop 1 logs else logs.

(** The body of [add_log] after the checks of the request: [message] is
    the stripped, non-empty text. *)
Definition add_log (timestamp message : str) (logs : list log_entry) : list log_entry :=
  let log_entry := Manual timestamp message in
  let logs := logs ++ [log_entry] in
  if (200 <? length logs)%nat then drop 1 logs else logs.

(** [clear_logs]: the new log and [cleared_count]. *)
Definition clear_logs (timestamp : str) (logs : list log_entry) : list log_entry * nat :=
  let log_count := length logs in
  ([] ++ [Clear timestamp log_count], log_count).

(** [export_logs]: the new log and the exported entries. *)
Definition export_logs (timestamp : str) (logs : list log_entry)
    : list log_entry * list log_entry :=
  let log_text := logs in
  (logs ++ [Export timestamp], log_text).

(** [if date not in reservations_db: reservations_db[date] = []] *)
Definition ensure_date (date : str) (db : gmap str (list slot)) : gmap str (list slot) :=
  match db !! date with
  | Some _ => db
  | None => <[date := []]> db
  end.

(** [reservations_db[date]] once the key is there *)
Definition slots_on (date : str) (db : gmap str (list slot)) : list slot :=
  get (db !! date) [].

(** The loop [for i, existing in enumerate(l): if p(existing): l.pop(i);
    break]: the list without the first element that satisfies [p], or [None]
    when the loop ends without a [pop]. *)
Fixpoint pop_first (p : slot -> bool) (l : list slot) : option (list slot) :=
  match l with
  | [] => None
  | existing :: rest =>
      if p existing then Some rest
      else match pop_first p rest with
           | Some rest' => Some (existing :: rest')
           | None => None
           end
  end.

(** *** sync_gmail_reservations *)

Definition gmail_match (start_time customer_name : str) (existing : slot) : bool :=
  is_ (start existing) start_time && is_ (App.customer_name existing) customer_name.

(** One pass of the loop of [sync_gmail_reservations]. *)
Definition gmail_apply (timestamp : str) (reservation : gmail_reservation)
    (st : state) : state * outcome :=
  let date := g_date reservation in
  let start_time := g_start reservation in
  let end_time := g_end reservation in
  let customer_name := get (g_customer_name reservation) (u "N/A") in
  let action_type := get (g_action_type reservation) (u "booking") in
  let confidence := get (g_confidence reservation) 1.0%float in
  let db := ensure_date date (reservations_db st) in
  let logs :=
    log_reservation_judgment timestamp action_type date
      (start_time ++ u "-" ++ end_time) customer_name confidence
      (reservation_judgment_logs st) in
  let st := {| reservations_db := db; activity_logs := activity_logs st;
               reservation_judgment_logs := logs |} in
  if str_eqb action_type (u "cancellation") then
    match pop_first (gmail_match start_time customer_name) (slots_on date db) with
    | Some rest =>
        ({| reservations_db := <[date := rest]> db;
            activity_logs := activity_logs st;
            reservation_judgment_logs := logs |}, Cancelled)
    | None => (st, Cancel_Not_Found)
    end
  else if str_eqb action_type (u "booking") then
    let duplicate := existsb (gmail_match start_time customer_name) (slots_on date db) in
    if negb duplicate then
      let entry :=
        {| type_ := Some (u "gmail");
           start := Some start_time;
           end_ := Some end_time;
           source := Some (g_source reservation);
           sender := Some (get (g_sender reservation) (u "N/A"));
           email_subject := Some (get (g_email_subject reservation) (u "N/A"));
           message_id := Some (get (g_message_id reservation) (u "N/A"));
           customer_name := Some customer_name;
           confidence := Some confidence;
           status := None;
           group := Some 1%Z |} in
      ({| reservations_db := <[date := slots_on date db ++ [entry]]> db;
          activity_logs := activity_logs st;
          reservation_judgment_logs := logs |}, Added)
    else (st, Skipped_Duplicate)
  else (st, No_Action).

(** The counters of a sync loop. *)
Record counts := { added : nat; cancelled : nat; skipped : nat }.

Definition count (o : outcome) (c : counts) : counts :=
  match o with
  | Added => {| added := S (added c); cancelled := cancelled c; skipped := skipped c |}
  | Cancelled => {| added := added c; cancelled := S (cancelled c); skipped := skipped c |}
  | Skipped_Duplicate =>
      {| added := added c; cancelled := cancelled c; skipped := S (skipped c) |}
  | _ => c
  end.

(** A merge loop over reservations, each with the clock reading of its
    pass; the effects of the passes accumulate in order. *)
Fixpoint merge_loop {R} (apply : str -> R -> state -> state * outcome)
    (reservations : list (str * R)) (st : state) (c : counts) : state * counts :=
  match reservations with
  | [] => (st, c)
  | (timestamp, reservation) :: rest =>
      let '(st', o) := apply timestamp reservation st in
      merge_loop apply rest st' (count o c)
  end.

(** The loop of [sync_gmail_reservations] on the list that the mail
    connector returned; the response reports [added] and [cancelled]. *)
Definition sync_gmail_reservations (new_reservations : list (str * gmail_reservation))
    (st : state) : state * counts :=
  merge_loop gmail_apply new_reservations st
    {| added := 0; cancelled := 0; skipped := 0 |}.

(** The dictionary that [FastGmailSync.get_recent_reservations] returns for
    a parsed mail, as [sync_gmail_reservations] reads it: the keys of
    [parse_reservation] and [email_id], [email_subject], [email_sender].  It
    has no key [action_type], [confidence], [sender] or [message_id]. *)
Definition read_fast_sync (email_subject : str) (r : FastSync.reservation)
    : gmail_reservation :=
  {| g_date := FastSync.date r;
     g_start := FastSync.start r;
     g_end := FastSync.end_ r;
     g_source := FastSync.source r;
     g_customer_name := Some (FastSync.customer_name r);
     g_action_type := None;
     g_confidence := None;
     g_sender := None;
     g_email_subject := Some email_subject;
     g_message_id := None |}.

(** *** gas_webhook *)

(** The scan of the cancellation branch: [for i, existing in enumerate(l):
    if existing.get('start') == reservation['start'] and existing.get('type')
    == reservation['type']: l.pop(i); ...; break].  The keys of the
    reservation are read at each slot, [type] only when the start is the
    same. *)
Inductive gas_scan :=
| Found (rest : list slot)
| Not_found
| Scan_error (key : str).

Fixpoint gas_cancel_scan (reservation : gas_reservation) (l : list slot) : gas_scan :=
  match l with
  | [] => Not_found
  | existing :: rest =>
      let next :=
        match gas_cancel_scan reservation rest with
        | Found rest' => Found (existing :: rest')
        | other => other
        end in
      match w_start reservation with
      | None => Scan_error (u "start")
      | Some start_time =>
          if is_ (start existing) start_time then
            match w_type reservation with
            | None => Scan_error (u "type")
            | Some type => if is_ (type_ existing) type then Found rest else next
            end
          else next
      end
  end.

(** The scan of the booking branch: [for existing in l: if
    existing.get('start') == reservation['start'] and existing.get('end') ==
    reservation['end'] and existing.get('customer_name') ==
    reservation.get('customer_name'): duplicate = True; break]. *)
Inductive gas_check :=
| Is_duplicate
| Is_new
| Check_error (key : str).

Fixpoint gas_duplicate_scan (reservation : gas_reservation) (l : list slot) : gas_check :=
  match l with
  | [] => Is_new
  | existing :: rest =>
      match w_start reservation with
      | None => Check_error (u "start")
      | Some start_time =>
          if is_ (start existing) start_time then
            match w_end reservation with
            | None => Check_error (u "end")
            | Some end_time =>
                if is_ (end_ existing) end_time &&
                   bool_decide (customer_name existing = w_customer_name reservation)
                then Is_duplicate
                else gas_duplicate_scan reservation rest
            end
          else gas_duplicate_scan reservation rest
      end
  end.

(** One pass of the loop of [gas_webhook].  What the pass wrote before a
    [KeyError] stays written: the date as a key, and in the cancellation
    branch the removal of the slot, which comes before the line of the
    activity log that reads [reservation['end']]. *)
Definition gas_apply (timestamp : str) (reservation : gas_reservation)
    (st : state) : state * gas_result :=
  match w_date reservation with
  | None => (st, KeyError (u "date"))
  | Some date =>
      let db := ensure_date date (reservations_db st) in
      let name := get (w_customer_name reservation) (u "N/A") in
      let with_date :=
        {| reservations_db := db; activity_logs := activity_logs st;
           reservation_judgment_logs := reservation_judgment_logs st |} in
      if w_is_cancellation reservation then
        match gas_cancel_scan reservation (slots_on date db) with
        | Found rest =>
            let popped :=
              {| reservations_db := <[date := rest]> db;
                 activity_logs := activity_logs st;
                 reservation_judgment_logs := reservation_judgment_logs st |} in
            match w_start reservation, w_end reservation with
            | Some start_time, Some end_time =>
                ({| reservations_db := <[date := rest]> db;
                    activity_logs :=
                      log_activity timestamp
                        (Gas_sync_cancelled date start_time end_time name)
                        (activity_logs st);
                    reservation_judgment_logs := reservation_judgment_logs st |},
                 Done Cancelled)
            | None, _ => (popped, KeyError (u "start"))
            | Some _, None => (popped, KeyError (u "end"))
            end
        | Not_found => (with_date, Done Cancel_Not_Found)
        | Scan_error key => (with_date, KeyError key)
        end
      else
        match gas_duplicate_scan reservation (slots_on date db) with
        | Is_new =>
            match w_start reservation, w_end reservation with
            | Some start_time, Some end_time =>
                let reservation_entry :=
                  {| type_ := Some (u "gmail");
                     start := Some start_time;
                     end_ := Some end_time;
                     source := Some (u "gas");
                     sender := None;
                     email_subject := None;
                     message_id := None;
                     customer_name := Some name;
                     confidence := None;
                     status := None;
                     group := None |} in
                ({| reservations_db :=
                      <[date := slots_on date db ++ [reservation_entry]]> db;
                    activity_logs :=
                      log_activity timestamp
                        (Gas_sync_added date start_time end_time name)
                        (activity_logs st);
                    reservation_judgment_logs := reservation_judgment_logs st |},
                 Done Added)
            | None, _ => (with_date, KeyError (u "start"))
            | Some _, None => (with_date, KeyError (u "end"))
            end
        | Is_duplicate => (with_date, Done Skipped_Duplicate)
        | Check_error key => (with_date, KeyError key)
        end
  end.

(** The loop of [gas_webhook] inside its [try]: a [KeyError] ends the loop,
    the handler writes it to the activity log, and the answer is 500 with no
    counters; what the passes before had written stays. *)
Fixpoint gas_loop (reservations : list (str * gas_reservation)) (st : state)
    (c : counts) : state * option counts :=
  match reservations with
  | [] => (st, Some c)
  | (timestamp, reservation) :: rest =>
      match gas_apply timestamp reservation st with
      | (st', Done o) => gas_loop rest st' (count o c)
      | (st', KeyError key) =>
          ({| reservations_db := reservations_db st';
              activity_logs :=
                log_activity timestamp (Gas_webhook_error key) (activity_logs st');
              reservation_judgment_logs := reservation_judgment_logs st' |}, None)
      end
  end.

(** The body of [gas_webhook] after the check of the secret and of the
    format: the counters of the answer 200, or [None] for the answer 500. *)
Definition gas_webhook (reservations : list (str * gas_reservation)) (st : state)
    : state * option counts :=
  gas_loop reservations st {| added := 0; cancelled := 0; skipped := 0 |}.

(** *** sync_hacomono_reservations *)

Definition hacomono_duplicate (reservation : hacomono_reservation) (existing : slot)
    : bool :=
  is_ (start existing) (h_start reservation) &&
  is_ (source existing) (h_source reservation).

(** [len([r for r in reservations_db[date] if r.get('start') == start])] *)
Definition same_start (start_time : str) (slots : list slot) : nat :=
  length (filter (fun r => start r = Some start_time) slots).

(** One pass of the loop of [sync_hacomono_reservations]. *)
Definition hacomono_apply (timestamp : str) (reservation : hacomono_reservation)
    (st : state) : state * outcome :=
  let date := h_date reservation in
  let db := ensure_date date (reservations_db st) in
  let name := get (h_customer_name reservation) (u "N/A") in
  let duplicate := existsb (hacomono_duplicate reservation) (slots_on date db) in
  if negb duplicate then
    let entry :=
      {| type_ := Some (h_type reservation);
         start := Some (h_start reservation);
         end_ := Some (h_end reservation);
         source := Some (h_source reservation);
         sender := None;
         email_subject := None;
         message_id := None;
         customer_name := Some name;
         confidence := None;
         status := Some (get (h_status reservation) (u "N/A"));
         group :=
           Some (Z.of_nat (same_start (h_start reservation) (slots_on date db)) + 1)%Z |} in
    ({| reservations_db := <[date := slots_on date db ++ [entry]]> db;
        activity_logs :=
          log_activity timestamp
            (Hacomono_sync_added date (h_start reservation) (h_end reservation)
               (h_type reservation) name)
            (activity_logs st);
        reservation_judgment_logs := reservation_judgment_logs st |}, Added)
  else
    ({| reservations_db := db;
        activity_logs :=
          log_activity timestamp
            (Hacomono_sync_skipped date (h_start reservation) (h_end reservation)
               (h_type reservation))
            (activity_logs st);
        reservation_judgment_logs := reservation_judgment_logs st |},
     Skipped_Duplicate).

(** The endpoint answers 503 ([None]) while [HACOMONO_ENABLED] is false;
    [new_reservations] is what the scraper would return. *)
Definition sync_hacomono_reservations
    (new_reservations : list (str * hacomono_reservation)) (st : state)
    : state * option counts :=
  if negb HACOMONO_ENABLED then (st, None)
  else
    let '(st', c) :=
      merge_loop hacomono_apply new_reservations st
        {| added := 0; cancelled := 0; skipped := 0 |} in
    (st', Some c).

End App.

(** * The vocabulary of the properties *)

(** ** The signals of the confidence score and the location markers *)

Module ClassifierSpec.
Import Re Classifier.

(** The number of [keywords] that occur in [body]. *)
Fixpoint matched (keywords : list str) (body : str) : nat :=
  match keywords with
  | [] => 0
  | keyword :: rest =>
      if contains keyword body then S (matched rest body) else matched rest body
  end.

Definition keywords_of (a : action) : list str :=
  match a with
  | booking => booking_keywords
  | cancellation => cancellation_keywords
  end.

Definition weight (a : action) : float :=
  match a with
  | booking => 0.1%float
  | cancellation => 0.15%float
  end.

Definition bump (b : bool) (c : float) : float :=
  if b then (c + 0.1)%float else c.

(** The sum for a vector of signals: 0.5, then the weight of the action for
    each of [k] keywords, then 0.1 for a date, for a time and for the brand
    literal, added one after the other in binary64. *)
Definition total (a : action) (k : nat) (dt tm br : bool) : float :=
  bump br (bump tm (bump dt (Nat.iter k (fun c => (c + weight a)%float) 0.5%float))).

(** The score of a vector of signals: the sum, and 1.0 when the sum is
    above 1.0. *)
Definition score (a : action) (k : nat) (dt tm br : bool) : float :=
  if (1.0 <? total a k dt tm br)%float then 1.0%float else total a k dt tm br.

Section WithTables.
Context `{Unicode}.

Definition has_date (body : str) : bool := is_some (search date_pattern body).
Definition has_time (body : str) : bool := is_some (search time_pattern body).
Definition has_brand (body : str) : bool := contains (u "HALLEL") body.

Definition excluded_location (body : str) : bool :=
  contains (u "半蔵門店") body || contains (u "hanzomon") (lower body).

Definition included_location (body : str) : bool :=
  contains (u "渋谷店") body || contains (u "shibuya") (lower body).

(** The signals of [body] are among those of [body']. *)
Definition signals_within (a : action) (body body' : str) : Prop :=
  (forall keyword, In keyword (keywords_of a) ->
     contains keyword body = true -> contains keyword body' = true) /\
  (has_brand body = true -> has_brand body' = true).

End WithTables.
End ClassifierSpec.

(** ** The events that pass the confidence gate *)

Module GmailParserSpec.
Import Re GmailParser.

Section WithTables.
Context `{Unicode}.

(** The dictionary built for message [message] from the event [r]. *)
Definition event_of (message : str) (email : email_content)
    (r : Classifier.ReservationInfo) : reservation_data :=
  {| rd_action_type := Classifier.action_type r;
     rd_date := Classifier.date r;
     rd_start := Classifier.start_time r;
     rd_end := Classifier.end_time r;
     rd_customer_name := Classifier.customer_name r;
     rd_studio := Classifier.studio r;
     rd_source := u "gmail_auto";
     rd_confidence := Classifier.confidence r;
     rd_message_id := message;
     rd_email_subject := ec_subject email |}.

Definition label_of (message : str) (r : Classifier.ReservationInfo) : label_call :=
  {| lc_message_id := message;
     lc_action_type := Classifier.action_type r;
     lc_customer_name := Classifier.customer_name r |}.

(** [message] is read, classified as [r], and [r] passes the gate. *)
Definition passes (get_email_content : str -> option email_content)
    (message : str) (email : email_content) (r : Classifier.ReservationInfo) : Prop :=
  get_email_content message = Some email /\
  Classifier.classify_email (ec_subject email) (ec_body email) = Some r /\
  (0.7 <? Classifier.confidence r)%float = true.

End WithTables.
End GmailParserSpec.

(** ** Duplicates, appended slots and cancellations *)

Module AppSpec.
Import App.

Definition name_of (r : gmail_reservation) : str := get (g_customer_name r) (u "N/A").
Definition action_of (r : gmail_reservation) : str := get (g_action_type r) (u "booking").

(** The slot that [sync_gmail_reservations] appends for [r]. *)
Definition gmail_entry (r : gmail_reservation) : slot :=
  {| type_ := Some (u "gmail");
     start := Some (g_start r);
     end_ := Some (g_end r);
     source := Some (g_source r);
     sender := Some (get (g_sender r) (u "N/A"));
     email_subject := Some (get (g_email_subject r) (u "N/A"));
     message_id := Some (get (g_message_id r) (u "N/A"));
     customer_name := Some (name_of r);
     confidence := Some (get (g_confidence r) 1.0%float);
     status := None;
     group := Some 1%Z |}.

(** The slot that [gas_webhook] appends for a booking [r] that has its
    start and its end. *)
Definition gas_entry (r : gas_reservation) : slot :=
  {| type_ := Some (u "gmail");
     start := w_start r;
     end_ := w_end r;
     source := Some (u "gas");
     sender := None;
     email_subject := None;
     message_id := None;
     customer_name := Some (get (w_customer_name r) (u "N/A"));
     confidence := None;
     status := None;
     group := None |}.

(** The keys of the merge rules, on the fields of a stored slot. *)

(** Same start and same customer name: the key of the Gmail rule. *)
Definition gmail_key (start_time customer : str) (x : slot) : Prop :=
  start x = Some start_time /\ customer_name x = Some customer.

(** Same start, same end and same customer name, a missing name being equal
    to a missing name only: the key of the webhook rule for bookings. *)
Definition gas_key (start_time end_time : str) (customer : option str) (x : slot) : Prop :=
  start x = Some start_time /\ end_ x = Some end_time /\ customer_name x = customer.

(** Same start and same type: the key of the webhook rule for cancellations. *)
Definition cancel_key (start_time type : str) (x : slot) : Prop :=
  start x = Some start_time /\ type_ x = Some type.

(** The number of slots of a list that have the start [start_time]. *)
Fixpoint count_at (start_time : str) (l : list slot) : nat :=
  match l with
  | [] => 0
  | x :: rest =>
      match start x with
      | Some s => if bool_decide (s = start_time) then S (count_at start_time rest)
                  else count_at start_time rest
      | None => count_at start_time rest
      end
  end.

(** A slot of [date] that the Gmail loop takes for [r]. *)
Definition gmail_known (r : gmail_reservation) (db : gmap str (list slot)) : bool :=
  existsb (gmail_match (g_start r) (name_of r)) (slots_on (g_date r) db).

(** Two reservations with the same key of the Gmail rule. *)
Definition same_gmail_key (r r' : gmail_reservation) : Prop :=
  g_date r' = g_date r /\ g_start r' = g_start r /\ name_of r' = name_of r.

(** Two reservations with the same key of the webhook rule. *)
Definition same_gas_key (r r' : gas_reservation) : Prop :=
  w_date r' = w_date r /\ w_start r' = w_start r /\ w_end r' = w_end r /\
  w_customer_name r' = w_customer_name r.

(** A webhook reservation that has the keys [date], [start] and [end]. *)
Definition gas_fields (r : gas_reservation) (date start_time end_time : str) : Prop :=
  w_date r = Some date /\ w_start r = Some start_time /\ w_end r = Some end_time.

(** Two stores with the same slots on every date but [date]. *)
Definition same_elsewhere (date : str) (db db' : gmap str (list slot)) : Prop :=
  forall d, d <> date -> db' !! d = db !! d.

(** A log at the bound: 200 manual entries. *)
Definition full_log : list log_entry :=
  repeat (Manual (u "2025-11-02 10:00:00") (u "note")) 200.

End AppSpec.

(** * Concrete inputs *)

Module Inputs.

Definition nl : str := [10].

Definition subject_a : str := u "HALLELよりご予約確認".

(** A cancellation notice that also thanks for the booking. *)
Definition body_cancel : str :=
  u "HALLEL 渋谷店" ++ nl ++ u "田中 様" ++ nl ++
  u "ご予約ありがとうございます。" ++ nl ++
  u "以下の予約をキャンセルいたしました。" ++ nl ++
  u "日時：2025年11月02日 10:00~11:00" ++ nl.

(** A booking notice of the Shibuya store. *)
Definition body_booking : str :=
  u "HALLEL 渋谷店" ++ nl ++ u "田中 様" ++ nl ++
  u "ご予約ありがとうございます。" ++ nl ++
  u "日時：2025年11月02日 10:00~11:00" ++ nl.

(** The same notice from the Hanzomon store. *)
Definition body_hanzomon : str :=
  u "HALLEL 半蔵門店" ++ nl ++ u "田中 様" ++ nl ++
  u "ご予約ありがとうございます。" ++ nl ++
  u "日時：2025年11月02日 10:00~11:00" ++ nl.

(** A booking recognised by the secondary rule only, the brand in the
    subject alone. *)
Definition body_weak : str :=
  u "渋谷店" ++ nl ++ u "田中 様" ++ nl ++ u "予約 ありがとう" ++ nl ++
  u "2025年11月02日 10:00~11:00" ++ nl.

Definition mail (body : str) : GmailParser.email_content :=
  {| GmailParser.ec_subject := u "予約のお知らせ";
     GmailParser.ec_sender := u "noreply@em.hacomono.jp";
     GmailParser.ec_body := body;
     GmailParser.ec_message_id := u "m1" |}.

(** Two messages: the booking notice (confidence above 0.7) and the weak
    one (confidence 0.7). *)
Definition mail_booking : GmailParser.email_content :=
  {| GmailParser.ec_subject := subject_a; GmailParser.ec_sender := u "a";
     GmailParser.ec_body := body_booking; GmailParser.ec_message_id := u "m1" |}.

Definition mail_weak : GmailParser.email_content :=
  {| GmailParser.ec_subject := subject_a; GmailParser.ec_sender := u "a";
     GmailParser.ec_body := body_weak; GmailParser.ec_message_id := u "m2" |}.

Definition inbox (message : str) : option GmailParser.email_content :=
  if str_eqb message (u "m1") then Some mail_booking
  else if str_eqb message (u "m2") then Some mail_weak
  else None.

Definition empty_state : App.state :=
  {| App.reservations_db := ∅; App.activity_logs := [];
     App.reservation_judgment_logs := [] |}.

Definition day : str := u "2025-11-02".

(** A booking of 10:00 for customer 田中, as the mail connector gives it. *)
Definition booking_tanaka (message_id : str) : App.gmail_reservation :=
  {| App.g_date := day; App.g_start := u "10:00"; App.g_end := u "11:00";
     App.g_source := u "fast_gmail_sync";
     App.g_customer_name := Some (u "田中");
     App.g_action_type := None;
     App.g_confidence := None;
     App.g_sender := None;
     App.g_email_subject := Some subject_a;
     App.g_message_id := Some message_id |}.

(** A booking of the same hour for another customer. *)
Definition booking_sato : App.gmail_reservation :=
  {| App.g_date := day; App.g_start := u "10:00"; App.g_end := u "11:00";
     App.g_source := u "fast_gmail_sync";
     App.g_customer_name := Some (u "佐藤");
     App.g_action_type := None;
     App.g_confidence := None;
     App.g_sender := None;
     App.g_email_subject := Some subject_a;
     App.g_message_id := Some (u "m7") |}.

Definition cancel_tanaka : App.gmail_reservation :=
  {| App.g_date := day; App.g_start := u "10:00"; App.g_end := u "11:00";
     App.g_source := u "fast_gmail_sync";
     App.g_customer_name := Some (u "田中");
     App.g_action_type := Some (u "cancellation");
     App.g_confidence := None;
     App.g_sender := None;
     App.g_email_subject := None;
     App.g_message_id := None |}.

Definition t1 : str := u "2025-11-01 09:00:00".
Definition t2 : str := u "2025-11-01 09:00:05".

(** The store after the booking of 田中. *)
Definition state_tanaka : App.state :=
  fst (App.gmail_apply t1 (booking_tanaka (u "m1")) empty_state).

(** A webhook booking, with and without the customer name. *)
Definition gas_booking (customer_name : option str) : App.gas_reservation :=
  {| App.w_date := Some day; App.w_start := Some (u "10:00");
     App.w_end := Some (u "11:00"); App.w_type := Some (u "gmail");
     App.w_customer_name := customer_name; App.w_is_cancellation := false |}.

(** A webhook cancellation of the slot of 10:00, with and without its end. *)
Definition gas_cancellation (end_time : option str) : App.gas_reservation :=
  {| App.w_date := Some day; App.w_start := Some (u "10:00");
     App.w_end := end_time; App.w_type := Some (u "gmail");
     App.w_customer_name := Some (u "田中"); App.w_is_cancellation := true |}.

(** A cancellation notice as the fast sync receives it. *)
Definition subject_cancel : str := u "HALLEL 予約キャンセルのお知らせ".

End Inputs.

(** * Further parts of the program *)

(** ** What a match of a pattern is *)

Module ReSpec.
Import Re.

(** [n] repetitions are allowed by the upper bound [hi]. *)
Definition within (hi : option nat) (n : nat) : Prop :=
  match hi with
  | Some h => (n <= h)%nat
  | None => True
  end.

(** [matches r t]: the text [t] is matched by [r]; the anchors match the
    empty text. *)
Fixpoint matches (r : re) (t : str) : Prop :=
  match r with
  | Eps | Bol | Eol => t = []
  | Chr c => t = [c]
  | Cls p => exists c, t = [c] /\ p c = true
  | Cat a b => exists t1 t2, t = t1 ++ t2 /\ matches a t1 /\ matches b t2
  | Alt a b => matches a t \/ matches b t
  | Grp _ a => matches a t
  | Rep _ lo hi a =>
      exists ts, t = concat ts /\ Forall (matches a) ts /\
                 (lo <= length ts)%nat /\ within hi (length ts)
  end.

(** The capturing groups of a pattern, with their patterns. *)
Fixpoint groups_of (r : re) : list (nat * re) :=
  match r with
  | Cat a b | Alt a b => groups_of a ++ groups_of b
  | Rep _ _ _ a => groups_of a
  | Grp i a => (i, a) :: groups_of a
  | _ => []
  end.

(** The groups that every match of the pattern goes through. *)
Fixpoint sure_groups (r : re) : list nat :=
  match r with
  | Cat a b => sure_groups a ++ sure_groups b
  | Grp i a => i :: sure_groups a
  | _ => []
  end.

(** Every capture of [new] is the text of a group of [r]. *)
Definition fresh (r : re) (new : caps) : Prop :=
  forall i x, In (i, x) new -> exists a, In (i, a) (groups_of r) /\ matches a x.

(** [new] has a capture for every group that [r] surely goes through. *)
Definition covers (r : re) (new : caps) : Prop :=
  forall i, In i (sure_groups r) -> exists x, In (i, x) new.

(** What a hit tells: the matched text and the groups. *)
Definition hit_of (r : re) (h : hit) : Prop :=
  (exists t, matches r t) /\
  fresh r (groups h) /\
  forall i, In i (sure_groups r) ->
    exists a, In (i, a) (groups_of r) /\ matches a (group h i).

End ReSpec.

(** ** The shape of the extracted fields *)

Module FieldSpec.

(** An ASCII digit. *)
Definition is_ascii_digit (c : N) : bool := (48 <=? c) && (c <=? 57).

(** [dddd-dd-dd] in ASCII digits *)
Definition is_date_text (s : str) : bool :=
  match s with
  | [y1; y2; y3; y4; h1; m1; m2; h2; d1; d2] =>
      forallb is_ascii_digit [y1; y2; y3; y4; m1; m2; d1; d2] && (h1 =? 45) && (h2 =? 45)
  | _ => false
  end.

(** [dd:dd] in ASCII digits *)
Definition is_time_text (s : str) : bool :=
  match s with
  | [h1; h2; c; m1; m2] => forallb is_ascii_digit [h1; h2; m1; m2] && (c =? 58)
  | _ => false
  end.

(** The minutes that a text [dd:dd] counts from 00:00. *)
Definition minutes_of (s : str) : Z :=
  match s with
  | [h1; h2; _; m1; m2] =>
      (Z.of_N (10 * (h1 - 48) + (h2 - 48)) * 60 + Z.of_N (10 * (m1 - 48) + (m2 - 48)))%Z
  | _ => 0%Z
  end.

Section WithTables.
Context `{Unicode}.

(** The digits of the table have the values 0 to 9. *)
Definition decimal_values : Prop :=
  forall c v, digit_value c = Some v -> v < 10.

(** The table knows the ASCII digit 0 and takes none of [+], [-], [:] for a
    digit. *)
Definition plain_signs : Prop :=
  digit_value 48 = Some 0 /\ digit_value 43 = None /\ digit_value 45 = None /\
  digit_value 58 = None.

(** A text of digits of the table. *)
Definition digits (s : str) : Prop := Forall (fun c => is_digit c = true) s.

End WithTables.
End FieldSpec.

(** ** gmail_parser.py: fetch_and_parse_reservations_legacy *)

Module GmailParserLegacy.
Import GmailParser.

Section WithTables.
Context `{Unicode}.

(** The loop over the messages: [get_email_content] is the mail service,
    [current_year] the year of the clock. *)
Fixpoint parse_messages (current_year : Z)
    (get_email_content : str -> option email_content) (messages : list str)
    : exc (list reservation) :=
  match messages with
  | [] => Return []
  | message :: rest =>
      do reservation_info <-
        parse_reservation_info current_year (get_email_content message);
      do reservations <- parse_messages current_year get_email_content rest;
      Return match reservation_info with
             | Some r => r :: reservations
             | None => reservations
             end
  end.

Definition fetch_and_parse_reservations_legacy (current_year : Z)
    (get_email_content : str -> option email_content) (messages : list str)
    : exc (list reservation) :=
  parse_messages current_year get_email_content (take 10 messages).

End WithTables.
End GmailParserLegacy.

(** ** The routes of app.py that write the store by hand *)

Module Routes.
Import App.

(** The value of a key of a JSON body that the routes read with [.get]:
    [None] when the key is missing.  A value is true in [all([...])] and in
    [not end_time] when it is there and is not the empty string. *)
Definition truthy (o : option str) : bool :=
  match o with
  | Some (_ :: _) => true
  | _ => false
  end.

(** The JSON body of [/api/process_email]. *)
Record email_data := {
  p_action_type : option str;
  p_date : option str;
  p_start_time : option str;
  p_end_time : option str
}.

(** The answers of [process_email], one for each [return] of the route, and
    the [KeyError] that leaves the route when the scan reads a key that a
    stored reservation does not have. *)
Inductive email_response :=
| Missing_data
| End_time_required
| Booking_added (date start_time end_time : str)
| Cancellation_done (date start_time : str)
| Reservation_not_found
| Unknown_action_type
| Key_error.

(** The status code of an answer; flask turns the exception into 500. *)
Definition status_code (r : email_response) : Z :=
  match r with
  | Booking_added _ _ _ | Cancellation_done _ _ => 200
  | Reservation_not_found => 404
  | Key_error => 500
  | _ => 400
  end.

(** The actions that the routes of this module hand to [log_activity]. *)
Inductive route_activity :=
| Gas_processed_booking (new_booking : slot)
| Gas_processed_cancellation (date start_time : str)
| Manual_reservation_added (customer_name date start_time end_time : str).

(** The scan of the cancellation branch of [process_email]:
    [for i, r in enumerate(l): if r['start'] == start_time and r['type'] ==
    'gmail': l.pop(i); break].  The keys are read with [r[...]], which raises
    when the key is missing; [r['type']] is read only when the start is the
    one looked for. *)
Inductive scan :=
| Popped (rest : list slot)
| Not_popped
| Raised.

Fixpoint pop_gmail (start_time : str) (l : list slot) : scan :=
  match l with
  | [] => Not_popped
  | r :: rest =>
      let next :=
        match pop_gmail start_time rest with
        | Popped rest' => Popped (r :: rest')
        | other => other
        end in
      match start r with
      | None => Raised
      | Some s =>
          if bool_decide (s = start_time) then
            match type_ r with
            | None => Raised
            | Some t => if bool_decide (t = u "gmail") then Popped rest else next
            end
          else next
      end
  end.

(** [process_email]: the store after the request, the answer, and the
    action given to [log_activity], if any. *)
Definition process_email (data : email_data) (db : gmap str (list slot))
    : gmap str (list slot) * email_response * option route_activity :=
  let action_type := p_action_type data in
  let date := p_date data in
  let start_time := p_start_time data in
  let end_time := p_end_time data in
  if negb (truthy action_type && truthy date && truthy start_time) then
    (db, Missing_data, None)
  else
    let action_type := get action_type [] in
    let date := get date [] in
    let start_time := get start_time [] in
    if bool_decide (action_type = u "booking") then
      if negb (truthy end_time) then (db, End_time_required, None)
      else
        let end_time := get end_time [] in
        let db := ensure_date date db in
        let new_booking :=
          {| type_ := Some (u "gmail");
             start := Some start_time;
             end_ := Some end_time;
             source := None;
             sender := None;
             email_subject := None;
             message_id := None;
             customer_name := None;
             confidence := None;
             status := None;
             group := None |} in
        (<[date := slots_on date db ++ [new_booking]]> db,
         Booking_added date start_time end_time,
         Some (Gas_processed_booking new_booking))
    else if bool_decide (action_type = u "cancellation") then
      match db !! date with
      | Some slots =>
          match pop_gmail start_time slots with
          | Popped rest =>
              (<[date := rest]> db, Cancellation_done date start_time,
               Some (Gas_processed_cancellation date start_time))
          | Not_popped => (db, Reservation_not_found, None)
          | Raised => (db, Key_error, None)
          end
      | None => (db, Unknown_action_type, None)
      end
    else (db, Unknown_action_type, None).

(** The text of a value in an f-string: [None] is written None. *)
Definition fmt (o : option str) : str := get o (u "None").

(** The body of [add_reservation] after the login check, for a JSON body
    [data] whose date is the string [date]; [data] is stored as it is, and
    is read here by the keys of a stored reservation.  The result is the
    store, the judgment log written at [timestamp], and the action given to
    [log_activity]. *)
Definition add_reservation (timestamp date : str) (data : slot)
    (db : gmap str (list slot)) (logs : list log_entry)
    : gmap str (list slot) * list log_entry * route_activity :=
  let start_time := start data in
  let end_time := end_ data in
  let customer_name := get (customer_name data) (u "手動入力") in
  let db := ensure_date date db in
  let db := <[date := slots_on date db ++ [data]]> db in
  let logs :=
    log_reservation_judgment timestamp (u "booking") date
      (fmt start_time ++ u "-" ++ fmt end_time) customer_name 1.0%float logs in
  (db, logs,
   Manual_reservation_added customer_name date (fmt start_time) (fmt end_time)).

(** The body of [delete_reservation_api] after the login check, for an
    integer [index]: the store and the removed reservation, which is what
    the route writes to the activity log, or [None] for the answer 400. *)
Definition delete_reservation_api (date : str) (index : Z)
    (db : gmap str (list slot)) : gmap str (list slot) * option slot :=
  match db !! date with
  | Some slots =>
      if ((0 <=? index) && (index <? Z.of_nat (length slots)))%Z then
        match slots !! Z.to_nat index with
        | Some removed => (<[date := delete (Z.to_nat index) slots]> db, Some removed)
        | None => (db, None)
        end
      else (db, None)
  | None => (db, None)
  end.

(** One request to the log routes of app.py, with its clock reading. *)
Inductive log_request :=
| Add_log (timestamp message : str)
| Judge (timestamp action_type date time_slot customer_name : str) (confidence : float)
| Clear_logs (timestamp : str)
| Export_logs (timestamp : str).

Definition serve (request : log_request) (logs : list log_entry) : list log_entry :=
  match request with
  | Add_log timestamp message => add_log timestamp message logs
  | Judge timestamp action_type date time_slot customer_name confidence =>
      log_reservation_judgment timestamp action_type date time_slot customer_name
        confidence logs
  | Clear_logs timestamp => fst (clear_logs timestamp logs)
  | Export_logs timestamp => fst (export_logs timestamp logs)
  end.

(** The log after a run of requests, served in order. *)
Definition serve_all (requests : list log_request) (logs : list log_entry)
    : list log_entry :=
  fold_left (fun logs request => serve request logs) requests logs.

End Routes.

Module RoutesSpec.
Import App Routes.

(** The number of reservations in the store, over all dates. *)
Definition stored (db : gmap str (list slot)) : nat :=
  sum_list_with (fun entry => length (snd entry)) (map_to_list db).

(** What a pass does to the number of stored reservations. *)
Definition balanced (db db' : gmap str (list slot)) (o : outcome) : Prop :=
  match o with
  | Added => stored db' = S (stored db)
  | Cancelled => S (stored db') = stored db
  | _ => stored db' = stored db
  end.

(** A stored reservation that has the keys which the scan of
    [process_email] reads. *)
Definition keyed (r : slot) : Prop := is_Some (start r) /\ is_Some (type_ r).

(** A stored gmail reservation with the given start. *)
Definition gmail_at (start_time : str) (r : slot) : Prop :=
  start r = Some start_time /\ type_ r = Some (u "gmail").

(** The change of the store that an answer of [process_email] reports. *)
Definition outcome_of (r : email_response) : outcome :=
  match r with
  | Booking_added _ _ _ => Added
  | Cancellation_done _ _ => Cancelled
  | _ => No_Action
  end.

(** The reservation that [process_email] stores for a booking. *)
Definition new_booking (start_time end_time : str) : slot :=
  {| type_ := Some (u "gmail"); start := Some start_time; end_ := Some end_time;
     source := None; sender := None; email_subject := None; message_id := None;
     customer_name := None; confidence := None; status := None; group := None |}.

(** The bodies of a booking and of a cancellation for [/api/process_email]. *)
Definition booking_request (date start_time end_time : str) : email_data :=
  {| p_action_type := Some (u "booking"); p_date := Some date;
     p_start_time := Some start_time; p_end_time := Some end_time |}.

Definition cancellation_request (date start_time : str) : email_data :=
  {| p_action_type := Some (u "cancellation"); p_date := Some date;
     p_start_time := Some start_time; p_end_time := None |}.

(** The number of exports of a run of requests since its last clear, when
    there were [n] before the run. *)
Definition tally (n : nat) (request : log_request) : nat :=
  match request with
  | Export_logs _ => S n
  | Clear_logs _ => 0
  | _ => n
  end.

Definition exports_since_clear (requests : list log_request) : nat :=
  fold_left tally requests 0%nat.

(** The judgment entry that one pass of [sync_gmail_reservations] writes. *)
Definition judgment_of (pass : str * gmail_reservation) : log_entry :=
  let '(timestamp, reservation) := pass in
  Judgment timestamp (get (g_action_type reservation) (u "booking"))
    (get (g_customer_name reservation) (u "N/A")) (g_date reservation)
    (g_start reservation ++ u "-" ++ g_end reservation)
    (get (g_confidence reservation) 1.0%float).

(** The last [n] elements of a list. *)
Definition last_n {A} (n : nat) (l : list A) : list A := drop (length l - n) l.

End RoutesSpec.

(** ** Inputs of the examples to the routes *)

Module RouteInputs.
Import Inputs.

(** The store after the booking of 田中. *)
Definition db_tanaka : gmap str (list App.slot) := App.reservations_db state_tanaka.

(** A mail with a date and one time, and a mail with neither. *)
Definition mail_dated : GmailParser.email_content := mail (u "2025/09/24 10:50").
Definition mail_undated : GmailParser.email_content := mail (u "本日はありがとうございました").

(** A log past its bound: the full log after an export. *)
Definition log_after_export : list App.log_entry :=
  fst (App.export_logs t1 AppSpec.full_log).

End RouteInputs.

(** * Properties *)

(** ** The classifier *)

Module ClassifierFacts.
Import Re Classifier ClassifierSpec.

Section Facts.
Context `{Unicode}.

Lemma add_keywords_iter w keywords body c :
  add_keywords w keywords body c =
  Nat.iter (matched keywords body) (fun c => (c + w)%float) c.
Proof.
  unfold add_keywords. revert c.
  induction keywords as [|keyword rest IH]; intros c; simpl; [reflexivity|].
  destruct (contains keyword body).
  - rewrite IH, Nat.iter_succ_r. reflexivity.
  - apply IH.
Qed.

Lemma matched_le keywords body : (matched keywords body <= length keywords)%nat.
Proof.
  induction keywords as [|keyword rest IH]; simpl; [lia|].
  destruct (contains keyword body); lia.
Qed.

Lemma matched_mono keywords body body' :
  (forall keyword, In keyword keywords ->
     contains keyword body = true -> contains keyword body' = true) ->
  (matched keywords body <= matched keywords body')%nat.
Proof.
  induction keywords as [|keyword rest IH]; intros Hsub; simpl; [lia|].
  assert (IH' : (matched rest body <= matched rest body')%nat).
  { apply IH. intros k Hk. apply Hsub. now right. }
  destruct (contains keyword body) eqn:E.
  - rewrite (Hsub keyword (or_introl eq_refl) E). lia.
  - destruct (contains keyword body'); lia.
Qed.

Lemma calculate_confidence_score a body :
  _calculate_confidence a body =
  score a (matched (keywords_of a) body) (has_date body) (has_time body)
    (has_brand body).
Proof.
  unfold _calculate_confidence, py_min, score, total, bump, has_date, has_time,
    has_brand.
  destruct a; simpl keywords_of; simpl weight; rewrite add_keywords_iter;
    reflexivity.
Qed.

Lemma keywords_five a : length (keywords_of a) = 5%nat.
Proof. destruct a; reflexivity. Qed.

End Facts.

Lemma score_range a k dt tm br :
  (k <= 5)%nat ->
  (0 <=? score a k dt tm br)%float = true /\
  (0.5 <=? score a k dt tm br)%float = true /\
  (score a k dt tm br <=? 1)%float = true.
Proof.
  intros Hk.
  destruct k as [|[|[|[|[|[|k]]]]]]; try lia;
    destruct a, dt, tm, br; repeat split; vm_compute; reflexivity.
Qed.

Lemma score_mono a k k' dt dt' tm tm' br br' :
  (k <= k')%nat -> (k' <= 5)%nat ->
  (dt = true -> dt' = true) -> (tm = true -> tm' = true) ->
  (br = true -> br' = true) ->
  (score a k dt tm br <=? score a k' dt' tm' br')%float = true.
Proof.
  intros Hk Hk' Hdt Htm Hbr.
  destruct dt, dt'; try (specialize (Hdt eq_refl); discriminate);
  destruct tm, tm'; try (specialize (Htm eq_refl); discriminate);
  destruct br, br'; try (specialize (Hbr eq_refl); discriminate);
  clear Hdt Htm Hbr;
  destruct k' as [|[|[|[|[|[|k']]]]]]; try lia;
  destruct k as [|[|[|[|[|[|k]]]]]]; try lia;
  destruct a; vm_compute; reflexivity.
Qed.

Section Claims.
Context `{Unicode}.

(** What a returned event says about the run of [classify_email]. *)
Lemma classify_email_Some subject body r :
  classify_email subject body = Some r ->
  _is_hallel_email subject body = true /\
  exists a di,
    _determine_action_type body = Some a /\
    _extract_date_time body = Some di /\
    r = {| action_type := a; date := di_date di; start_time := di_start_time di;
           end_time := di_end_time di;
           customer_name := _extract_customer_name body;
           studio := _extract_studio_info body;
           duration_minutes := di_duration di;
           confidence := _calculate_confidence a body;
           raw_text := body |}.
Proof.
  unfold classify_email.
  destruct (_is_hallel_email subject body); simpl; [|discriminate].
  destruct (_determine_action_type body) as [a|]; [|discriminate].
  destruct (_extract_date_time body) as [di|]; [|discriminate].
  intros [= <-]. split; [reflexivity|]. exists a, di. auto.
Qed.

Lemma classify_email_None_iff subject body :
  classify_email subject body = None <->
  _is_hallel_email subject body = false \/ _determine_action_type body = None \/
  _extract_date_time body = None.
Proof.
  unfold classify_email.
  destruct (_is_hallel_email subject body); simpl; [|tauto].
  destruct (_determine_action_type body) as [a|]; [|tauto].
  destruct (_extract_date_time body) as [di|]; [|tauto].
  split; [discriminate|]. intros [?|[?|?]]; discriminate.
Qed.

(** A successful extraction found both patterns and built non-empty texts. *)
Lemma extract_date_time_Some body di :
  _extract_date_time body = Some di ->
  has_date body = true /\ has_time body = true /\
  di_date di <> [] /\ di_start_time di <> [] /\ di_end_time di <> [].
Proof.
  unfold _extract_date_time, has_date, has_time.
  destruct (search date_pattern body) as [dm|]; [|discriminate].
  destruct (int (group dm 1)) as [year|]; [|discriminate].
  destruct (int (group dm 2)) as [month|]; [|discriminate].
  destruct (int (group dm 3)) as [day|]; [|discriminate].
  destruct (search time_pattern body) as [tm|]; [|discriminate].
  destruct (int (group tm 1)) as [sh|]; [|discriminate].
  destruct (int (group tm 2)) as [sm|]; [|discriminate].
  destruct (int (group tm 3)) as [eh|]; [|discriminate].
  destruct (int (group tm 4)) as [em|]; [|discriminate].
  intros [= <-]. simpl.
  change (u "-") with [45]. change (u ":") with [58].
  repeat split; intros E; apply app_eq_nil in E; destruct E as [_ E]; discriminate.
Qed.

Lemma extract_date_time_None body :
  search date_pattern body = None \/ search time_pattern body = None ->
  _extract_date_time body = None.
Proof.
  unfold _extract_date_time. intros [E|E].
  - now rewrite E.
  - destruct (search date_pattern body) as [dm|]; [|reflexivity].
    destruct (int (group dm 1)), (int (group dm 2)), (int (group dm 3));
      try reflexivity.
    now rewrite E.
Qed.

(** C3: when the brand and location filters pass and the body holds a
    cancellation keyword, the action is determined as a cancellation,
    whatever booking keywords the body also holds: every event returned has
    action [cancellation], and one is returned as soon as the date and time
    are extracted. *)
Theorem cancellation_keyword_first subject body :
  _is_hallel_email subject body = true ->
  existsb (fun keyword => contains keyword body) cancellation_keywords = true ->
  _determine_action_type body = Some cancellation /\
  (forall r, classify_email subject body = Some r -> action_type r = cancellation) /\
  (forall di, _extract_date_time body = Some di ->
     exists r, classify_email subject body = Some r /\ action_type r = cancellation).
Proof.
  intros Hh Hc.
  assert (Ha : _determine_action_type body = Some cancellation).
  { unfold _determine_action_type. now rewrite Hc. }
  split; [exact Ha|]. split.
  - intros r Hr. apply classify_email_Some in Hr.
    destruct Hr as (_ & a & di & Ha' & _ & ->). simpl. congruence.
  - intros di Hdi. unfold classify_email. rewrite Hh, Ha, Hdi. simpl.
    eexists. split; reflexivity.
Qed.

(** C4, as amended: [classify_email] returns nothing when the body holds the
    excluded location (半蔵門店, hanzomon); an event is returned only when the
    brand marker is in the subject or the body, the body holds the included
    location (渋谷店, shibuya) and not the excluded one; without the included
    location nothing is returned.  [FastGmailSync.parse_reservation] has its
    own filter: it returns a reservation only for a body that holds 渋谷,
    shibuya or hallel. *)
Theorem location_allow_list subject body :
  (excluded_location body = true -> classify_email subject body = None) /\
  (forall r, classify_email subject body = Some r ->
     existsb (fun indicator => contains (lower indicator)
                (lower (subject ++ u " " ++ body))) hallel_indicators = true /\
     included_location body = true /\ excluded_location body = false) /\
  (included_location body = false -> classify_email subject body = None) /\
  (forall r, FastSync.parse_reservation body subject = Some r ->
     contains (u "渋谷") body = true \/ contains (u "shibuya") (lower body) = true \/
     contains (u "hallel") (lower body) = true).
Proof.
  assert (Hf : _is_hallel_email subject body = true ->
     existsb (fun indicator => contains (lower indicator)
                (lower (subject ++ u " " ++ body))) hallel_indicators = true /\
     included_location body = true /\ excluded_location body = false).
  { unfold _is_hallel_email, included_location, excluded_location.
    destruct (existsb _ hallel_indicators); simpl; [|discriminate].
    destruct (contains (u "半蔵門店") body || contains (u "hanzomon") (lower body));
      [discriminate|].
    destruct (contains (u "渋谷店") body || contains (u "shibuya") (lower body));
      [auto|discriminate]. }
  split; [|split; [|split]].
  - intros He. apply classify_email_None_iff. left.
    destruct (_is_hallel_email subject body); [|reflexivity].
    destruct (Hf eq_refl) as (_ & _ & E). congruence.
  - intros r Hr. apply classify_email_Some in Hr. destruct Hr as [Hh _]. auto.
  - intros Hi. apply classify_email_None_iff. left.
    destruct (_is_hallel_email subject body); [|reflexivity].
    destruct (Hf eq_refl) as (_ & E & _). congruence.
  - intros r. unfold FastSync.parse_reservation.
    destruct body as [|c body']; [discriminate|].
    set (b := c :: body').
    destruct (contains (u "渋谷") b); [auto|].
    destruct (contains (u "shibuya") (lower b)); [auto|].
    destruct (contains (u "hallel") (lower b)); [auto|].
    discriminate.
Qed.

(** C5: the confidence of a classified event is 0.5, plus the weight of its
    action (0.1 for a booking, 0.15 for a cancellation) for every keyword of
    that action found in the body, plus 0.1 for the date pattern, 0.1 for
    the time pattern and 0.1 for the literal HALLEL (the sums are the
    binary64 additions of the source, in its order); it is this sum when
    the sum is not above 1.0, and 1.0 when it is.  It lies between 0.5 and
    1, and an event of the same action whose body shows at least the same
    signals has at least the same confidence. *)
Theorem confidence_of_event subject body r :
  classify_email subject body = Some r ->
  confidence r =
    score (action_type r) (matched (keywords_of (action_type r)) body)
      (has_date body) (has_time body) (has_brand body) /\
  has_date body = true /\ has_time body = true /\
  (0 <=? confidence r)%float = true /\ (0.5 <=? confidence r)%float = true /\
  (confidence r <=? 1)%float = true /\
  (forall subject' body' r',
     classify_email subject' body' = Some r' ->
     action_type r' = action_type r ->
     signals_within (action_type r) body body' ->
     (confidence r <=? confidence r')%float = true).
Proof.
  intros Hr. apply classify_email_Some in Hr.
  destruct Hr as (_ & a & di & _ & Hdi & ->). simpl.
  apply extract_date_time_Some in Hdi. destruct Hdi as (Hd & Ht & _).
  rewrite calculate_confidence_score.
  pose proof (matched_le (keywords_of a) body) as Hk.
  rewrite keywords_five in Hk.
  destruct (score_range a (matched (keywords_of a) body) (has_date body)
              (has_time body) (has_brand body) Hk) as (H0 & Hlo & Hhi).
  split; [reflexivity|]. do 5 (split; [assumption|]).
  intros subject' body' r' Hr' Ha [Hkw Hbr].
  apply classify_email_Some in Hr'.
  destruct Hr' as (_ & a' & di' & _ & Hdi' & ->). simpl in *. subst a'.
  apply extract_date_time_Some in Hdi'. destruct Hdi' as (Hd' & Ht' & _).
  rewrite calculate_confidence_score.
  apply score_mono; auto.
  - apply matched_mono, Hkw.
  - rewrite <- (keywords_five a). apply matched_le.
Qed.

(** C6: [classify_email] returns nothing when the date pattern or the time
    pattern is not found in the body (or the extraction fails otherwise), and
    every event it returns, a booking in particular, has a non-empty date,
    start time and end time. *)
Theorem no_partial_event subject body :
  (search date_pattern body = None \/ search time_pattern body = None \/
   _extract_date_time body = None ->
   classify_email subject body = None) /\
  (forall r, classify_email subject body = Some r ->
     date r <> [] /\ start_time r <> [] /\ end_time r <> []).
Proof.
  split.
  - intros Hx. apply classify_email_None_iff. right. right.
    destruct Hx as [Hx|[Hx|Hx]]; [apply extract_date_time_None; auto..|exact Hx].
  - intros r Hr. apply classify_email_Some in Hr.
    destruct Hr as (_ & a & di & _ & Hdi & ->). simpl.
    apply extract_date_time_Some in Hdi. tauto.
Qed.

End Claims.
End ClassifierFacts.

(** ** The mail parser *)

Module GmailParserFacts.
Import Re GmailParser GmailParserSpec.

Lemma score_gate a k dt tm br :
  (k <= 5)%nat ->
  (ClassifierSpec.score a k dt tm br <=? 0.7)%float = true ->
  (0.7 <? ClassifierSpec.score a k dt tm br)%float = false.
Proof.
  intros Hk.
  destruct k as [|[|[|[|[|[|k]]]]]]; try lia;
    destruct a, dt, tm, br; vm_compute; congruence.
Qed.

Section Facts.
Context `{Unicode}.

Lemma process_messages_spec get_email_content labeler messages :
  (forall rd, In rd (fst (process_messages get_email_content labeler messages)) <->
     exists message email r,
       In message messages /\ passes get_email_content message email r /\
       rd = event_of message email r) /\
  (forall lc, In lc (snd (process_messages get_email_content labeler messages)) <->
     labeler = true /\
     exists message email r,
       In message messages /\ passes get_email_content message email r /\
       lc = label_of message r).
Proof.
  induction messages as [|message rest [IHr IHl]].
  - simpl. split; intros x; split; try tauto.
    + intros (? & ? & ? & [] & _).
    + intros (_ & ? & ? & ? & [] & _).
  - simpl.
    destruct (process_messages get_email_content labeler rest) as [rs ls].
    simpl in IHr, IHl.
    assert (Hskip :
      (forall email r, ~ passes get_email_content message email r) ->
      (forall rd, In rd rs <->
         exists m email r, (message = m \/ In m rest) /\
           passes get_email_content m email r /\ rd = event_of m email r) /\
      (forall lc, In lc ls <-> labeler = true /\
         exists m email r, (message = m \/ In m rest) /\
           passes get_email_content m email r /\ lc = label_of m r)).
    { intros Hno. split; intros x.
      - rewrite IHr. split.
        + intros (m & e & r & Hin & Hp & ->). eauto 8.
        + intros (m & e & r & [<-|Hin] & Hp & ->); [destruct (Hno _ _ Hp)|eauto 8].
      - rewrite IHl. split.
        + intros (Hl & m & e & r & Hin & Hp & ->). eauto 9.
        + intros (Hl & m & e & r & [<-|Hin] & Hp & ->);
            [destruct (Hno _ _ Hp)|eauto 9]. }
    destruct (get_email_content message) as [email|] eqn:Eg.
    2:{ apply Hskip. intros e r (Hg & _). congruence. }
    destruct (Classifier.classify_email (ec_subject email) (ec_body email))
      as [r|] eqn:Ec.
    2:{ apply Hskip. intros e r (Hg & Hc & _). congruence. }
    destruct (0.7 <? Classifier.confidence r)%float eqn:Ef.
    2:{ apply Hskip. intros e r' (Hg & Hc & Hf). congruence. }
    assert (Hp : passes get_email_content message email r) by (split; auto).
    simpl. split; intros x.
    + rewrite IHr. split.
      * intros [<-|(m & e & r' & Hin & Hp' & ->)]; eauto 9.
      * intros (m & e & r' & [<-|Hin] & Hp' & ->).
        -- left. destruct Hp' as (Hg & Hc & _).
           assert (e = email) as -> by congruence.
           assert (r' = r) as -> by congruence. reflexivity.
        -- right. eauto 8.
    + destruct labeler.
      * simpl. rewrite IHl. split.
        -- intros [<-|(_ & m & e & r' & Hin & Hp' & ->)]; split; eauto 9.
        -- intros (_ & m & e & r' & [<-|Hin] & Hp' & ->).
           ++ left. destruct Hp' as (Hg & Hc & _).
              assert (e = email) as -> by congruence.
              assert (r' = r) as -> by congruence. reflexivity.
           ++ right. split; eauto 8.
      * rewrite IHl. split; intros (Hl & _); discriminate.
Qed.

(** A confidence that [classify_email] computed is greater than 0.7 or at
    most 0.7, never both. *)
Lemma classified_gate subject body r :
  Classifier.classify_email subject body = Some r ->
  (Classifier.confidence r <=? 0.7)%float = true ->
  (0.7 <? Classifier.confidence r)%float = false.
Proof.
  intros Hr. apply ClassifierFacts.classify_email_Some in Hr.
  destruct Hr as (_ & a & di & _ & _ & ->). simpl.
  rewrite ClassifierFacts.calculate_confidence_score.
  apply score_gate.
  rewrite <- (ClassifierFacts.keywords_five a). apply ClassifierFacts.matched_le.
Qed.

(** C10: [fetch_and_parse_reservations] puts an event in its result, and
    calls the labeler for it, exactly when the message is among the first 20,
    its content is read, it is classified and the confidence is greater than
    0.7.  A classified message whose confidence is at most 0.7 gives no
    event and no label. *)
Theorem confidence_gate get_email_content labeler messages :
  let result := fetch_and_parse_reservations get_email_content labeler messages in
  (forall rd, In rd (fst result) ->
     (0.7 <? rd_confidence rd)%float = true /\
     exists message email r,
       In message (take 20 messages) /\ passes get_email_content message email r /\
       rd = event_of message email r) /\
  (forall lc, In lc (snd result) ->
     exists rd, In rd (fst result) /\ lc_message_id lc = rd_message_id rd) /\
  (forall message email r,
     In message (take 20 messages) -> passes get_email_content message email r ->
     In (event_of message email r) (fst result) /\
     (labeler = true -> In (label_of message r) (snd result))) /\
  (forall message email r,
     get_email_content message = Some email ->
     Classifier.classify_email (ec_subject email) (ec_body email) = Some r ->
     (Classifier.confidence r <=? 0.7)%float = true ->
     (forall rd, In rd (fst result) -> rd_message_id rd <> message) /\
     (forall lc, In lc (snd result) -> lc_message_id lc <> message)).
Proof.
  unfold fetch_and_parse_reservations. simpl.
  destruct (process_messages_spec get_email_content labeler (take 20 messages))
    as [Hr Hl].
  split; [|split; [|split]].
  - intros rd Hin. apply Hr in Hin. destruct Hin as (m & e & r & Hin & Hp & ->).
    split; [apply Hp|eauto 8].
  - intros lc Hin. apply Hl in Hin. destruct Hin as (_ & m & e & r & Hin & Hp & ->).
    exists (event_of m e r). split; [|reflexivity]. apply Hr. eauto 8.
  - intros m e r Hin Hp. split.
    + apply Hr. eauto 8.
    + intros ->. apply Hl. split; eauto 8.
  - intros m e r Hg Hc Hle.
    pose proof (classified_gate _ _ _ Hc Hle) as Hno.
    split.
    + intros rd Hin <-. apply Hr in Hin.
      destruct Hin as (m' & e' & r' & _ & (Hg' & Hc' & Hf') & ->). simpl in *.
      congruence.
    + intros lc Hin <-. apply Hl in Hin.
      destruct Hin as (_ & m' & e' & r' & _ & (Hg' & Hc' & Hf') & ->). simpl in *.
      congruence.
Qed.

Lemma split_no_sep sep s : ~ In sep s -> split sep s = [s].
Proof.
  induction s as [|c s IH]; intros Hn; simpl; [reflexivity|].
  destruct (N.eqb_spec c sep) as [->|Hc].
  - destruct Hn. now left.
  - rewrite IH; [reflexivity|]. intros Hin. apply Hn. now right.
Qed.

Lemma split_two sep a b :
  ~ In sep a -> ~ In sep b -> split sep (a ++ [sep] ++ b) = [a; b].
Proof.
  intros Ha Hb. induction a as [|c a IH]; simpl.
  - rewrite N.eqb_refl, split_no_sep; auto.
  - destruct (N.eqb_spec c sep) as [->|Hc].
    + destruct Ha. now left.
    + simpl in IH. rewrite IH; [reflexivity|]. intros Hin. apply Ha. now right.
Qed.

Lemma int_nonneg s n : int s = Some n -> (0 <= n)%Z.
Proof.
  unfold int. destruct s; [discriminate|].
  destruct (int_digits 0 _); simpl; intros [= <-]. lia.
Qed.

(** C7, as amended: with a date and a single time hh:mm in the mail, the end
    is set 90 minutes after the start, the minutes carried into the hour:
    the hour grows by 1, or by 2 when the minutes pass 60, and is not
    wrapped at 24. *)
Theorem single_time_end current_year email d hh mm h m :
  find_date current_year date_patterns (ec_body email) = Some d ->
  find_times time_patterns (ec_body email) = [hh ++ u ":" ++ mm] ->
  ~ In (ch ":") hh -> ~ In (ch ":") mm ->
  int hh = Some h -> int mm = Some m ->
  exists r eh em,
    parse_reservation_info current_year (Some email) = Return (Some r) /\
    date r = d /\ start r = hh ++ u ":" ++ mm /\
    end_ r = format_0d 2 eh ++ u ":" ++ format_0d 2 em /\
    (60 * eh + em = 60 * h + m + 90)%Z /\
    (eh = h + 1 \/ eh = h + 2)%Z /\
    ((m < 60)%Z -> (0 <= em < 60)%Z).
Proof.
  intros Hd Ht Hh Hm Hih Him.
  pose proof (int_nonneg _ _ Him) as Hm0.
  assert (He : exists eh em,
    assumed_end_time (hh ++ u ":" ++ mm) =
      Return (format_0d 2 eh ++ u ":" ++ format_0d 2 em) /\
    (60 * eh + em = 60 * h + m + 90)%Z /\ (eh = h + 1 \/ eh = h + 2)%Z /\
    ((m < 60)%Z -> (0 <= em < 60)%Z)).
  { unfold assumed_end_time. change (u ":") with [ch ":"].
    rewrite (split_two (ch ":") hh mm Hh Hm). simpl index. simpl bind.
    unfold int_exc. rewrite Hih, Him. simpl bind.
    destruct (60 <=? m + 30)%Z eqn:E.
    - exists (h + 1 + 1)%Z, (m + 30 - 60)%Z. split; [reflexivity|]. lia.
    - exists (h + 1)%Z, (m + 30)%Z. split; [reflexivity|]. lia. }
  destruct He as (eh & em & He & Hsum & Hhour & Hmin).
  unfold parse_reservation_info. rewrite Hd, Ht, He. simpl bind.
  eexists _, eh, em. split; [reflexivity|]. simpl. auto 6.
Qed.

End Facts.
End GmailParserFacts.

(** ** The merge loops and the logs *)

Module AppFacts.
Import App AppSpec.

Lemma lookup_ensure_date date db :
  ensure_date date db !! date = Some (slots_on date db).
Proof.
  unfold ensure_date, slots_on.
  destruct (db !! date) as [l|] eqn:E; simpl.
  - exact E.
  - apply lookup_insert_eq.
Qed.

Lemma lookup_ensure_date_ne date d db :
  d <> date -> ensure_date date db !! d = db !! d.
Proof.
  intros Hd. unfold ensure_date.
  destruct (db !! date); [reflexivity|]. now apply lookup_insert_ne.
Qed.

Lemma slots_on_ensure_date date d db :
  slots_on d (ensure_date date db) = slots_on d db.
Proof.
  destruct (decide (d = date)) as [->|Hd].
  - unfold slots_on at 1. now rewrite lookup_ensure_date.
  - unfold slots_on. now rewrite lookup_ensure_date_ne.
Qed.

Lemma ensure_date_present date db :
  is_Some (db !! date) -> ensure_date date db = db.
Proof. intros [l E]. unfold ensure_date. now rewrite E. Qed.

Lemma ensure_date_absent date db :
  db !! date = None -> ensure_date date db = <[date := []]> db.
Proof. intros E. unfold ensure_date. now rewrite E. Qed.

Lemma slots_on_insert date l db : slots_on date (<[date := l]> db) = l.
Proof. unfold slots_on. now rewrite lookup_insert_eq. Qed.

Lemma is_Some_eq (v : str) : is_ (Some v) v = true.
Proof. unfold is_. now apply bool_decide_eq_true. Qed.

(** The loop with [pop] removes the first match and nothing else. *)
Lemma pop_first_Some p l l' :
  pop_first p l = Some l' <->
  exists before existing after,
    l = before ++ existing :: after /\ existsb p before = false /\
    p existing = true /\ l' = before ++ after.
Proof.
  revert l'. induction l as [|x l IH]; intros l'; simpl.
  - split; [discriminate|]. intros (b & e & a & E & _). now destruct b.
  - destruct (p x) eqn:Ex.
    + split.
      * intros [= <-]. exists [], x, l. auto.
      * intros (b & e & a & E & Hb & He & ->).
        destruct b as [|y b]; simpl in *.
        -- now injection E as -> ->.
        -- injection E as -> ->. rewrite Ex in Hb. discriminate.
    + destruct (pop_first p l) as [r|] eqn:Er.
      * split.
        -- intros [= <-]. destruct (proj1 (IH r) eq_refl) as (b & e & a & -> & Hb & He & ->).
           exists (x :: b), e, a. simpl. rewrite Ex. auto.
        -- intros (b & e & a & E & Hb & He & ->).
           destruct b as [|y b]; simpl in *.
           ++ injection E as -> ->. congruence.
           ++ injection E as -> ->. rewrite Ex in Hb. simpl in Hb.
              f_equal. f_equal. symmetry.
              assert (Hr : Some r = Some (b ++ a)); [|now injection Hr].
              apply IH. exists b, e, a. auto.
      * split; [discriminate|].
        intros (b & e & a & E & Hb & He & ->).
        destruct b as [|y b]; simpl in *.
        -- injection E as -> ->. congruence.
        -- injection E as -> ->. rewrite Ex in Hb. simpl in Hb.
           assert (Hr : None = Some (b ++ a)); [|discriminate].
           apply IH. exists b, e, a. auto.
Qed.

Lemma pop_first_None p l : pop_first p l = None <-> existsb p l = false.
Proof.
  induction l as [|x l IH]; simpl; [tauto|].
  destruct (p x); simpl.
  - split; discriminate.
  - destruct (pop_first p l); rewrite <- IH; split; congruence.
Qed.

(** *** The keys of the merge rules *)

Lemma is_true (o : option str) (v : str) : is_ o v = true <-> o = Some v.
Proof. unfold is_. apply bool_decide_eq_true. Qed.

Lemma is_false (o : option str) (v : str) : is_ o v = false <-> o <> Some v.
Proof. unfold is_. apply bool_decide_eq_false. Qed.

Lemma gmail_match_key start_time customer x :
  gmail_match start_time customer x = true <-> gmail_key start_time customer x.
Proof.
  unfold gmail_match, gmail_key. rewrite andb_true_iff, !is_true. reflexivity.
Qed.

Lemma existsb_Exists {A} (p : A -> bool) (P : A -> Prop) l :
  (forall x, p x = true <-> P x) ->
  (existsb p l = true <-> Exists P l) /\
  (existsb p l = false <-> Forall (fun x => ~ P x) l).
Proof.
  intros Hp. induction l as [|x l [IHt IHf]]; simpl.
  - split; split; try discriminate; try constructor. intros He. inversion He.
  - rewrite Exists_cons, Forall_cons, orb_true_iff, orb_false_iff, IHt, IHf, Hp.
    split; [reflexivity|].
    rewrite <- Hp. destruct (p x); split; intros [? ?]; split; congruence.
Qed.

Lemma Exists_or_Forall {A} (P : A -> Prop) l :
  (forall x, P x \/ ~ P x) -> Exists P l \/ Forall (fun x => ~ P x) l.
Proof.
  intros Hp. induction l as [|x l [IH|IH]].
  - right. constructor.
  - left. now constructor 2.
  - destruct (Hp x) as [Hx|Hx]; [left; now constructor|right; now constructor].
Qed.

Lemma gas_key_cases start_time end_time customer x :
  gas_key start_time end_time customer x \/ ~ gas_key start_time end_time customer x.
Proof.
  unfold gas_key.
  destruct (decide (start x = Some start_time)), (decide (end_ x = Some end_time)),
    (decide (customer_name x = customer)); tauto.
Qed.

Lemma gmail_known_key r db :
  (gmail_known r db = true <->
   Exists (gmail_key (g_start r) (name_of r)) (slots_on (g_date r) db)) /\
  (gmail_known r db = false <->
   Forall (fun x => ~ gmail_key (g_start r) (name_of r) x) (slots_on (g_date r) db)).
Proof. apply existsb_Exists. intros x. apply gmail_match_key. Qed.

Lemma gas_duplicate_scan_key r start_time end_time l :
  w_start r = Some start_time -> w_end r = Some end_time ->
  (Exists (gas_key start_time end_time (w_customer_name r)) l ->
   gas_duplicate_scan r l = Is_duplicate) /\
  (Forall (fun x => ~ gas_key start_time end_time (w_customer_name r) x) l ->
   gas_duplicate_scan r l = Is_new).
Proof.
  intros Hs He. induction l as [|x l [IHt IHf]]; simpl.
  - split; [intros Hx; inversion Hx|reflexivity].
  - rewrite Hs, He.
    destruct (is_ (start x) start_time) eqn:E1;
      [destruct (is_ (end_ x) end_time) eqn:E2;
       [destruct (bool_decide (customer_name x = w_customer_name r)) eqn:E3|]|];
      simpl.
    + split; [reflexivity|]. intros Hall. apply Forall_cons in Hall.
      destruct Hall as [Hx _]. destruct Hx. unfold gas_key.
      apply is_true in E1, E2. apply bool_decide_eq_true in E3. auto.
    + apply bool_decide_eq_false in E3. split.
      * intros Hx. apply Exists_cons in Hx. destruct Hx as [(_ & _ & Hx)|Hx]; [|auto].
        congruence.
      * intros Hall. apply Forall_cons in Hall. destruct Hall as [_ Hall]. auto.
    + apply is_false in E2. split.
      * intros Hx. apply Exists_cons in Hx. destruct Hx as [(_ & Hx & _)|Hx]; [|auto].
        congruence.
      * intros Hall. apply Forall_cons in Hall. destruct Hall as [_ Hall]. auto.
    + apply is_false in E1. split.
      * intros Hx. apply Exists_cons in Hx. destruct Hx as [(Hx & _)|Hx]; [|auto].
        congruence.
      * intros Hall. apply Forall_cons in Hall. destruct Hall as [_ Hall]. auto.
Qed.

Lemma gas_cancel_scan_key r start_time type l :
  w_start r = Some start_time -> w_type r = Some type ->
  (forall before existing after,
     l = before ++ existing :: after ->
     Forall (fun x => ~ cancel_key start_time type x) before ->
     cancel_key start_time type existing ->
     gas_cancel_scan r l = Found (before ++ after)) /\
  (Forall (fun x => ~ cancel_key start_time type x) l ->
   gas_cancel_scan r l = Not_found).
Proof.
  intros Hs Ht. induction l as [|x l [IHt IHf]]; simpl.
  - split; [|reflexivity]. intros before existing after E. now destruct before.
  - rewrite Hs, Ht.
    assert (Hnext : ~ cancel_key start_time type x ->
      (forall before existing after,
         x :: l = before ++ existing :: after ->
         Forall (fun x => ~ cancel_key start_time type x) before ->
         cancel_key start_time type existing ->
         match gas_cancel_scan r l with
         | Found rest' => Found (x :: rest')
         | other => other
         end = Found (before ++ after)) /\
      (Forall (fun x => ~ cancel_key start_time type x) (x :: l) ->
       match gas_cancel_scan r l with
       | Found rest' => Found (x :: rest')
       | other => other
       end = Not_found)).
    { intros Hx. split.
      - intros before existing after E Hb Hk.
        destruct before as [|y before]; simpl in E; injection E as -> E.
        + contradiction.
        + apply Forall_cons in Hb. destruct Hb as [_ Hb].
          rewrite (IHt before existing after E Hb Hk). reflexivity.
      - intros Hall. apply Forall_cons in Hall. destruct Hall as [_ Hall].
        now rewrite (IHf Hall). }
    destruct (is_ (start x) start_time) eqn:E1;
      [destruct (is_ (type_ x) type) eqn:E2|].
    + apply is_true in E1, E2. split.
      * intros before existing after E Hb Hk.
        destruct before as [|y before]; simpl in E; injection E as -> E.
        -- now subst l.
        -- apply Forall_cons in Hb. destruct Hb as [Hy _]. destruct Hy. split; auto.
      * intros Hall. apply Forall_cons in Hall. destruct Hall as [Hx _].
        destruct Hx. split; auto.
    + apply is_false in E2. apply Hnext. intros [_ Hx]. contradiction.
    + apply is_false in E1. apply Hnext. intros [Hx _]. contradiction.
Qed.

Lemma same_start_count start_time l : same_start start_time l = count_at start_time l.
Proof.
  unfold same_start. induction l as [|x l IH]; simpl; [reflexivity|].
  rewrite filter_cons. destruct (start x) as [s|] eqn:E.
  - destruct (decide (Some s = Some start_time)) as [Heq|Hne].
    + injection Heq as ->. rewrite bool_decide_eq_true_2 by reflexivity.
      simpl. now rewrite IH.
    + rewrite bool_decide_eq_false_2 by congruence. exact IH.
  - destruct (decide (None = Some start_time)); [discriminate|exact IH].
Qed.

(** *** Bookings *)

Lemma gmail_apply_booking timestamp r st :
  action_of r = u "booking" ->
  (gmail_known r (reservations_db st) = false ->
   snd (gmail_apply timestamp r st) = Added /\
   reservations_db (fst (gmail_apply timestamp r st)) =
     <[g_date r := slots_on (g_date r) (reservations_db st) ++ [gmail_entry r]]>
       (ensure_date (g_date r) (reservations_db st))) /\
  (gmail_known r (reservations_db st) = true ->
   snd (gmail_apply timestamp r st) = Skipped_Duplicate /\
   reservations_db (fst (gmail_apply timestamp r st)) =
     ensure_date (g_date r) (reservations_db st)).
Proof.
  intros Ha. unfold gmail_apply, gmail_known, name_of, action_of in *.
  rewrite Ha. change (str_eqb (u "booking") (u "cancellation")) with false.
  change (str_eqb (u "booking") (u "booking")) with true. cbv iota.
  rewrite slots_on_ensure_date.
  split; intros ->; simpl; auto.
Qed.

Lemma existsb_snoc {A} (p : A -> bool) l x :
  p x = true -> existsb p (l ++ [x]) = true.
Proof. intros Hx. rewrite existsb_app. simpl. rewrite Hx. apply orb_true_iff. right. reflexivity. Qed.

(** After a booking pass of the Gmail loop the store holds a slot with the
    start and the customer name of the reservation. *)
Lemma gmail_known_after timestamp r st :
  action_of r = u "booking" ->
  gmail_known r (reservations_db (fst (gmail_apply timestamp r st))) = true /\
  is_Some (reservations_db (fst (gmail_apply timestamp r st)) !! g_date r).
Proof.
  intros Ha. destruct (gmail_apply_booking timestamp r st Ha) as [Hnew Hdup].
  destruct (gmail_known r (reservations_db st)) eqn:E.
  - destruct (Hdup eq_refl) as [_ ->]. split.
    + unfold gmail_known in *. now rewrite slots_on_ensure_date.
    + rewrite lookup_ensure_date. eauto.
  - destruct (Hnew eq_refl) as [_ ->]. split.
    + unfold gmail_known. rewrite slots_on_insert. apply existsb_snoc.
      unfold gmail_match, gmail_entry. simpl. now rewrite !is_Some_eq.
    + rewrite lookup_insert_eq. eauto.
Qed.

(** A booking pass of the webhook loop for a reservation with its date, its
    start and its end. *)
Lemma gas_apply_booking timestamp r date start_time end_time st :
  w_is_cancellation r = false -> gas_fields r date start_time end_time ->
  let slots := slots_on date (reservations_db st) in
  let result := gas_apply timestamp r st in
  (Forall (fun x => ~ gas_key start_time end_time (w_customer_name r) x) slots ->
   snd result = Done Added /\
   reservations_db (fst result) =
     <[date := slots ++ [gas_entry r]]> (ensure_date date (reservations_db st))) /\
  (Exists (gas_key start_time end_time (w_customer_name r)) slots ->
   snd result = Done Skipped_Duplicate /\
   reservations_db (fst result) = ensure_date date (reservations_db st)).
Proof.
  intros Hc (Hd & Hs & He). cbv zeta. unfold gas_apply. rewrite Hd, Hc.
  rewrite slots_on_ensure_date.
  destruct (gas_duplicate_scan_key r start_time end_time
              (slots_on date (reservations_db st)) Hs He) as [Hdup Hnew].
  split.
  - intros Hall. rewrite (Hnew Hall), Hs, He. simpl. split; [reflexivity|].
    unfold gas_entry. now rewrite Hs, He.
  - intros Hex. rewrite (Hdup Hex). simpl. auto.
Qed.

(** C1: a booking applied twice.  In [sync_gmail_reservations] the second
    pass, with the same reservation or with one that differs outside the
    key (start, customer name) only, the message id included, is skipped as
    a duplicate and leaves the store as it is; the first pass appends one
    slot when the date has no slot with this start and this customer name,
    and is skipped itself when it has one.  The same holds in [gas_webhook]
    with the key (start, end, customer name) for a booking that carries a
    customer name.  A webhook booking without a customer name is stored
    under the name N/A but compared by its missing name: on a date that has
    no slot with this start, this end and no name, both passes append, and
    the date holds two slots for the one booking. *)
Theorem booking_twice :
  (forall t1 t2 r r' st,
     action_of r = u "booking" -> action_of r' = u "booking" ->
     same_gmail_key r r' ->
     let slots := slots_on (g_date r) (reservations_db st) in
     let first := gmail_apply t1 r st in
     let second := gmail_apply t2 r' (fst first) in
     snd second = Skipped_Duplicate /\
     reservations_db (fst second) = reservations_db (fst first) /\
     (Forall (fun x => ~ gmail_key (g_start r) (name_of r) x) slots ->
      snd first = Added /\
      slots_on (g_date r) (reservations_db (fst first)) = slots ++ [gmail_entry r] /\
      same_elsewhere (g_date r) (reservations_db st) (reservations_db (fst first))) /\
     (Exists (gmail_key (g_start r) (name_of r)) slots ->
      snd first = Skipped_Duplicate /\
      forall d, slots_on d (reservations_db (fst first)) =
                slots_on d (reservations_db st))) /\
  (forall t1 t2 r r' date start_time end_time name st,
     w_is_cancellation r = false -> w_is_cancellation r' = false ->
     gas_fields r date start_time end_time ->
     w_customer_name r = Some name -> same_gas_key r r' ->
     let slots := slots_on date (reservations_db st) in
     let first := gas_apply t1 r st in
     let second := gas_apply t2 r' (fst first) in
     snd second = Done Skipped_Duplicate /\
     reservations_db (fst second) = reservations_db (fst first) /\
     (Forall (fun x => ~ gas_key start_time end_time (Some name) x) slots ->
      snd first = Done Added /\
      slots_on date (reservations_db (fst first)) = slots ++ [gas_entry r] /\
      same_elsewhere date (reservations_db st) (reservations_db (fst first))) /\
     (Exists (gas_key start_time end_time (Some name)) slots ->
      snd first = Done Skipped_Duplicate /\
      forall d, slots_on d (reservations_db (fst first)) =
                slots_on d (reservations_db st))) /\
  (forall t1 t2 r date start_time end_time st,
     w_is_cancellation r = false ->
     gas_fields r date start_time end_time ->
     w_customer_name r = None ->
     let slots := slots_on date (reservations_db st) in
     let first := gas_apply t1 r st in
     let second := gas_apply t2 r (fst first) in
     Forall (fun x => ~ gas_key start_time end_time None x) slots ->
     snd first = Done Added /\ snd second = Done Added /\
     slots_on date (reservations_db (fst second)) =
       slots ++ [gas_entry r; gas_entry r] /\
     customer_name (gas_entry r) = Some (u "N/A")).
Proof.
  split; [|split].
  - intros t1 t2 r r' st Ha Ha' (Hd & Hs & Hn) slots first second.
    destruct (gmail_known_after t1 r st Ha) as [Hk Hp]. fold first in Hk, Hp.
    assert (Hk' : gmail_known r' (reservations_db (fst first)) = true).
    { unfold gmail_known in *. now rewrite Hd, Hs, Hn. }
    destruct (proj2 (gmail_apply_booking t2 r' (fst first) Ha') Hk') as [Ho Hdb].
    fold second in Ho, Hdb. split; [exact Ho|]. split; [|split].
    + rewrite Hdb, Hd. now apply ensure_date_present.
    + intros Hnew. apply (proj2 (gmail_known_key r (reservations_db st))) in Hnew.
      destruct (proj1 (gmail_apply_booking t1 r st Ha) Hnew) as [Ho1 Hdb1].
      fold first in Ho1, Hdb1. split; [exact Ho1|]. rewrite Hdb1. split.
      * apply slots_on_insert.
      * intros d Hne. rewrite lookup_insert_ne by congruence.
        now apply lookup_ensure_date_ne.
    + intros Hold. apply (proj1 (gmail_known_key r (reservations_db st))) in Hold.
      destruct (proj2 (gmail_apply_booking t1 r st Ha) Hold) as [Ho1 Hdb1].
      fold first in Ho1, Hdb1. split; [exact Ho1|]. rewrite Hdb1.
      intros d. apply slots_on_ensure_date.
  - intros t1 t2 r r' date s e name st Hc Hc' Hf Hname (Hd & Hs & He & Hn)
      slots first second.
    assert (Hf' : gas_fields r' date s e).
    { destruct Hf as (F1 & F2 & F3). unfold gas_fields. now rewrite Hd, Hs, He. }
    destruct (gas_apply_booking t1 r date s e st Hc Hf) as [Hnew Hdup].
    cbv zeta in Hnew, Hdup. fold first slots in Hnew, Hdup. rewrite Hname in Hnew, Hdup.
    assert (Hafter : Exists (gas_key s e (w_customer_name r'))
                       (slots_on date (reservations_db (fst first))) /\
                     is_Some (reservations_db (fst first) !! date)).
    { rewrite Hn, Hname.
      destruct (Exists_or_Forall (gas_key s e (Some name)) slots
                  (gas_key_cases s e (Some name))) as [Hex|Hall].
      - destruct (Hdup Hex) as [_ ->]. rewrite slots_on_ensure_date.
        split; [exact Hex|]. rewrite lookup_ensure_date. eauto.
      - destruct (Hnew Hall) as [_ ->]. rewrite slots_on_insert.
        split; [|rewrite lookup_insert_eq; eauto].
        apply Exists_app. right. constructor.
        destruct Hf as (_ & F2 & F3). unfold gas_key, gas_entry. simpl.
        now rewrite F2, F3, Hname. }
    destruct Hafter as [Hex' Hpresent].
    destruct (gas_apply_booking t2 r' date s e (fst first) Hc' Hf') as [_ Hdup'].
    cbv zeta in Hdup'. fold second in Hdup'.
    destruct (Hdup' Hex') as [Ho Hdb].
    split; [exact Ho|]. split; [|split].
    + rewrite Hdb. now apply ensure_date_present.
    + intros Hall. destruct (Hnew Hall) as [Ho1 Hdb1]. split; [exact Ho1|].
      rewrite Hdb1. split.
      * apply slots_on_insert.
      * intros d Hne. rewrite lookup_insert_ne by congruence.
        now apply lookup_ensure_date_ne.
    + intros Hex. destruct (Hdup Hex) as [Ho1 Hdb1]. split; [exact Ho1|].
      rewrite Hdb1. intros d. apply slots_on_ensure_date.
  - intros t1 t2 r date s e st Hc Hf Hname slots first second Hall.
    destruct (gas_apply_booking t1 r date s e st Hc Hf) as [Hnew _].
    cbv zeta in Hnew. fold first slots in Hnew. rewrite Hname in Hnew.
    destruct (Hnew Hall) as [Ho1 Hdb1].
    destruct (gas_apply_booking t2 r date s e (fst first) Hc Hf) as [Hnew' _].
    cbv zeta in Hnew'. fold second in Hnew'. rewrite Hname in Hnew'.
    assert (Hl : slots_on date (reservations_db (fst first)) = slots ++ [gas_entry r])
      by (rewrite Hdb1; apply slots_on_insert).
    rewrite Hl in Hnew'.
    destruct Hnew' as [Ho2 Hdb2].
    { apply Forall_app. split; [exact Hall|]. constructor; [|constructor].
      unfold gas_key, gas_entry. simpl. intros (_ & _ & Hx). discriminate. }
    split; [exact Ho1|]. split; [exact Ho2|]. split.
    + rewrite Hdb2, slots_on_insert, <- app_assoc. reflexivity.
    + unfold gas_entry. simpl. now rewrite Hname.
Qed.

(** *** Cancellations *)

Lemma gmail_apply_cancellation timestamp r st :
  action_of r = u "cancellation" ->
  gmail_apply timestamp r st =
    let db := ensure_date (g_date r) (reservations_db st) in
    let logs :=
      log_reservation_judgment timestamp (u "cancellation") (g_date r)
        (g_start r ++ u "-" ++ g_end r) (name_of r) (get (g_confidence r) 1.0%float)
        (reservation_judgment_logs st) in
    match pop_first (gmail_match (g_start r) (name_of r))
            (slots_on (g_date r) (reservations_db st)) with
    | Some rest =>
        ({| reservations_db := <[g_date r := rest]> db;
            activity_logs := activity_logs st;
            reservation_judgment_logs := logs |}, Cancelled)
    | None =>
        ({| reservations_db := db; activity_logs := activity_logs st;
            reservation_judgment_logs := logs |}, Cancel_Not_Found)
    end.
Proof.
  intros Ha. unfold gmail_apply, name_of, action_of in *. rewrite Ha.
  change (str_eqb (u "cancellation") (u "cancellation")) with true. cbv iota.
  rewrite slots_on_ensure_date. reflexivity.
Qed.

(** C2, as amended: a cancellation sent to [gas_webhook] with its date, its
    start and its type scans the slots of the date in order and removes the
    first one that has this start and this type, and only that one; when the
    cancellation also has its end the outcome is Cancelled.  When no slot
    has this start and this type the outcome is Cancel-Not-Found and no slot
    is added or removed on any date; the date of the cancellation, when the
    store did not have it, is now a key with an empty slot list.  The other
    dates are never touched. *)
Theorem cancellation_pass timestamp r date start_time type st :
  w_is_cancellation r = true ->
  w_date r = Some date -> w_start r = Some start_time -> w_type r = Some type ->
  let db := reservations_db st in
  let result := gas_apply timestamp r st in
  let db' := reservations_db (fst result) in
  same_elsewhere date db db' /\
  (forall before existing after end_time,
     slots_on date db = before ++ existing :: after ->
     Forall (fun x => ~ cancel_key start_time type x) before ->
     cancel_key start_time type existing ->
     w_end r = Some end_time ->
     snd result = Done Cancelled /\ db' !! date = Some (before ++ after)) /\
  (Forall (fun x => ~ cancel_key start_time type x) (slots_on date db) ->
   snd result = Done Cancel_Not_Found /\
   (forall d, slots_on d db' = slots_on d db) /\
   (is_Some (db !! date) -> db' = db) /\
   (db !! date = None -> db' = <[date := []]> db)).
Proof.
  intros Hc Hd Hs Ht. cbv zeta. unfold gas_apply. rewrite Hd, Hc, Hs.
  rewrite slots_on_ensure_date.
  destruct (gas_cancel_scan_key r start_time type
              (slots_on date (reservations_db st)) Hs Ht) as [Hfound Hnone].
  split; [|split].
  - intros d Hne.
    destruct (gas_cancel_scan r _) as [rest| |key]; [destruct (w_end r)|..]; simpl;
      rewrite ?lookup_insert_ne by congruence; now apply lookup_ensure_date_ne.
  - intros before existing after end_time Hl Hb Hk He.
    rewrite (Hfound before existing after Hl Hb Hk), He. simpl.
    split; [reflexivity|]. apply lookup_insert_eq.
  - intros Hall. rewrite (Hnone Hall). simpl. split; [reflexivity|]. split; [|split].
    + intros d. apply slots_on_ensure_date.
    + apply ensure_date_present.
    + apply ensure_date_absent.
Qed.

(** A cancellation without its end that finds its slot: the slot is removed,
    then the line of the activity log raises, and the route answers 500
    with the error written to the log and no counters. *)
Lemma gas_cancellation_without_end timestamp r date start_time type st
    before existing after rest :
  w_is_cancellation r = true ->
  w_date r = Some date -> w_start r = Some start_time -> w_type r = Some type ->
  w_end r = None ->
  slots_on date (reservations_db st) = before ++ existing :: after ->
  Forall (fun x => ~ cancel_key start_time type x) before ->
  cancel_key start_time type existing ->
  let result := gas_webhook ((timestamp, r) :: rest) st in
  snd result = None /\
  reservations_db (fst result) !! date = Some (before ++ after) /\
  activity_logs (fst result) =
    log_activity timestamp (Gas_webhook_error (u "end")) (activity_logs st).
Proof.
  intros Hc Hd Hs Ht He Hl Hb Hk. cbv zeta. unfold gas_webhook. cbn [gas_loop].
  unfold gas_apply. rewrite Hd, Hc, Hs, He, slots_on_ensure_date.
  destruct (gas_cancel_scan_key r start_time type
              (slots_on date (reservations_db st)) Hs Ht) as [Hfound _].
  rewrite (Hfound before existing after Hl Hb Hk). simpl.
  split; [reflexivity|]. split; [apply lookup_insert_eq|reflexivity].
Qed.

(** *** The group of an appended slot *)

(** C8: the group of an appended slot.  The slot that
    [sync_gmail_reservations] appends has the group 1 whatever the date
    holds, so its group is not the number of slots with the same start plus
    1 as soon as the date has such a slot; the slot that [gas_webhook]
    appends has no group.  The loop of [sync_hacomono_reservations], which
    no request reaches while [HACOMONO_ENABLED] is false, is the one that
    counts: its slot has the number of slots with the same start, plus 1. *)
Theorem appended_group :
  (forall timestamp r st,
     snd (gmail_apply timestamp r st) = Added ->
     let slots := slots_on (g_date r) (reservations_db st) in
     exists entry,
       slots_on (g_date r) (reservations_db (fst (gmail_apply timestamp r st))) =
         slots ++ [entry] /\
       start entry = Some (g_start r) /\
       group entry = Some 1%Z /\
       ((1 <= count_at (g_start r) slots)%nat ->
        group entry <> Some (Z.of_nat (count_at (g_start r) slots) + 1)%Z)) /\
  (forall timestamp r date st,
     w_date r = Some date ->
     snd (gas_apply timestamp r st) = Done Added ->
     exists entry,
       slots_on date (reservations_db (fst (gas_apply timestamp r st))) =
         slots_on date (reservations_db st) ++ [entry] /\
       start entry = w_start r /\
       group entry = None) /\
  (forall timestamp r st,
     snd (hacomono_apply timestamp r st) = Added ->
     let slots := slots_on (h_date r) (reservations_db st) in
     exists entry,
       slots_on (h_date r) (reservations_db (fst (hacomono_apply timestamp r st))) =
         slots ++ [entry] /\
       start entry = Some (h_start r) /\
       group entry = Some (Z.of_nat (count_at (h_start r) slots) + 1)%Z).
Proof.
  split; [|split].
  - intros t r st. unfold gmail_apply. cbv zeta. rewrite !slots_on_ensure_date.
    destruct (str_eqb _ (u "cancellation")).
    { destruct (pop_first _ _); discriminate. }
    destruct (str_eqb _ (u "booking")); [|discriminate].
    destruct (existsb _ _); simpl; [discriminate|]. intros _.
    eexists. rewrite slots_on_insert. split; [reflexivity|]. simpl.
    split; [reflexivity|]. split; [reflexivity|]. intros Hn [=]. lia.
  - intros t r date st Hd. unfold gas_apply. rewrite Hd, !slots_on_ensure_date.
    destruct (w_is_cancellation r).
    + destruct (gas_cancel_scan _ _); [destruct (w_start r), (w_end r)|..];
        discriminate.
    + destruct (gas_duplicate_scan _ _); [discriminate| |discriminate].
      destruct (w_start r) as [s|]; [|discriminate].
      destruct (w_end r); [|discriminate]. simpl. intros _.
      eexists. rewrite slots_on_insert. split; [reflexivity|]. simpl. auto.
  - intros t r st. unfold hacomono_apply. rewrite !slots_on_ensure_date.
    destruct (existsb _ _); simpl; [discriminate|]. intros _.
    eexists. rewrite slots_on_insert. split; [reflexivity|]. simpl.
    rewrite same_start_count. auto.
Qed.

(** *** The judgment log *)

(** Appending with the bound: the entries stay in order, and the oldest is
    dropped when the log had 200 entries or more. *)
Lemma log_reservation_judgment_fifo timestamp action_type date time_slot customer_name
    confidence logs :
  let entry := Judgment timestamp action_type customer_name date time_slot confidence in
  log_reservation_judgment timestamp action_type date time_slot customer_name
    confidence logs =
  if (length logs <? 200)%nat then logs ++ [entry] else drop 1 (logs ++ [entry]).
Proof.
  unfold log_reservation_judgment. cbv zeta. rewrite length_app. simpl.
  destruct (Nat.ltb_spec 200 (length logs + 1)), (Nat.ltb_spec (length logs) 200);
    try reflexivity; lia.
Qed.

Lemma add_log_fifo timestamp message logs :
  add_log timestamp message logs =
  if (length logs <? 200)%nat then logs ++ [Manual timestamp message]
  else drop 1 (logs ++ [Manual timestamp message]).
Proof.
  unfold add_log. cbv zeta. rewrite length_app. simpl.
  destruct (Nat.ltb_spec 200 (length logs + 1)), (Nat.ltb_spec (length logs) 200);
    try reflexivity; lia.
Qed.

(** [log_reservation_judgment] and [add_log] keep a log of at most 200
    entries within the bound. *)
Lemma log_reservation_judgment_bound timestamp action_type date time_slot
    customer_name confidence logs :
  (length logs <= 200)%nat ->
  (length (log_reservation_judgment timestamp action_type date time_slot
             customer_name confidence logs) <= 200)%nat.
Proof.
  intros Hl. rewrite log_reservation_judgment_fifo. cbv zeta.
  destruct (Nat.ltb_spec (length logs) 200).
  - rewrite length_app. simpl. lia.
  - rewrite length_drop, length_app. simpl. lia.
Qed.

Lemma add_log_bound timestamp message logs :
  (length logs <= 200)%nat ->
  (length (add_log timestamp message logs) <= 200)%nat.
Proof.
  intros Hl. rewrite add_log_fifo.
  destruct (Nat.ltb_spec (length logs) 200).
  - rewrite length_app. simpl. lia.
  - rewrite length_drop, length_app. simpl. lia.
Qed.

Lemma clear_logs_bound timestamp logs :
  length (fst (clear_logs timestamp logs)) = 1%nat.
Proof. reflexivity. Qed.

(** [export_logs] appends its entry without the bound. *)
Lemma export_logs_length timestamp logs :
  length (fst (export_logs timestamp logs)) = S (length logs).
Proof. unfold export_logs. simpl. rewrite length_app. simpl. lia. Qed.

(** C9: the bound of 200 entries does not hold after [export_logs]: on a
    log of 200 entries it leaves 201, the oldest entry still first, and the
    next [log_reservation_judgment] leaves 201 again. *)
Theorem export_logs_exceeds_bound :
  let timestamp := u "2025-11-02 10:00:01" in
  let logs := fst (export_logs timestamp full_log) in
  length full_log = 200%nat /\
  length logs = 201%nat /\
  hd_error logs = hd_error full_log /\
  length (log_reservation_judgment timestamp (u "booking") (u "2025-11-03")
            (u "10:00-11:00") (u "N/A") 1.0%float logs) = 201%nat.
Proof. vm_compute. auto. Qed.

End AppFacts.

(** * Runs on concrete inputs *)

Module Examples.
Import Re Inputs.

(** ** The classifier *)

Example classify_booking :
  option_map (fun r => (Classifier.action_type r, Classifier.date r,
                        Classifier.start_time r, Classifier.end_time r,
                        Classifier.customer_name r))
    (Classifier.classify_email (H:=Tables.ascii) subject_a body_booking) =
  Some (Classifier.booking, u "2025-11-02", u "10:00", u "11:00", u "田中").
Proof. vm_compute. reflexivity. Qed.

Example classify_weak_confidence :
  option_map (fun r => (Classifier.confidence r =? 0.7)%float)
    (Classifier.classify_email (H:=Tables.ascii) subject_a body_weak) = Some true.
Proof. vm_compute. reflexivity. Qed.

Lemma cancellation_keyword_first_witness :
  Classifier._determine_action_type (H:=Tables.ascii) body_cancel =
    Some Classifier.cancellation /\
  existsb (fun keyword => contains keyword body_cancel) Classifier.booking_keywords = true /\
  exists r, Classifier.classify_email (H:=Tables.ascii) subject_a body_cancel = Some r /\
            Classifier.action_type r = Classifier.cancellation.
Proof.
  destruct (ClassifierFacts.cancellation_keyword_first (H:=Tables.ascii)
              subject_a body_cancel) as (Ha & _ & Hr).
  - vm_compute. reflexivity.
  - vm_compute. reflexivity.
  - split; [exact Ha|]. split; [vm_compute; reflexivity|].
    destruct (Classifier._extract_date_time (H:=Tables.ascii) body_cancel) as [di|] eqn:E.
    + exact (Hr di eq_refl).
    + vm_compute in E. discriminate.
Defined.

Lemma location_allow_list_witness :
  Classifier.classify_email (H:=Tables.ascii) subject_a body_hanzomon = None /\
  ClassifierSpec.included_location (H:=Tables.ascii) body_booking = true.
Proof.
  destruct (ClassifierFacts.location_allow_list (H:=Tables.ascii) subject_a body_hanzomon)
    as (Hex & _).
  destruct (ClassifierFacts.location_allow_list (H:=Tables.ascii) subject_a body_booking)
    as (_ & Hin & _).
  split.
  - apply Hex. vm_compute. reflexivity.
  - destruct (Classifier.classify_email (H:=Tables.ascii) subject_a body_booking)
      as [r|] eqn:E.
    + apply (Hin r eq_refl).
    + vm_compute in E. discriminate.
Defined.

(** [FastGmailSync.parse_reservation] takes the notice of the Hanzomon store:
    the brand marker and the excluded location are in the body, the included
    location is not, and a reservation is returned. *)
Lemma fast_sync_accepts_excluded_location :
  contains (u "hallel") (Tables.ascii_lower body_hanzomon) = true /\
  contains (u "半蔵門店") body_hanzomon = true /\
  contains (u "渋谷店") body_hanzomon = false /\
  contains (u "shibuya") (Tables.ascii_lower body_hanzomon) = false /\
  FastSync.parse_reservation (H:=Tables.ascii) body_hanzomon subject_a =
    Some {| FastSync.date := u "2025-11-02"; FastSync.start := u "10:00";
            FastSync.end_ := u "11:00"; FastSync.customer_name := u "田中";
            FastSync.type_ := u "gmail"; FastSync.is_cancellation := false;
            FastSync.source := u "fast_gmail_sync" |}.
Proof. vm_compute. repeat split. Qed.

Lemma confidence_of_event_witness :
  exists r r',
    Classifier.classify_email (H:=Tables.ascii) subject_a body_weak = Some r /\
    Classifier.classify_email (H:=Tables.ascii) subject_a body_booking = Some r' /\
    (0.5 <=? Classifier.confidence r)%float = true /\
    (Classifier.confidence r <=? Classifier.confidence r')%float = true /\
    (Classifier.confidence r' <=? 1)%float = true.
Proof.
  destruct (Classifier.classify_email (H:=Tables.ascii) subject_a body_weak)
    as [r|] eqn:E; [|vm_compute in E; discriminate].
  destruct (Classifier.classify_email (H:=Tables.ascii) subject_a body_booking)
    as [r'|] eqn:E'; [|vm_compute in E'; discriminate].
  exists r, r'.
  destruct (ClassifierFacts.confidence_of_event (H:=Tables.ascii) _ _ _ E)
    as (_ & _ & _ & _ & Hlo & _ & Hmono).
  destruct (ClassifierFacts.confidence_of_event (H:=Tables.ascii) _ _ _ E')
    as (_ & _ & _ & _ & _ & Hhi & _).
  do 2 (split; [reflexivity|]). split; [exact Hlo|]. split; [|exact Hhi].
  apply (Hmono subject_a body_booking r' E').
  - vm_compute in E, E'. injection E as <-. injection E' as <-. reflexivity.
  - vm_compute in E. injection E as <-. split.
    + intros keyword Hin Hk. simpl in Hin.
      repeat (destruct Hin as [<-|Hin]; [vm_compute in Hk; try discriminate;
                                          vm_compute; reflexivity|]).
      destruct Hin.
    + intros Hb. vm_compute in Hb. discriminate.
Defined.

Lemma no_partial_event_witness :
  Classifier.classify_email (H:=Tables.ascii) subject_a
    (u "HALLEL 渋谷店 ご予約ありがとうございます 10:00~11:00") = None /\
  exists r, Classifier.classify_email (H:=Tables.ascii) subject_a body_booking = Some r /\
            Classifier.date r <> [] /\ Classifier.start_time r <> [] /\
            Classifier.end_time r <> [].
Proof.
  split.
  - apply (ClassifierFacts.no_partial_event (H:=Tables.ascii)).
    left. vm_compute. reflexivity.
  - destruct (Classifier.classify_email (H:=Tables.ascii) subject_a body_booking)
      as [r|] eqn:E; [|vm_compute in E; discriminate].
    exists r. split; [reflexivity|].
    apply (proj2 (ClassifierFacts.no_partial_event (H:=Tables.ascii) subject_a body_booking) r E).
Defined.

(** ** The mail parser *)

(** One time in the mail: 10:50 gives the end 12:20. *)
Lemma single_time_end_witness :
  exists r eh em,
    GmailParser.parse_reservation_info (H:=Tables.ascii) 2025
      (Some (mail (u "2025/09/24 10:50"))) = GmailParser.Return (Some r) /\
    GmailParser.date r = u "2025-09-24" /\
    GmailParser.start r = u "10" ++ u ":" ++ u "50" /\
    GmailParser.end_ r = format_0d 2 eh ++ u ":" ++ format_0d 2 em /\
    (60 * eh + em = 60 * 10 + 50 + 90)%Z /\
    (eh = 10 + 1 \/ eh = 10 + 2)%Z /\
    ((50 < 60)%Z -> (0 <= em < 60)%Z).
Proof.
  apply (GmailParserFacts.single_time_end (H:=Tables.ascii) 2025
           (mail (u "2025/09/24 10:50")) (u "2025-09-24") (u "10") (u "50") 10 50).
  - vm_compute. reflexivity.
  - vm_compute. reflexivity.
  - intros Hin. vm_compute in Hin. destruct Hin as [Hx|[Hx|[]]]; discriminate.
  - intros Hin. vm_compute in Hin. destruct Hin as [Hx|[Hx|[]]]; discriminate.
  - vm_compute. reflexivity.
  - vm_compute. reflexivity.
Defined.

Example single_time_end_1050 :
  GmailParser.assumed_end_time (H:=Tables.ascii) (u "10:50") =
  GmailParser.Return (u "12:20").
Proof. vm_compute. reflexivity. Qed.

(** One time in the mail, 23:45: the end is 25:15, not 01:15. *)
Lemma end_time_past_midnight :
  exists r,
    GmailParser.parse_reservation_info (H:=Tables.ascii) 2025
      (Some (mail (u "2025/09/24 23:45"))) = GmailParser.Return (Some r) /\
    GmailParser.date r = u "2025-09-24" /\
    GmailParser.start r = u "23:45" /\
    GmailParser.end_ r = u "25:15" /\
    GmailParser.end_ r <> u "01:15".
Proof.
  eexists. split; [vm_compute; reflexivity|]. simpl.
  repeat split; try (vm_compute; reflexivity). vm_compute. discriminate.
Qed.

Example fetch_two_messages :
  let result :=
    GmailParser.fetch_and_parse_reservations (H:=Tables.ascii) inbox true
      [u "m1"; u "m2"] in
  map GmailParser.rd_message_id (fst result) = [u "m1"] /\
  map GmailParser.lc_message_id (snd result) = [u "m1"].
Proof. vm_compute. split; reflexivity. Qed.

Lemma confidence_gate_witness :
  Forall (fun rd => GmailParser.rd_message_id rd <> u "m2")
    (fst (GmailParser.fetch_and_parse_reservations (H:=Tables.ascii) inbox true
            [u "m1"; u "m2"])) /\
  Forall (fun lc => GmailParser.lc_message_id lc <> u "m2")
    (snd (GmailParser.fetch_and_parse_reservations (H:=Tables.ascii) inbox true
            [u "m1"; u "m2"])).
Proof.
  assert (E2 : exists r2,
    Classifier.classify_email (H:=Tables.ascii) subject_a body_weak = Some r2 /\
    (Classifier.confidence r2 <=? 0.7)%float = true).
  { vm_compute. eexists. split; reflexivity. }
  destruct E2 as (r2 & E2 & L2).
  assert (G2 : inbox (u "m2") = Some mail_weak) by (vm_compute; reflexivity).
  pose proof (GmailParserFacts.confidence_gate (H:=Tables.ascii) inbox true
              [u "m1"; u "m2"]) as Hgate.
  cbv zeta in Hgate. destruct Hgate as (_ & _ & _ & Hdrop).
  destruct (Hdrop (u "m2") mail_weak r2 G2 E2 L2) as [Hr Hl].
  split.
  - exact (proj2 (List.Forall_forall _ _) Hr).
  - exact (proj2 (List.Forall_forall _ _) Hl).
Defined.

(** ** The merge loops *)

Lemma booking_twice_witness :
  (snd (App.gmail_apply t1 (booking_tanaka (u "m1")) empty_state) = App.Added /\
   snd (App.gmail_apply t2 (booking_tanaka (u "m2")) state_tanaka) =
     App.Skipped_Duplicate /\
   App.reservations_db
     (fst (App.gmail_apply t2 (booking_tanaka (u "m2")) state_tanaka)) =
   App.reservations_db state_tanaka) /\
  snd (App.gas_apply t2 (gas_booking (Some (u "田中")))
         (fst (App.gas_apply t1 (gas_booking (Some (u "田中"))) empty_state))) =
    App.Done App.Skipped_Duplicate /\
  (let first := App.gas_apply t1 (gas_booking None) empty_state in
   let second := App.gas_apply t2 (gas_booking None) (fst first) in
   snd first = App.Done App.Added /\ snd second = App.Done App.Added /\
   App.slots_on day (App.reservations_db (fst second)) =
     [AppSpec.gas_entry (gas_booking None); AppSpec.gas_entry (gas_booking None)]).
Proof.
  destruct AppFacts.booking_twice as (Hgmail & Hgas & Hnameless).
  split; [|split].
  - destruct (Hgmail t1 t2 (booking_tanaka (u "m1")) (booking_tanaka (u "m2"))
                empty_state) as (Hsecond & Hsame & Hfirst & _).
    + reflexivity.
    + reflexivity.
    + repeat split; reflexivity.
    + split; [apply Hfirst; vm_compute; constructor|].
      split; [exact Hsecond|exact Hsame].
  - destruct (Hgas t1 t2 (gas_booking (Some (u "田中"))) (gas_booking (Some (u "田中")))
                day (u "10:00") (u "11:00") (u "田中") empty_state) as (Hw & _).
    + reflexivity.
    + reflexivity.
    + repeat split; reflexivity.
    + reflexivity.
    + repeat split; reflexivity.
    + exact Hw.
  - destruct (Hnameless t1 t2 (gas_booking None) day (u "10:00") (u "11:00")
                empty_state) as (H1 & H2 & H3 & _).
    + reflexivity.
    + repeat split; reflexivity.
    + reflexivity.
    + vm_compute. constructor.
    + split; [exact H1|]. split; [exact H2|exact H3].
Defined.

(** A webhook booking without a customer name is stored twice: the slot is
    stored with the name N/A, the duplicate test compares with the missing
    name.  The same two reservations in one request give the counter 2. *)
Example gas_booking_without_name_twice :
  let first := App.gas_apply t1 (gas_booking None) empty_state in
  let second := App.gas_apply t2 (gas_booking None) (fst first) in
  snd first = App.Done App.Added /\ snd second = App.Done App.Added /\
  length (App.slots_on day (App.reservations_db (fst second))) = 2%nat /\
  option_map App.added
    (snd (App.gas_webhook [(t1, gas_booking None); (t2, gas_booking None)] empty_state)) =
  Some 2%nat.
Proof. vm_compute. repeat split. Qed.

Lemma cancellation_pass_witness :
  let result := App.gas_apply t2 (gas_cancellation (Some (u "11:00"))) state_tanaka in
  snd result = App.Done App.Cancelled /\
  App.reservations_db (fst result) !! day = Some [].
Proof.
  destruct (AppFacts.cancellation_pass t2 (gas_cancellation (Some (u "11:00"))) day
              (u "10:00") (u "gmail") state_tanaka) as (_ & Hfound & _).
  - reflexivity.
  - reflexivity.
  - reflexivity.
  - reflexivity.
  - apply (Hfound [] (AppSpec.gmail_entry (booking_tanaka (u "m1"))) [] (u "11:00")).
    + vm_compute. reflexivity.
    + constructor.
    + split; reflexivity.
    + reflexivity.
Defined.

(** A webhook cancellation that finds nothing on an empty store: the outcome
    is Cancel-Not-Found and the store is not what it was, it has a new key,
    the date, with no slot. *)
Lemma cancel_not_found_adds_date :
  let result := App.gas_apply t1 (gas_cancellation (Some (u "11:00"))) empty_state in
  snd result = App.Done App.Cancel_Not_Found /\
  App.reservations_db empty_state !! day = None /\
  App.reservations_db (fst result) !! day = Some [] /\
  App.reservations_db (fst result) <> App.reservations_db empty_state.
Proof.
  assert (H : App.reservations_db
                (fst (App.gas_apply t1 (gas_cancellation (Some (u "11:00"))) empty_state))
              !! day = Some []) by (vm_compute; reflexivity).
  cbv zeta. split; [vm_compute; reflexivity|]. split; [reflexivity|].
  split; [exact H|]. intros E. rewrite E in H. discriminate.
Qed.

(** The same cancellation without its end, on the store that holds the
    slot: the slot is removed, and the request is answered 500, with no
    counters and the error in the activity log. *)
Example cancellation_without_end_answers_500 :
  let result := App.gas_webhook [(t2, gas_cancellation None)] state_tanaka in
  snd result = None /\
  App.slots_on day (App.reservations_db state_tanaka) =
    [AppSpec.gmail_entry (booking_tanaka (u "m1"))] /\
  App.slots_on day (App.reservations_db (fst result)) = [] /\
  App.activity_logs (fst result) = [(t2, App.Gas_webhook_error (u "end"))].
Proof. vm_compute. repeat split. Qed.

Lemma appended_group_witness :
  let result := App.gmail_apply t2 booking_sato state_tanaka in
  AppSpec.count_at (u "10:00") (App.slots_on day (App.reservations_db state_tanaka)) =
    1%nat /\
  exists entry,
    App.slots_on day (App.reservations_db (fst result)) =
      App.slots_on day (App.reservations_db state_tanaka) ++ [entry] /\
    App.group entry = Some 1%Z /\ App.group entry <> Some 2%Z.
Proof.
  cbv zeta. split; [vm_compute; reflexivity|].
  destruct AppFacts.appended_group as (Hgmail & _).
  destruct (Hgmail t2 booking_sato state_tanaka) as (entry & Hs & _ & Hg & Hne).
  - vm_compute. reflexivity.
  - exists entry. split; [exact Hs|]. split; [exact Hg|].
    intros E. apply Hne; [vm_compute; lia|]. rewrite E. vm_compute. reflexivity.
Defined.

(** A booking of [sync_gmail_reservations] for an hour that already has a
    slot: the appended slot has group 1, not 2; the slot that [gas_webhook]
    appends has no group. *)
Example gmail_group_is_one :
  let result := App.gmail_apply t2 booking_sato state_tanaka in
  let result_gas := App.gas_apply t2 (gas_booking (Some (u "佐藤"))) state_tanaka in
  App.slots_on day (App.reservations_db state_tanaka) =
    [AppSpec.gmail_entry (booking_tanaka (u "m1"))] /\
  snd result = App.Added /\
  AppSpec.count_at (u "10:00") (App.slots_on day (App.reservations_db state_tanaka)) =
    1%nat /\
  map App.group (App.slots_on day (App.reservations_db (fst result))) =
    [Some 1%Z; Some 1%Z] /\
  snd result_gas = App.Done App.Added /\
  map App.group (App.slots_on day (App.reservations_db (fst result_gas))) =
    [Some 1%Z; None].
Proof. vm_compute. repeat split. Qed.

(** A cancellation notice that comes through [FastGmailSync] is parsed with
    [is_cancellation] set, and [sync_gmail_reservations], which reads
    [action_type], books it; on the store that holds the booking it is
    skipped as a duplicate, and the booking stays. *)
Example fast_sync_cancellation_is_booked :
  exists r,
    FastSync.parse_reservation (H:=Tables.ascii) body_cancel subject_cancel = Some r /\
    FastSync.is_cancellation r = true /\
    snd (App.gmail_apply t1 (App.read_fast_sync subject_cancel r) empty_state) =
      App.Added /\
    snd (App.gmail_apply t2 (App.read_fast_sync subject_cancel r) state_tanaka) =
      App.Skipped_Duplicate /\
    App.slots_on day
      (App.reservations_db
         (fst (App.gmail_apply t2 (App.read_fast_sync subject_cancel r) state_tanaka))) =
    App.slots_on day (App.reservations_db state_tanaka).
Proof.
  eexists. split; [vm_compute; reflexivity|]. repeat split; vm_compute; reflexivity.
Qed.

End Examples.

(** ** The matcher *)

Module ReFacts.
Import Re ReSpec.

Lemma fresh_weaken (r r' : re) new :
  (forall g, In g (groups_of r) -> In g (groups_of r')) -> fresh r new -> fresh r' new.
Proof. intros Hsub Hf i x Hin. destruct (Hf i x Hin) as (a & Ha & Hm). eauto. Qed.

Lemma fresh_app r new new' : fresh r new -> fresh r new' -> fresh r (new ++ new').
Proof. intros H1 H2 i x Hin. apply in_app_or in Hin. destruct Hin; auto. Qed.

Lemma run_sound {A} (r : re) :
  forall prev s cs (k : option N -> str -> caps -> option A) res,
    run r prev s cs k = Some res ->
    exists p1 s1 new t,
      k p1 s1 (new ++ cs) = Some res /\ s = t ++ s1 /\ matches r t /\
      fresh r new /\ covers r new.
Proof.
  induction r as [|c|p|a IHa b IHb|a IHa b IHb|greedy lo hi a IHa|i a IHa| |];
    intros prev s cs k res H; simpl in H.
  - exists prev, s, [], []. repeat split; auto; first [intros ? ? [] | intros ? []].
  - destruct s as [|x s']; [discriminate|].
    destruct (N.eqb_spec x c) as [->|]; [|discriminate].
    exists (Some c), s', [], [c]. repeat split; auto; first [intros ? ? [] | intros ? []].
  - destruct s as [|x s']; [discriminate|].
    destruct (p x) eqn:Ep; [|discriminate].
    exists (Some x), s', [], [x]. repeat split; auto; try first [intros ? ? [] | intros ? []].
    simpl. eauto.
  - apply IHa in H. destruct H as (p1 & s1 & n1 & t1 & H & -> & Ht1 & Hf1 & Hc1).
    apply IHb in H. destruct H as (p2 & s2 & n2 & t2 & H & -> & Ht2 & Hf2 & Hc2).
    exists p2, s2, (n2 ++ n1), (t1 ++ t2).
    split; [now rewrite <- app_assoc|]. split; [now rewrite <- app_assoc|].
    split; [simpl; eauto|]. split.
    + apply fresh_app.
      * eapply fresh_weaken; [|exact Hf2]. simpl. intros g Hg. apply in_or_app. now right.
      * eapply fresh_weaken; [|exact Hf1]. simpl. intros g Hg. apply in_or_app. now left.
    + intros i Hi. simpl in Hi. apply in_app_or in Hi. destruct Hi as [Hi|Hi].
      * destruct (Hc1 i Hi) as (x & Hx). exists x. apply in_or_app. now right.
      * destruct (Hc2 i Hi) as (x & Hx). exists x. apply in_or_app. now left.
  - unfold orelse in H.
    destruct (run a prev s cs k) as [res'|] eqn:Ea.
    + injection H as ->. apply IHa in Ea.
      destruct Ea as (p1 & s1 & n1 & t1 & H & -> & Ht1 & Hf1 & _).
      exists p1, s1, n1, t1. repeat split; auto; [simpl; auto| |intros ? []].
      eapply fresh_weaken; [|exact Hf1]. simpl. intros g Hg. apply in_or_app. now left.
    + apply IHb in H. destruct H as (p1 & s1 & n1 & t1 & H & -> & Ht1 & Hf1 & _).
      exists p1, s1, n1, t1. repeat split; auto; [simpl; auto| |intros ? []].
      eapply fresh_weaken; [|exact Hf1]. simpl. intros g Hg. apply in_or_app. now right.
  - (* Rep *)
    assert (Hloop : forall fuel n prev s cs,
      within hi n ->
      (fix loop (fuel n : nat) (prev : option N) (s : str) (cs : caps) {struct fuel} : option A :=
         let stop := if (lo <=? n)%nat then k prev s cs else None in
         let more :=
           match fuel with
           | O => None
           | S fuel' =>
               if under hi n
               then run a prev s cs (fun p1 s1 c1 => loop fuel' (S n) p1 s1 c1)
               else None
           end in
         if greedy then orelse more stop else orelse stop more) fuel n prev s cs = Some res ->
      exists p1 s1 new ts,
        k p1 s1 (new ++ cs) = Some res /\ s = concat ts ++ s1 /\ Forall (matches a) ts /\
        (lo <= n + length ts)%nat /\ within hi (n + length ts) /\
        fresh a new).
    { assert (Hstop : forall n prev0 s0 cs0,
        within hi n ->
        (if (lo <=? n)%nat then k prev0 s0 cs0 else None) = Some res ->
        exists p1 s1 new ts,
          k p1 s1 (new ++ cs0) = Some res /\ s0 = concat ts ++ s1 /\ Forall (matches a) ts /\
          (lo <= n + length ts)%nat /\ within hi (n + length ts) /\
          fresh a new).
      { intros n prev0 s0 cs0 Hn Hs.
        destruct (Nat.leb_spec lo n); [|discriminate].
        exists prev0, s0, [], []. simpl. rewrite Nat.add_0_r.
        repeat split; auto. intros ? ? []. }
      induction fuel as [|fuel IHf]; intros n prev0 s0 cs0 Hn HL.
      - apply (Hstop n prev0 s0 cs0 Hn).
        destruct greedy; simpl in HL; unfold orelse in HL;
          destruct (if (lo <=? n)%nat then k prev0 s0 cs0 else None); auto; discriminate.
      - simpl in HL.
        set (stop := if (lo <=? n)%nat then k prev0 s0 cs0 else None) in *.
        match type of HL with
        | (if greedy then orelse ?m _ else _) = _ => set (more := m) in *
        end.
        assert (Hcase : more = Some res \/ stop = Some res).
        { destruct greedy; unfold orelse in HL; destruct more, stop; auto; discriminate. }
        destruct Hcase as [Hm|Hs]; [|exact (Hstop n prev0 s0 cs0 Hn Hs)].
        subst more. destruct (under hi n) eqn:Eu; [|discriminate].
        apply IHa in Hm. destruct Hm as (p1 & s1 & n1 & t & Hm & -> & Ht & Hf1 & _).
        assert (Hn' : within hi (S n)).
        { destruct hi as [h|]; simpl in *; [|exact I].
          apply Nat.ltb_lt in Eu. lia. }
        destruct (IHf (S n) p1 s1 (n1 ++ cs0) Hn' Hm)
          as (p2 & s2 & n2 & ts & Hk & -> & Hts & Hlo & Hhi & Hf2).
        exists p2, s2, (n2 ++ n1), (t :: ts). simpl.
        split; [now rewrite <- app_assoc|]. split; [now rewrite app_assoc|].
        split; [constructor; assumption|].
        rewrite Nat.add_succ_r. simpl in Hlo, Hhi.
        split; [exact Hlo|]. split; [exact Hhi|].
        now apply fresh_app. }
    destruct (Hloop (S (length s)) 0%nat prev s cs)
      as (p1 & s1 & new & ts & Hk & -> & Hts & Hlo & Hhi & Hf).
    + destruct hi; simpl; [lia|exact I].
    + exact H.
    + exists p1, s1, new, (concat ts). split; [exact Hk|]. split; [reflexivity|].
      split; [simpl; eauto|]. split; [exact Hf|intros ? []].
  - apply IHa in H. destruct H as (p1 & s1 & new & t & H & -> & Ht & Hf & Hc).
    rewrite length_app in H.
    replace (length t + length s1 - length s1)%nat with (length t) in H by lia.
    rewrite take_app_length in H.
    exists p1, s1, ((i, t) :: new), t.
    split; [exact H|]. split; [reflexivity|]. split; [exact Ht|]. split.
    + intros j x [Hx|Hx].
      * injection Hx as <- <-. exists a. split; [now left|exact Ht].
      * destruct (Hf j x Hx) as (a' & Ha' & Hm). exists a'. split; [now right|exact Hm].
    + intros j [<-|Hj].
      * exists t. now left.
      * destruct (Hc j Hj) as (x & Hx). exists x. now right.
  - destruct prev as [c|].
    + destruct (c =? 10); [|discriminate].
      exists (Some c), s, [], []. repeat split; auto; first [intros ? ? [] | intros ? []].
    + exists None, s, [], []. repeat split; auto; first [intros ? ? [] | intros ? []].
  - assert (Hk : k prev s cs = Some res).
    { destruct s as [|c [|c' s']]; auto; [|discriminate].
      destruct (c =? 10); [exact H|discriminate]. }
    exists prev, s, [], []. repeat split; auto; first [intros ? ? [] | intros ? []].
Qed.

Lemma lookup_group_In i cs :
  (exists x, In (i, x) cs) -> In (i, lookup_group i cs) cs.
Proof.
  induction cs as [|[j y] cs IH]; intros (x & Hx); [destruct Hx|].
  simpl. destruct (Nat.eqb_spec i j) as [->|Hne].
  - now left.
  - right. apply IH. destruct Hx as [Hx|Hx]; [congruence|eauto].
Qed.

Lemma match_at_sound r prev s h :
  match_at r prev s = Some h ->
  hit_of r h /\ exists t, s = t ++ after h /\ matches r t.
Proof.
  unfold match_at. intros H. apply run_sound in H.
  destruct H as (p1 & s1 & new & t & H & -> & Ht & Hf & Hc).
  injection H as <-. simpl. rewrite app_nil_r.
  split; [|eauto]. split; [eauto|]. split; [exact Hf|].
  intros i Hi. apply Hf. unfold group. simpl. apply lookup_group_In. auto.
Qed.

Lemma search_sound r s h : search r s = Some h -> hit_of r h.
Proof.
  unfold search. generalize (@None N) as prev.
  induction s as [|x s IH]; intros prev H; simpl in H.
  - destruct (match_at r prev []) eqn:E; [|discriminate].
    injection H as <-. now apply match_at_sound in E.
  - destruct (match_at r prev (x :: s)) eqn:E.
    + injection H as <-. now apply match_at_sound in E.
    + eauto.
Qed.

Lemma findall_sound r s h : In h (findall r s) -> hit_of r h.
Proof.
  unfold findall. generalize (S (length s)) as fuel. generalize (@None N) as prev.
  intros prev fuel. revert prev s.
  induction fuel as [|fuel IH]; intros prev s H; simpl in H; [destruct H|].
  destruct (match_at r prev s) as [h'|] eqn:E.
  - assert (Hh : h = h' \/ (exists p s', In h (findall_from fuel r p s'))).
    { destruct (length (after h') <? length s)%nat.
      - destruct H as [<-|H]; eauto.
      - destruct H as [<-|H]; [now left|]. destruct s; [destruct H|eauto]. }
    destruct Hh as [->|(p & s' & Hh)]; [now apply match_at_sound in E|eauto].
  - destruct s; [destruct H|eauto].
Qed.

Lemma matches_class_run g lo hi p t :
  matches (Rep g lo (Some hi) (Cls p)) t ->
  (lo <= length t <= hi)%nat /\ Forall (fun c => p c = true) t.
Proof.
  simpl. intros (ts & -> & Hts & Hlo & Hhi).
  assert (H : length (concat ts) = length ts /\ Forall (fun c => p c = true) (concat ts)).
  { clear Hlo Hhi. induction Hts as [|t ts (c & -> & Hc) _ [IH1 IH2]]; simpl; [auto|].
    split; [now rewrite IH1|]. constructor; auto. }
  destruct H as [-> H]. auto.
Qed.

End ReFacts.

(** ** The fields and the confidence of a classified event *)

Module FieldFacts.
Import Re ReSpec ReFacts FieldSpec Classifier ClassifierSpec.

Lemma format_two z :
  (0 <= z < 100)%Z ->
  exists a b, format_0d 2 z = [a; b] /\ is_ascii_digit a = true /\ is_ascii_digit b = true /\
              Z.of_N (10 * (a - 48) + (b - 48)) = z.
Proof.
  intros Hz.
  assert (Hall : forallb (fun k =>
            match format_0d 2 (Z.of_nat k) with
            | [a; b] => is_ascii_digit a && is_ascii_digit b &&
                        (Z.of_N (10 * (a - 48) + (b - 48)) =? Z.of_nat k)%Z
            | _ => false
            end) (List.seq 0 100) = true) by (vm_compute; reflexivity).
  rewrite forallb_forall in Hall.
  specialize (Hall (Z.to_nat z)). rewrite Z2Nat.id in Hall by lia.
  assert (Hin : In (Z.to_nat z) (List.seq 0 100)) by (apply in_seq; lia).
  specialize (Hall Hin).
  destruct (format_0d 2 z) as [|a [|b [|c l]]]; try discriminate.
  apply andb_true_iff in Hall. destruct Hall as [Hab Hv].
  apply andb_true_iff in Hab. destruct Hab as [Ha Hb].
  exists a, b. repeat split; auto. now apply Z.eqb_eq.
Qed.

Lemma format_four z :
  (0 <= z < 10000)%Z ->
  exists a b c d, format_0d 4 z = [a; b; c; d] /\
                  forallb is_ascii_digit [a; b; c; d] = true.
Proof.
  intros Hz.
  assert (Hall : forallb (fun k =>
            match format_0d 4 (Z.of_nat k) with
            | [a; b; c; d] => forallb is_ascii_digit [a; b; c; d]
            | _ => false
            end) (List.seq 0 (Z.to_nat 10000)) = true) by (vm_compute; reflexivity).
  rewrite forallb_forall in Hall.
  specialize (Hall (Z.to_nat z)). rewrite Z2Nat.id in Hall by lia.
  assert (Hin : In (Z.to_nat z) (List.seq 0 (Z.to_nat 10000))) by (apply in_seq; lia).
  specialize (Hall Hin).
  destruct (format_0d 4 z) as [|a [|b [|c [|d [|e l]]]]]; try discriminate.
  exists a, b, c, d. auto.
Qed.

Ltac pick_group :=
  let a := fresh "a" in
  let Ha := fresh "Ha" in
  intros a Ha; simpl in Ha;
  repeat (destruct Ha as [Ha|Ha];
          [first [discriminate Ha | injection Ha as <-; reflexivity]|]);
  destruct Ha.

Section Facts.
Context `{Unicode}.

Lemma int_digits_bound acc s v :
  decimal_values -> int_digits acc s = Some v ->
  v < (acc + 1) * 10 ^ N.of_nat (length s).
Proof.
  intros Hd. revert acc. induction s as [|c s IH]; intros acc Hs; simpl in Hs.
  - injection Hs as <-. simpl. lia.
  - destruct (digit_value c) as [dv|] eqn:Ec; [|discriminate].
    apply IH in Hs. pose proof (Hd c dv Ec) as Hdv.
    replace (N.of_nat (length (c :: s))) with (N.succ (N.of_nat (length s)))
      by (simpl length; lia).
    rewrite N.pow_succ_r'. nia.
Qed.

Lemma int_bound s z n :
  decimal_values -> (length s <= n)%nat -> int s = Some z ->
  (0 <= z < 10 ^ Z.of_nat n)%Z.
Proof.
  intros Hd Hl Hs. unfold int in Hs. destruct s as [|c s]; [discriminate|].
  destruct (int_digits 0 (c :: s)) as [v|] eqn:Ev; [|discriminate].
  injection Hs as <-. apply int_digits_bound in Ev; [|exact Hd].
  assert (Hp : 10 ^ N.of_nat (length (c :: s)) <= 10 ^ N.of_nat n)
    by (apply N.pow_le_mono_r; lia).
  split; [lia|].
  replace (10 ^ Z.of_nat n)%Z with (Z.of_N (10 ^ N.of_nat n)).
  - lia.
  - rewrite N2Z.inj_pow. f_equal. lia.
Qed.

(** A digit group of a hit: between [lo] and [hi] digits of the table. *)
Lemma digit_group r h i lo hi :
  hit_of r h -> In i (sure_groups r) ->
  (forall a, In (i, a) (groups_of r) -> a = times lo hi (Cls is_digit)) ->
  (lo <= length (group h i) <= hi)%nat /\
  Forall (fun c => is_digit c = true) (group h i).
Proof.
  intros (_ & _ & Hs) Hi Ha. destruct (Hs i Hi) as (a & Hin & Hm).
  rewrite (Ha a Hin) in Hm. now apply matches_class_run in Hm.
Qed.

Lemma date_groups h :
  hit_of date_pattern h ->
  (length (group h 1) <= 4)%nat /\ (length (group h 2) <= 2)%nat /\
  (length (group h 3) <= 2)%nat.
Proof.
  intros Hh. repeat split.
  - apply (digit_group date_pattern h 1 4 4 Hh); [simpl; auto|pick_group].
  - apply (digit_group date_pattern h 2 1 2 Hh); [simpl; auto|pick_group].
  - apply (digit_group date_pattern h 3 1 2 Hh); [simpl; auto|pick_group].
Qed.

Lemma time_groups h :
  hit_of time_pattern h ->
  (length (group h 1) <= 2)%nat /\ (length (group h 2) <= 2)%nat /\
  (length (group h 3) <= 2)%nat /\ (length (group h 4) <= 2)%nat.
Proof.
  intros Hh. repeat split.
  - apply (digit_group time_pattern h 1 1 2 Hh); [simpl; auto 6|pick_group].
  - apply (digit_group time_pattern h 2 2 2 Hh); [simpl; auto 6|pick_group].
  - apply (digit_group time_pattern h 3 1 2 Hh); [simpl; auto 6|pick_group].
  - apply (digit_group time_pattern h 4 2 2 Hh); [simpl; auto 6|pick_group].
Qed.

(** The fields of every classified event are normalised: the date is
    [dddd-dd-dd] and the two times are [dd:dd] in ASCII digits, whatever
    decimal digits the mail used, and the duration is the end minus the
    start in minutes (negative when the end is the earlier one). *)
Theorem event_fields_shape subject body r :
  decimal_values ->
  classify_email subject body = Some r ->
  is_date_text (date r) = true /\
  is_time_text (start_time r) = true /\
  is_time_text (end_time r) = true /\
  duration_minutes r = (minutes_of (end_time r) - minutes_of (start_time r))%Z.
Proof.
  intros Hd Hr. apply ClassifierFacts.classify_email_Some in Hr.
  destruct Hr as (_ & a & di & _ & Hdi & ->). simpl.
  unfold _extract_date_time in Hdi.
  destruct (search date_pattern body) as [dm|] eqn:Edm; [|discriminate].
  destruct (int (group dm 1)) as [year|] eqn:Ey; [|discriminate].
  destruct (int (group dm 2)) as [month|] eqn:Em; [|discriminate].
  destruct (int (group dm 3)) as [day|] eqn:Eday; [|discriminate].
  destruct (search time_pattern body) as [tm|] eqn:Etm; [|discriminate].
  destruct (int (group tm 1)) as [sh|] eqn:Esh; [|discriminate].
  destruct (int (group tm 2)) as [sm|] eqn:Esm; [|discriminate].
  destruct (int (group tm 3)) as [eh|] eqn:Eeh; [|discriminate].
  destruct (int (group tm 4)) as [em|] eqn:Eem; [|discriminate].
  injection Hdi as <-. simpl.
  apply search_sound in Edm. apply search_sound in Etm.
  destruct (date_groups dm Edm) as (L1 & L2 & L3).
  destruct (time_groups tm Etm) as (T1 & T2 & T3 & T4).
  destruct (format_four year (int_bound _ _ 4 Hd L1 Ey)) as (y1 & y2 & y3 & y4 & -> & Hy).
  destruct (format_two month (int_bound _ _ 2 Hd L2 Em)) as (m1 & m2 & -> & Hm1 & Hm2 & _).
  destruct (format_two day (int_bound _ _ 2 Hd L3 Eday)) as (d1 & d2 & -> & Hd1 & Hd2 & _).
  destruct (format_two sh (int_bound _ _ 2 Hd T1 Esh)) as (a1 & a2 & -> & Ha1 & Ha2 & Hsh).
  destruct (format_two sm (int_bound _ _ 2 Hd T2 Esm)) as (b1 & b2 & -> & Hb1 & Hb2 & Hsm).
  destruct (format_two eh (int_bound _ _ 2 Hd T3 Eeh)) as (c1 & c2 & -> & Hc1 & Hc2 & Heh).
  destruct (format_two em (int_bound _ _ 2 Hd T4 Eem)) as (e1 & e2 & -> & He1 & He2 & Hem).
  change (u "-") with [45]. change (u ":") with [58].
  simpl app. unfold is_date_text, is_time_text, minutes_of.
  simpl in Hy. apply andb_true_iff in Hy. destruct Hy as [Hy1 Hy].
  apply andb_true_iff in Hy. destruct Hy as [Hy2 Hy].
  apply andb_true_iff in Hy. destruct Hy as [Hy3 Hy].
  apply andb_true_iff in Hy. destruct Hy as [Hy4 _].
  simpl forallb.
  rewrite Hy1, Hy2, Hy3, Hy4, Hm1, Hm2, Hd1, Hd2, Ha1, Ha2, Hb1, Hb2, Hc1, Hc2, He1, He2.
  rewrite Hsh, Hsm, Heh, Hem. repeat split; reflexivity.
Qed.

(** Which classified events pass the gate of
    [fetch_and_parse_reservations]: the confidence is above 0.7 exactly when
    the body holds a keyword of the event's action or the literal HALLEL. *)
Theorem gate_needs_keyword_or_brand subject body r :
  classify_email subject body = Some r ->
  (0.7 <? confidence r)%float =
  (0 <? matched (keywords_of (action_type r)) body)%nat || has_brand body.
Proof.
  intros Hr. apply ClassifierFacts.classify_email_Some in Hr.
  destruct Hr as (_ & a & di & _ & Hdi & ->). simpl.
  apply ClassifierFacts.extract_date_time_Some in Hdi. destruct Hdi as (Hdt & Htm & _).
  rewrite ClassifierFacts.calculate_confidence_score, Hdt, Htm.
  pose proof (ClassifierFacts.matched_le (keywords_of a) body) as Hk.
  rewrite ClassifierFacts.keywords_five in Hk.
  destruct (matched (keywords_of a) body) as [|[|[|[|[|[|k]]]]]]; try lia;
    destruct a, (has_brand body); vm_compute; reflexivity.
Qed.

End Facts.
End FieldFacts.

(** ** The mail parsers *)

Module ParserFacts.
Import Re ReSpec ReFacts FieldSpec FieldFacts GmailParser GmailParserLegacy.

Lemma length_zfill_two s :
  (1 <= length s <= 2)%nat -> length (zfill 2 s) = 2%nat.
Proof.
  intros Hl. unfold zfill. destruct s as [|c [|c' [|c'' s]]]; simpl in Hl; try lia.
  - destruct ((c =? 43) || (c =? 45)); reflexivity.
  - destruct ((c =? 43) || (c =? 45)); reflexivity.
Qed.

Section Facts.
Context `{Unicode}.


Lemma lstrip_length s : (length (lstrip s) <= length s)%nat.
Proof.
  induction s as [|c s IH]; simpl; [lia|]. destruct (is_space c); simpl; lia.
Qed.

Lemma strip_length s : (length (strip s) <= length s)%nat.
Proof.
  unfold strip. rewrite length_rev.
  etransitivity; [apply lstrip_length|]. rewrite length_rev. apply lstrip_length.
Qed.

Lemma digits_not (c : N) s :
  digit_value c = None -> digits s -> ~ In c s.
Proof.
  intros Hc Hs Hin. unfold digits in Hs. rewrite List.Forall_forall in Hs.
  specialize (Hs c Hin). unfold is_digit in Hs. rewrite Hc in Hs. discriminate.
Qed.

Lemma int_digits_total acc s : digits s -> exists v, int_digits acc s = Some v.
Proof.
  intros Hs. revert acc. induction Hs as [|c s Hc _ IH]; intros acc; simpl; [eauto|].
  unfold is_digit in Hc. destruct (digit_value c); [apply IH|discriminate].
Qed.

Lemma int_total s : digits s -> s <> [] -> exists z, int s = Some z.
Proof.
  intros Hs Hn. unfold int. destruct s as [|c s]; [congruence|].
  destruct (int_digits_total 0 (c :: s) Hs) as (v & ->). simpl. eauto.
Qed.

(** Padding a short text of digits gives two digits. *)
Lemma zfill_digits s :
  plain_signs -> digits s -> (length s <= 2)%nat ->
  digits (zfill 2 s) /\ zfill 2 s <> [].
Proof.
  intros (H0 & Hp & Hm & _) Hs Hl.
  assert (Hz : forall k, digits (zeros k)).
  { intros k. unfold zeros. induction k; simpl; constructor; auto.
    unfold is_digit. now rewrite H0. }
  unfold zfill. destruct s as [|c s].
  - split; [apply Hz|discriminate].
  - assert (Hc : (c =? 43) || (c =? 45) = false).
    { inversion Hs as [|? ? Hd _]; subst. unfold is_digit in Hd.
      destruct (N.eqb_spec c 43) as [->|]; [rewrite Hp in Hd; discriminate|].
      destruct (N.eqb_spec c 45) as [->|]; [rewrite Hm in Hd; discriminate|].
      reflexivity. }
    rewrite Hc. split.
    + apply Forall_app. split; [apply Hz|exact Hs].
    + intros E. apply app_eq_nil in E. destruct E; discriminate.
Qed.

(** Every entry of [times_found] is [hh:mm], two texts of digits. *)
Lemma find_times_shape body e :
  plain_signs -> In e (find_times time_patterns body) ->
  exists hh mm, e = hh ++ u ":" ++ mm /\ digits hh /\ hh <> [] /\ digits mm /\ mm <> [].
Proof.
  intros Hp Hin. unfold find_times in Hin. apply in_flat_map in Hin.
  destruct Hin as ([pattern n] & Hpat & Hin). apply in_flat_map in Hin.
  destruct Hin as (m & Hm & Hin). apply findall_sound in Hm.
  assert (Hg : n = 2%nat /\
               (1 <= length (group m 1) <= 2)%nat /\ digits (group m 1) /\
               (1 <= length (group m 2) <= 2)%nat /\ digits (group m 2)).
  { simpl in Hpat. destruct Hpat as [Hpat|[Hpat|[]]]; injection Hpat as <- <-.
    - split; [reflexivity|].
      destruct (digit_group _ m 1 1 2 Hm) as [L1 D1]; [simpl; auto|pick_group|].
      destruct (digit_group _ m 2 2 2 Hm) as [L2 D2]; [simpl; auto|pick_group|].
      repeat split; auto; lia.
    - split; [reflexivity|].
      destruct (digit_group _ m 1 1 2 Hm) as [L1 D1]; [simpl; auto|pick_group|].
      destruct (digit_group _ m 2 1 2 Hm) as [L2 D2]; [simpl; auto|pick_group|].
      repeat split; auto; lia. }
  destruct Hg as (-> & L1 & D1 & L2 & D2). simpl in Hin.
  destruct Hin as [<-|[]].
  destruct (zfill_digits (group m 1) Hp D1) as [Z1 N1]; [lia|].
  destruct (zfill_digits (group m 2) Hp D2) as [Z2 N2]; [lia|].
  eauto 8.
Qed.

Lemma assumed_end_time_returns hh mm :
  plain_signs -> digits hh -> hh <> [] -> digits mm -> mm <> [] ->
  exists end_time, assumed_end_time (hh ++ u ":" ++ mm) = Return end_time.
Proof.
  intros (_ & _ & _ & Hc) Hh Hhn Hm Hmn.
  destruct (int_total hh Hh Hhn) as (h & Eh).
  destruct (int_total mm Hm Hmn) as (m & Em).
  unfold assumed_end_time. change (u ":") with [ch ":"].
  rewrite (GmailParserFacts.split_two (ch ":") hh mm);
    [|apply digits_not; assumption|apply digits_not; assumption].
  simpl index. simpl bind. unfold int_exc. rewrite Eh, Em. simpl bind.
  destruct (60 <=? m + 30)%Z; eauto.
Qed.

Lemma parse_reservation_info_total current_year email :
  plain_signs ->
  exists result,
    parse_reservation_info current_year (Some email) = Return result /\
    (result = None <->
     find_date current_year date_patterns (ec_body email) = None \/
     find_times time_patterns (ec_body email) = []).
Proof.
  intros Hp. unfold parse_reservation_info.
  destruct (find_date current_year date_patterns (ec_body email)) as [d|].
  2:{ exists None. split; [reflexivity|]. tauto. }
  destruct (find_times time_patterns (ec_body email)) as [|start_time more] eqn:Et.
  { exists None. split; [reflexivity|]. tauto. }
  destruct more as [|end_time more].
  - destruct (find_times_shape (ec_body email) start_time Hp)
      as (hh & mm & -> & Hh & Hhn & Hm & Hmn); [rewrite Et; now left|].
    destruct (assumed_end_time_returns hh mm Hp Hh Hhn Hm Hmn) as (e & ->).
    simpl bind. eexists. split; [reflexivity|].
    split; [discriminate|]. intros [?|?]; discriminate.
  - simpl bind. eexists. split; [reflexivity|].
    split; [discriminate|]. intros [?|?]; discriminate.
Qed.

(** [parse_reservation_info] raises nothing: it returns [None] exactly when
    the body has no date or no time, and a reservation otherwise. *)
Theorem parse_reservation_info_returns current_year email :
  plain_signs ->
  exists result,
    parse_reservation_info current_year (Some email) = Return result /\
    (result = None <->
     find_date current_year date_patterns (ec_body email) = None \/
     find_times time_patterns (ec_body email) = []).
Proof. apply parse_reservation_info_total. Qed.

(** The legacy loop returns, raising nothing, at most 10 reservations, and
    among them one for every message of the first 10 whose content is read
    and has a date and a time: no brand or store filter is applied. *)
Theorem legacy_takes_any_dated_mail current_year get_email_content messages :
  plain_signs ->
  exists reservations,
    fetch_and_parse_reservations_legacy current_year get_email_content messages =
      Return reservations /\
    (length reservations <= 10)%nat /\
    forall message email,
      In message (take 10 messages) -> get_email_content message = Some email ->
      find_date current_year date_patterns (ec_body email) <> None ->
      find_times time_patterns (ec_body email) <> [] ->
      exists r, In r reservations /\ message_id r = ec_message_id email /\
                email_subject r = ec_subject email.
Proof.
  intros Hp. unfold fetch_and_parse_reservations_legacy.
  assert (Hl : (length (take 10 messages) <= 10)%nat) by (rewrite length_take; lia).
  revert Hl. generalize (take 10 messages) as ms. generalize 10%nat as n.
  intros n ms. revert n.
  induction ms as [|message rest IH]; intros n Hl.
  - exists []. split; [reflexivity|]. split; [simpl; lia|]. intros ? ? [].
  - simpl in Hl. destruct n as [|n]; [lia|].
    destruct (IH n) as (rs & Ers & Hlen & Hall); [lia|].
    simpl parse_messages. rewrite Ers.
    assert (Hparse : exists result,
      parse_reservation_info current_year (get_email_content message) = Return result /\
      forall email, get_email_content message = Some email ->
        find_date current_year date_patterns (ec_body email) <> None ->
        find_times time_patterns (ec_body email) <> [] ->
        exists r, result = Some r /\ message_id r = ec_message_id email /\
                  email_subject r = ec_subject email).
    { destruct (get_email_content message) as [email|].
      - destruct (parse_reservation_info_total current_year email Hp)
          as (result & Eres & Hnone).
        exists result. split; [exact Eres|]. intros e [= <-] Hd Ht.
        destruct result as [r|]; [|destruct (proj1 Hnone eq_refl); contradiction].
        exists r. split; [reflexivity|].
        unfold parse_reservation_info in Eres.
        destruct (find_date current_year date_patterns (ec_body email)); [|discriminate].
        destruct (find_times time_patterns (ec_body email)) as [|st more]; [discriminate|].
        destruct (match more with
                  | [] => assumed_end_time st
                  | end_time :: _ => Return end_time
                  end) as [e|]; simpl in Eres; [|discriminate].
        injection Eres as <-. split; reflexivity.
      - exists None. split; [reflexivity|]. discriminate. }
    destruct Hparse as (result & -> & Hres). simpl bind.
    eexists. split; [reflexivity|]. split.
    + destruct result; simpl; lia.
    + intros m email [<-|Hin] Hg Hd Ht.
      * destruct (Hres email Hg Hd Ht) as (r & -> & Hid & Hsub).
        exists r. split; [now left|auto].
      * destruct (Hall m email Hin Hg Hd Ht) as (r & Hr & Hid).
        exists r. split; [|exact Hid]. destruct result; [now right|exact Hr].
Qed.

(** The name lines, the special patterns and the general patterns all
    give a name of 1 to 20 characters; the fallback is N/A. *)
Lemma name_above_length prevs name :
  name_above prevs = Some name -> (1 <= length name <= 20)%nat.
Proof.
  induction prevs as [|l rest IH]; simpl; [discriminate|].
  destruct (negb (str_eqb (strip l) []) && negb (endswith (u "メール") (strip l)) &&
            (length (strip l) <=? 20)%nat) eqn:E; [|exact IH].
  destruct (Classifier.is_some _); [|discriminate].
  match goal with
  | |- (if ?c then _ else _) = _ -> _ => destruct c; [|discriminate]
  end.
  intros [= <-].
  apply andb_true_iff in E. destruct E as [E E3].
  apply andb_true_iff in E. destruct E as [E1 _].
  apply Nat.leb_le in E3. split; [|exact E3].
  destruct (strip l); [|simpl; lia].
  unfold str_eqb in E1. rewrite bool_decide_eq_true_2 in E1 by reflexivity. discriminate.
Qed.

Lemma name_by_lines_length before lines name :
  name_by_lines before lines = Some name -> (1 <= length name <= 20)%nat.
Proof.
  revert before. induction lines as [|line rest IH]; intros before; simpl; [discriminate|].
  destruct (_ || _).
  - destruct (name_above before) as [n|] eqn:E.
    + intros [= <-]. now apply name_above_length in E.
    + apply IH.
  - apply IH.
Qed.

Lemma name_by_patterns_found ok patterns body name :
  name_by_patterns ok patterns body = Some name ->
  ok name = true /\
  exists pattern m, In pattern patterns /\ hit_of pattern m /\ name = strip (group m 1).
Proof.
  induction patterns as [|pattern rest IH]; simpl; [discriminate|].
  destruct (findall pattern body) as [|m ms] eqn:Ef.
  - intros Hn. destruct (IH Hn) as (Hok & p & m & Hp & Hm & ->). eauto 8.
  - destruct (ok (strip (group m 1))) eqn:Eok.
    + intros [= <-]. split; [exact Eok|]. exists pattern, m.
      split; [now left|]. split; [|reflexivity].
      apply (findall_sound pattern body). rewrite Ef. now left.
    + intros Hn. destruct (IH Hn) as (Hok & p & m' & Hp & Hm & ->). eauto 8.
Qed.

Theorem customer_name_length body :
  (1 <= length (extract_customer_name body) <= 20)%nat.
Proof.
  unfold extract_customer_name. destruct body as [|c body]; [simpl; lia|].
  set (b := c :: body).
  destruct (name_by_lines [] (split 10 b)) as [name|] eqn:E1;
    [now apply name_by_lines_length in E1|].
  match goal with
  | |- context [name_by_patterns ?ok hallel_patterns b] =>
      destruct (name_by_patterns ok hallel_patterns b) as [name|] eqn:E2
  end.
  { apply name_by_patterns_found in E2. destruct E2 as (Hok & _).
    apply andb_true_iff in Hok. destruct Hok as [Hok _].
    apply andb_true_iff in Hok. destruct Hok as [Hok _].
    apply andb_true_iff in Hok. destruct Hok as [H1 H15].
    apply Nat.leb_le in H1, H15. lia. }
  match goal with
  | |- context [name_by_patterns ?ok general_patterns b] =>
      destruct (name_by_patterns ok general_patterns b) as [name|] eqn:E3
  end; [|simpl; lia].
  apply name_by_patterns_found in E3.
  destruct E3 as (Hok & pattern & m & Hp & Hm & ->).
  apply andb_true_iff in Hok. destruct Hok as [H1 _]. apply Nat.leb_le in H1.
  split; [exact H1|].
  etransitivity; [apply strip_length|].
  destruct Hm as (_ & _ & Hs).
  assert (Hg : exists a, In (1%nat, a) (groups_of pattern) /\ matches a (group m 1) /\
                         forall a', In (1%nat, a') (groups_of pattern) -> a' = name_run).
  { simpl in Hp.
    repeat (destruct Hp as [<-|Hp];
            [destruct (Hs 1%nat) as (a & Ha & Hma);
             [vm_compute; tauto|exists a; split; [exact Ha|split; [exact Hma|pick_group]]]|]).
    destruct Hp. }
  destruct Hg as (a & Ha & Hma & Hall). rewrite (Hall a Ha) in Hma.
  apply matches_class_run in Hma. lia.
Qed.

(** [fetch_and_parse_reservations] looks at 20 messages at most, and calls
    the labeler once for every event it returns, in the same order, or not
    at all when there is no labeler. *)
Theorem fetch_bounds get_email_content labeler messages :
  let result := fetch_and_parse_reservations get_email_content labeler messages in
  (length (fst result) <= 20)%nat /\
  map lc_message_id (snd result) =
    (if labeler then map rd_message_id (fst result) else []) /\
  map lc_action_type (snd result) =
    (if labeler then map rd_action_type (fst result) else []).
Proof.
  unfold fetch_and_parse_reservations. cbv zeta.
  assert (Hl : (length (take 20 messages) <= 20)%nat) by (rewrite length_take; lia).
  revert Hl. generalize (take 20 messages) as ms. generalize 20%nat as n.
  intros n ms. revert n.
  induction ms as [|message rest IH]; intros n Hl; simpl.
  - split; [lia|]. destruct labeler; auto.
  - simpl in Hl. destruct n as [|n]; [lia|].
    destruct (IH n) as (Hlen & Hid & Hact); [lia|].
    destruct (process_messages get_email_content labeler rest) as [rs ls].
    simpl in Hlen, Hid, Hact.
    destruct (get_email_content message) as [email|]; [|simpl; split; [lia|auto]].
    destruct (Classifier.classify_email _ _) as [r|]; [|simpl; split; [lia|auto]].
    destruct (0.7 <? Classifier.confidence r)%float; [|simpl; split; [lia|auto]].
    simpl. split; [lia|]. destruct labeler; simpl; [|auto].
    rewrite Hid, Hact. auto.
Qed.

Lemma first_search_sound patterns body m :
  FastSync.first_search patterns body = Some m ->
  exists pattern, In pattern patterns /\ hit_of pattern m.
Proof.
  induction patterns as [|pattern rest IH]; simpl; [discriminate|].
  destruct (search pattern body) as [h|] eqn:E.
  - intros [= <-]. exists pattern. split; [now left|]. now apply search_sound in E.
  - intros Hm. destruct (IH Hm) as (p & Hp & Hh). eauto.
Qed.

(** A reservation of [FastGmailSync.parse_reservation] has a date of 10
    characters and a start and an end of 5, with type gmail and source
    fast_gmail_sync, and the cancellation mark is read from the subject
    alone. *)
Theorem fast_sync_fields body subject r :
  FastSync.parse_reservation body subject = Some r ->
  length (FastSync.date r) = 10%nat /\
  length (FastSync.start r) = 5%nat /\ length (FastSync.end_ r) = 5%nat /\
  FastSync.type_ r = u "gmail" /\ FastSync.source r = u "fast_gmail_sync" /\
  FastSync.is_cancellation r =
    (contains (u "キャンセル") subject || contains (u "cancel") (lower subject)).
Proof.
  unfold FastSync.parse_reservation. destruct body as [|c body]; [discriminate|].
  set (b := c :: body).
  destruct (negb _); [discriminate|].
  destruct (FastSync.first_search FastSync.date_patterns b) as [dm|] eqn:Ed;
    [|discriminate].
  destruct (FastSync.first_search FastSync.time_patterns b) as [tm|] eqn:Et;
    [|discriminate].
  intros [= <-]. simpl.
  apply first_search_sound in Ed. destruct Ed as (dp & Hdp & Hd).
  apply first_search_sound in Et. destruct Et as (tp & Htp & Ht).
  assert (HD : length (group dm 1) = 4%nat /\ (1 <= length (group dm 2) <= 2)%nat /\
               (1 <= length (group dm 3) <= 2)%nat).
  { simpl in Hdp.
    repeat (destruct Hdp as [<-|Hdp];
      [destruct (digit_group _ dm 1 4 4 Hd) as [L1 _]; [vm_compute; tauto|pick_group|];
       destruct (digit_group _ dm 2 1 2 Hd) as [L2 _]; [vm_compute; tauto|pick_group|];
       destruct (digit_group _ dm 3 1 2 Hd) as [L3 _]; [vm_compute; tauto|pick_group|];
       repeat split; lia|]).
    destruct Hdp. }
  assert (HT : (1 <= length (group tm 1) <= 2)%nat /\ length (group tm 2) = 2%nat /\
               (1 <= length (group tm 3) <= 2)%nat /\ length (group tm 4) = 2%nat).
  { simpl in Htp.
    repeat (destruct Htp as [<-|Htp];
      [destruct (digit_group _ tm 1 1 2 Ht) as [L1 _]; [vm_compute; tauto|pick_group|];
       destruct (digit_group _ tm 2 2 2 Ht) as [L2 _]; [vm_compute; tauto|pick_group|];
       destruct (digit_group _ tm 3 1 2 Ht) as [L3 _]; [vm_compute; tauto|pick_group|];
       destruct (digit_group _ tm 4 2 2 Ht) as [L4 _]; [vm_compute; tauto|pick_group|];
       repeat split; lia|]).
    destruct Htp. }
  destruct HD as (D1 & D2 & D3). destruct HT as (T1 & T2 & T3 & T4).
  change (u "-") with [45]. change (u ":") with [58].
  repeat (rewrite !length_app; cbn [length]).
  rewrite !length_zfill_two by assumption.
  repeat split; try reflexivity; lia.
Qed.

End Facts.
End ParserFacts.

(** ** The store and the logs through the loops and the routes *)

Module StoreFacts.
Import App AppSpec Routes RoutesSpec.

Lemma stored_insert date l db :
  (stored (<[date := l]> db) + length (slots_on date db) = stored db + length l)%nat.
Proof.
  unfold stored, slots_on. destruct (db !! date) as [old|] eqn:E; simpl.
  - rewrite <- (insert_delete_eq db).
    rewrite map_to_list_insert by apply lookup_delete_eq.
    rewrite <- (map_to_list_delete db date old E). simpl. lia.
  - rewrite map_to_list_insert by exact E. simpl. lia.
Qed.

Lemma stored_ensure_date date db : stored (ensure_date date db) = stored db.
Proof.
  unfold ensure_date. destruct (db !! date) eqn:E; [reflexivity|].
  pose proof (stored_insert date [] db) as H. unfold slots_on in H.
  rewrite E in H. simpl in H. lia.
Qed.

Lemma stored_replace date l db :
  (stored (<[date := l]> (ensure_date date db)) + length (slots_on date db) =
   stored db + length l)%nat.
Proof.
  pose proof (stored_insert date l (ensure_date date db)) as H.
  rewrite AppFacts.slots_on_ensure_date, stored_ensure_date in H. exact H.
Qed.

Lemma pop_first_length p l rest :
  pop_first p l = Some rest -> length l = S (length rest).
Proof.
  intros H. apply AppFacts.pop_first_Some in H.
  destruct H as (before & existing & after & -> & _ & _ & ->).
  rewrite !length_app. simpl. lia.
Qed.

Lemma gmail_apply_balanced timestamp r st :
  balanced (reservations_db st) (reservations_db (fst (gmail_apply timestamp r st)))
    (snd (gmail_apply timestamp r st)).
Proof.
  unfold gmail_apply. cbv zeta.
  rewrite !AppFacts.slots_on_ensure_date.
  destruct (str_eqb _ (u "cancellation")).
  - destruct (pop_first _ _) as [rest|] eqn:E; simpl.
    + apply pop_first_length in E.
      pose proof (stored_replace (g_date r) rest (reservations_db st)). lia.
    + apply stored_ensure_date.
  - destruct (str_eqb _ (u "booking")); [|apply stored_ensure_date].
    destruct (negb _); simpl; [|apply stored_ensure_date].
    match goal with |- stored (<[_ := ?l]> _) = _ =>
      pose proof (stored_replace (g_date r) l (reservations_db st)) as H end.
    rewrite length_app in H. simpl in H. lia.
Qed.

Lemma gas_cancel_scan_length r l rest :
  gas_cancel_scan r l = Found rest -> length l = S (length rest).
Proof.
  revert rest. induction l as [|x l IH]; intros rest; simpl; [discriminate|].
  assert (Hnext : match gas_cancel_scan r l with
                  | Found rest' => Found (x :: rest')
                  | other => other
                  end = Found rest -> S (length l) = S (length rest)).
  { destruct (gas_cancel_scan r l) as [rest'| |key]; try discriminate.
    intros [= <-]. simpl. now rewrite (IH rest' eq_refl). }
  destruct (w_start r); [|discriminate].
  destruct (is_ (start x) _); [|exact Hnext].
  destruct (w_type r); [|discriminate].
  destruct (is_ (type_ x) _); [|exact Hnext].
  now intros [= <-].
Qed.

Lemma gas_apply_balanced timestamp r st o :
  snd (gas_apply timestamp r st) = Done o ->
  balanced (reservations_db st) (reservations_db (fst (gas_apply timestamp r st))) o.
Proof.
  unfold gas_apply. destruct (w_date r) as [date|]; [|discriminate].
  cbv zeta. rewrite !AppFacts.slots_on_ensure_date.
  destruct (w_is_cancellation r).
  - destruct (gas_cancel_scan r _) as [rest| |key] eqn:E.
    + apply gas_cancel_scan_length in E.
      destruct (w_start r); [|discriminate]. destruct (w_end r); [|discriminate].
      simpl. intros [= <-]. simpl.
      pose proof (stored_replace date rest (reservations_db st)). lia.
    + simpl. intros [= <-]. apply stored_ensure_date.
    + discriminate.
  - destruct (gas_duplicate_scan r _).
    + simpl. intros [= <-]. apply stored_ensure_date.
    + destruct (w_start r); [|discriminate]. destruct (w_end r); [|discriminate].
      simpl. intros [= <-]. simpl.
      match goal with |- stored (<[_ := ?l]> _) = _ =>
        pose proof (stored_replace date l (reservations_db st)) as H end.
      rewrite length_app in H. simpl in H. lia.
    + discriminate.
Qed.

Lemma gas_loop_balanced reservations : forall st c c',
  snd (gas_loop reservations st c) = Some c' ->
  (stored (reservations_db (fst (gas_loop reservations st c))) + cancelled c' + added c =
   stored (reservations_db st) + added c' + cancelled c)%nat.
Proof.
  induction reservations as [|[timestamp r] rest IH]; intros st c c'; simpl.
  - intros [= <-]. lia.
  - pose proof (gas_apply_balanced timestamp r st) as Hb.
    destruct (gas_apply timestamp r st) as [st' [o|key]]; [|discriminate].
    simpl in Hb. specialize (Hb o eq_refl). intros Hc.
    specialize (IH st' (count o c) c' Hc).
    destruct o; unfold balanced in Hb; simpl in Hb, IH |- *; lia.
Qed.

Lemma merge_loop_balanced {R} (apply : str -> R -> state -> state * outcome) :
  (forall timestamp r st,
     balanced (reservations_db st) (reservations_db (fst (apply timestamp r st)))
       (snd (apply timestamp r st))) ->
  forall reservations st c,
    let result := merge_loop apply reservations st c in
    (stored (reservations_db (fst result)) + cancelled (snd result) + added c =
     stored (reservations_db st) + added (snd result) + cancelled c)%nat.
Proof.
  intros Hb reservations. induction reservations as [|[timestamp r] rest IH];
    intros st c; simpl; [lia|].
  specialize (Hb timestamp r st).
  destruct (apply timestamp r st) as [st' o]. simpl in Hb.
  specialize (IH st' (count o c)). cbv zeta in IH.
  destruct o; unfold balanced in Hb; simpl in Hb, IH |- *; lia.
Qed.

(** After [sync_gmail_reservations], and after a [gas_webhook] that answers
    with its counters, the store holds as many reservations as before, plus
    those counted as added, minus those counted as cancelled: the counters
    of the response account for every change of the store.  (A [gas_webhook]
    that answers 500 gives no counters.) *)
Theorem sync_counters_account_for_store :
  (forall new_reservations st,
     let result := sync_gmail_reservations new_reservations st in
     (stored (reservations_db (fst result)) + cancelled (snd result) =
      stored (reservations_db st) + added (snd result))%nat) /\
  (forall reservations st c,
     snd (gas_webhook reservations st) = Some c ->
     (stored (reservations_db (fst (gas_webhook reservations st))) + cancelled c =
      stored (reservations_db st) + added c)%nat).
Proof.
  split.
  - intros rs st. cbv zeta.
    pose proof (merge_loop_balanced gmail_apply gmail_apply_balanced rs st
                  {| added := 0; cancelled := 0; skipped := 0 |}) as H.
    cbv zeta in H. simpl in H. unfold sync_gmail_reservations. lia.
  - intros rs st c Hc. unfold gas_webhook in *.
    pose proof (gas_loop_balanced rs st {| added := 0; cancelled := 0; skipped := 0 |}
                  c Hc) as H.
    simpl in H. lia.
Qed.

Lemma gmail_apply_logs timestamp r st :
  reservation_judgment_logs (fst (gmail_apply timestamp r st)) =
    log_reservation_judgment timestamp (action_of r) (g_date r)
      (g_start r ++ u "-" ++ g_end r) (name_of r) (get (g_confidence r) 1.0%float)
      (reservation_judgment_logs st) /\
  activity_logs (fst (gmail_apply timestamp r st)) = activity_logs st.
Proof.
  unfold gmail_apply, action_of, name_of. cbv zeta.
  destruct (str_eqb _ (u "cancellation")).
  - destruct (pop_first _ _); simpl; auto.
  - destruct (str_eqb _ (u "booking")); [|simpl; auto].
    destruct (negb _); simpl; auto.
Qed.

Lemma gmail_apply_booking_grows timestamp r st :
  action_of r = u "booking" ->
  snd (gmail_apply timestamp r st) <> Cancelled /\
  snd (gmail_apply timestamp r st) <> Cancel_Not_Found /\
  snd (gmail_apply timestamp r st) <> No_Action /\
  forall date,
    slots_on date (reservations_db st) `prefix_of`
    slots_on date (reservations_db (fst (gmail_apply timestamp r st))).
Proof.
  intros Ha.
  destruct (AppFacts.gmail_apply_booking timestamp r st Ha) as [Hnew Hold].
  destruct (gmail_known r (reservations_db st)) eqn:E.
  - destruct (Hold eq_refl) as (-> & ->). repeat split; try discriminate.
    intros date. rewrite AppFacts.slots_on_ensure_date. reflexivity.
  - destruct (Hnew eq_refl) as (-> & ->). repeat split; try discriminate.
    intros date. destruct (decide (date = g_date r)) as [->|Hne].
    + rewrite AppFacts.slots_on_insert. now apply prefix_app_r.
    + unfold slots_on at 2. rewrite lookup_insert_ne by congruence.
      fold (slots_on date (ensure_date (g_date r) (reservations_db st))).
      rewrite AppFacts.slots_on_ensure_date. reflexivity.
Qed.

Lemma merge_loop_bookings rs : forall st c,
  Forall (fun pass => action_of (snd pass) = u "booking") rs ->
  let result := merge_loop gmail_apply rs st c in
  cancelled (snd result) = cancelled c /\
  (added (snd result) + skipped (snd result) =
   added c + skipped c + length rs)%nat /\
  forall date,
    slots_on date (reservations_db st) `prefix_of`
    slots_on date (reservations_db (fst result)).
Proof.
  induction rs as [|[timestamp r] rest IH]; intros st c Hall; simpl.
  - repeat split; [lia|]. reflexivity.
  - apply Forall_cons in Hall. destruct Hall as [Ha Hall]. simpl in Ha.
    destruct (gmail_apply_booking_grows timestamp r st Ha) as (H1 & H2 & H3 & Hp).
    destruct (gmail_apply timestamp r st) as [st' o]. simpl in H1, H2, H3, Hp.
    destruct (IH st' (count o c) Hall) as (Hc & Hn & Hq).
    split; [|split].
    + rewrite Hc. destruct o; simpl; congruence.
    + rewrite Hn. destruct o; simpl; try congruence; lia.
    + intros date. etransitivity; [apply Hp|apply Hq].
Qed.

(** The reservations of [FastGmailSync] carry no [action_type], so
    [sync_gmail_reservations] takes each of them for a booking, whatever
    [is_cancellation] says: it never cancels, every pass either adds or
    is skipped as a duplicate, and the reservations of each date stay where
    they were, in front of those added. *)
Theorem fast_sync_never_cancels (mails : list (str * (str * FastSync.reservation))) st :
  let new_reservations :=
    map (fun mail => (fst mail, read_fast_sync (fst (snd mail)) (snd (snd mail)))) mails in
  let result := sync_gmail_reservations new_reservations st in
  cancelled (snd result) = 0%nat /\
  (added (snd result) + skipped (snd result) = length mails)%nat /\
  forall date,
    slots_on date (reservations_db st) `prefix_of`
    slots_on date (reservations_db (fst result)).
Proof.
  cbv zeta. unfold sync_gmail_reservations.
  set (rs := map _ mails).
  assert (Hall : Forall (fun pass => action_of (snd pass) = u "booking") rs).
  { apply List.Forall_forall. intros pass Hin. apply in_map_iff in Hin.
    destruct Hin as (mail & <- & _). reflexivity. }
  destruct (merge_loop_bookings rs st {| added := 0; cancelled := 0; skipped := 0 |} Hall)
    as (Hc & Hn & Hp).
  simpl in Hc, Hn. split; [exact Hc|]. split; [|exact Hp].
  rewrite Hn. unfold rs. rewrite length_map. reflexivity.
Qed.

Lemma last_n_short {A} n (l : list A) : (length l <= n)%nat -> last_n n l = l.
Proof.
  intros H. unfold last_n. replace (length l - n)%nat with 0%nat by lia. reflexivity.
Qed.

Lemma length_last_n {A} n (l : list A) : (length (last_n n l) <= n)%nat.
Proof. unfold last_n. rewrite length_drop. lia. Qed.

Lemma last_n_app {A} n (l k : list A) :
  last_n n (last_n n l ++ k) = last_n n (l ++ k).
Proof.
  unfold last_n. destruct (decide (length l <= n)%nat) as [Hle|Hgt].
  - replace (length l - n)%nat with 0%nat by lia. reflexivity.
  - rewrite !length_app, length_drop.
    replace (length l - (length l - n) + length k - n)%nat with (length k) by lia.
    replace (length l + length k - n)%nat with ((length l - n) + length k)%nat by lia.
    rewrite <- drop_drop. f_equal.
    rewrite drop_app_le by lia. reflexivity.
Qed.

Lemma log_reservation_judgment_last timestamp action_type date time_slot
    customer_name confidence logs :
  (length logs <= 200)%nat ->
  log_reservation_judgment timestamp action_type date time_slot customer_name
    confidence logs =
  last_n 200
    (logs ++ [Judgment timestamp action_type customer_name date time_slot confidence]).
Proof.
  intros H. unfold log_reservation_judgment, last_n. cbv zeta.
  rewrite length_app. simpl length.
  destruct (200 <? length logs + 1)%nat eqn:E.
  - apply Nat.ltb_lt in E. replace (length logs + 1 - 200)%nat with 1%nat by lia.
    reflexivity.
  - apply Nat.ltb_ge in E. replace (length logs + 1 - 200)%nat with 0%nat by lia.
    reflexivity.
Qed.

(** After [sync_gmail_reservations] the judgment log holds the last 200 of
    its former entries followed by one entry for each reservation of the
    batch, in the order of the batch, whatever was done with the
    reservation; the activity log is as it was. *)
Theorem sync_gmail_judgment_log new_reservations st :
  (length (reservation_judgment_logs st) <= 200)%nat ->
  let st' := fst (sync_gmail_reservations new_reservations st) in
  reservation_judgment_logs st' =
    last_n 200 (reservation_judgment_logs st ++ map judgment_of new_reservations) /\
  activity_logs st' = activity_logs st.
Proof.
  unfold sync_gmail_reservations. generalize {| added := 0; cancelled := 0; skipped := 0 |}.
  revert st. induction new_reservations as [|[timestamp r] rest IH]; intros st c Hlen.
  - simpl. rewrite app_nil_r, last_n_short by exact Hlen. auto.
  - simpl. destruct (gmail_apply_logs timestamp r st) as [Hj Ha].
    destruct (gmail_apply timestamp r st) as [st1 o]. simpl in Hj, Ha.
    rewrite log_reservation_judgment_last in Hj by exact Hlen.
    assert (Hlen1 : (length (reservation_judgment_logs st1) <= 200)%nat).
    { rewrite Hj. apply length_last_n. }
    destruct (IH st1 (count o c) Hlen1) as [Hj' Ha']. cbv zeta.
    rewrite Hj', Ha', Ha, Hj. split; [|reflexivity].
    rewrite last_n_app, <- app_assoc. reflexivity.
Qed.

Lemma length_log_activity timestamp action logs :
  (length logs <= 100)%nat ->
  length (log_activity timestamp action logs) = (S (length logs) `min` 100)%nat.
Proof.
  intros H. unfold log_activity. cbv zeta. rewrite length_app. simpl length.
  destruct (100 <? length logs + 1)%nat eqn:E.
  - apply Nat.ltb_lt in E. rewrite length_drop, length_app. simpl. lia.
  - apply Nat.ltb_ge in E. rewrite length_app. simpl. lia.
Qed.

Lemma last_log_activity timestamp action logs :
  last (log_activity timestamp action logs) = Some (timestamp, action).
Proof.
  unfold log_activity. cbv zeta. destruct logs as [|entry logs].
  - reflexivity.
  - destruct (100 <? length ((entry :: logs) ++ [(timestamp, action)]))%nat;
      [|apply last_snoc].
    simpl. rewrite drop_0. apply last_snoc.
Qed.

Lemma gas_apply_logs timestamp r st :
  (length (activity_logs st) <= 100)%nat ->
  let result := gas_apply timestamp r st in
  reservation_judgment_logs (fst result) = reservation_judgment_logs st /\
  length (activity_logs (fst result)) =
    match snd result with
    | Done Added | Done Cancelled => (S (length (activity_logs st)) `min` 100)%nat
    | _ => length (activity_logs st)
    end.
Proof.
  intros Hlen. unfold gas_apply. cbv zeta.
  destruct (w_date r); [|auto].
  destruct (w_is_cancellation r).
  - destruct (gas_cancel_scan _ _); simpl; [|auto..].
    destruct (w_start r); [|auto]. destruct (w_end r); [|auto]. simpl.
    split; [reflexivity|]. now apply length_log_activity.
  - destruct (gas_duplicate_scan _ _); simpl; [auto| |auto].
    destruct (w_start r); [|auto]. destruct (w_end r); [|auto]. simpl.
    split; [reflexivity|]. now apply length_log_activity.
Qed.

Lemma gas_loop_logs reservations : forall st c,
  (length (activity_logs st) <= 100)%nat ->
  let result := gas_loop reservations st c in
  reservation_judgment_logs (fst result) = reservation_judgment_logs st /\
  (length (activity_logs (fst result)) <= 100)%nat /\
  (forall c', snd result = Some c' ->
     (added c <= added c')%nat /\ (cancelled c <= cancelled c')%nat /\
     length (activity_logs (fst result)) =
       ((length (activity_logs st) + (added c' - added c) +
           (cancelled c' - cancelled c)) `min` 100)%nat) /\
  (snd result = None ->
   exists timestamp key,
     last (activity_logs (fst result)) = Some (timestamp, Gas_webhook_error key)).
Proof.
  induction reservations as [|[timestamp r] rest IH]; intros st c Hlen;
    cbn [gas_loop].
  - cbn [fst snd]. split; [reflexivity|]. split; [exact Hlen|]. split.
    + intros c' [= <-]. repeat split; lia.
    + discriminate.
  - destruct (gas_apply_logs timestamp r st Hlen) as [Hj Ha]. cbv zeta in Hj, Ha.
    destruct (gas_apply timestamp r st) as [st1 [o|key]]; cbn [fst snd] in Hj, Ha.
    + assert (Hlen1 : (length (activity_logs st1) <= 100)%nat)
        by (destruct o; cbv beta iota in Ha; lia).
      destruct (IH st1 (count o c) Hlen1) as (Hj' & Hb & Hsome & Hnone).
      cbv zeta in Hj', Hb, Hsome, Hnone.
      split; [now rewrite Hj', Hj|]. split; [exact Hb|]. split; [|exact Hnone].
      intros c' Hc'. destruct (Hsome c' Hc') as (Hadd & Hcan & Hn).
      destruct o; cbv beta iota in Ha;
        cbn [count added cancelled skipped] in Hadd, Hcan, Hn |- *;
        repeat split; lia.
    + cbn [fst snd reservations_db activity_logs reservation_judgment_logs].
      split; [exact Hj|]. split; [|split].
      * rewrite length_log_activity by lia. lia.
      * discriminate.
      * intros _. exists timestamp, key. apply last_log_activity.
Qed.

(** [gas_webhook] never writes the judgment log and keeps the activity log
    within its 100 lines.  When it answers with its counters it has written
    one line of the activity log for each reservation added or cancelled,
    and none for the others; when it answers 500 the last line of the
    activity log is the error. *)
Theorem gas_webhook_logs reservations st :
  (length (activity_logs st) <= 100)%nat ->
  let result := gas_webhook reservations st in
  reservation_judgment_logs (fst result) = reservation_judgment_logs st /\
  (length (activity_logs (fst result)) <= 100)%nat /\
  (forall c, snd result = Some c ->
     length (activity_logs (fst result)) =
       ((length (activity_logs st) + added c + cancelled c) `min` 100)%nat) /\
  (snd result = None ->
   exists timestamp key,
     last (activity_logs (fst result)) = Some (timestamp, Gas_webhook_error key)).
Proof.
  intros Hlen. unfold gas_webhook.
  destruct (gas_loop_logs reservations st {| added := 0; cancelled := 0; skipped := 0 |}
              Hlen) as (Hj & Hb & Hsome & Hnone).
  cbv zeta in *. split; [exact Hj|]. split; [exact Hb|]. split; [|exact Hnone].
  intros c Hc. destruct (Hsome c Hc) as (_ & _ & Hn).
  cbn [added cancelled] in Hn. rewrite Hn. f_equal. lia.
Qed.

Lemma length_serve request logs n :
  (length logs <= 200 + n)%nat ->
  (length (serve request logs) <= 200 + tally n request)%nat.
Proof.
  intros H. destruct request; simpl.
  - unfold add_log. cbv zeta. rewrite length_app. simpl length.
    destruct (200 <? length logs + 1)%nat eqn:E.
    + rewrite length_drop, length_app. simpl. lia.
    + apply Nat.ltb_ge in E. rewrite length_app. simpl. lia.
  - unfold log_reservation_judgment. cbv zeta. rewrite length_app. simpl length.
    destruct (200 <? length logs + 1)%nat eqn:E.
    + rewrite length_drop, length_app. simpl. lia.
    + apply Nat.ltb_ge in E. rewrite length_app. simpl. lia.
  - lia.
  - rewrite length_app. simpl. lia.
Qed.

(** Through any run of requests to the log routes the judgment log holds at
    most 200 entries plus one for each export since the last clear: only
    [export_logs] lets it grow past the bound, and [add_log] and
    [log_reservation_judgment] never shorten a log that is past it. *)
Theorem judgment_log_bound :
  (forall requests logs,
     (length logs <= 200)%nat ->
     (length (serve_all requests logs) <= 200 + exports_since_clear requests)%nat) /\
  (forall request logs,
     (200 < length logs)%nat ->
     (forall timestamp, request <> Clear_logs timestamp) ->
     (length logs <= length (serve request logs))%nat).
Proof.
  split.
  - intros requests logs Hlen. unfold serve_all, exports_since_clear.
    assert (Hgen : forall rs l n, (length l <= 200 + n)%nat ->
      (length (fold_left (fun logs request => serve request logs) rs l) <=
       200 + fold_left tally rs n)%nat).
    { clear. intros rs. induction rs as [|request rest IH]; intros l n H; simpl.
      - exact H.
      - apply IH. now apply length_serve. }
    apply Hgen. lia.
  - intros request logs Hlen Hq. destruct request; simpl.
    + unfold add_log. cbv zeta. rewrite length_app. simpl length.
      destruct (200 <? length logs + 1)%nat eqn:E.
      * rewrite length_drop, length_app. simpl. lia.
      * apply Nat.ltb_ge in E. lia.
    + unfold log_reservation_judgment. cbv zeta. rewrite length_app. simpl length.
      destruct (200 <? length logs + 1)%nat eqn:E.
      * rewrite length_drop, length_app. simpl. lia.
      * apply Nat.ltb_ge in E. lia.
    + now destruct (Hq timestamp).
    + rewrite length_app. simpl. lia.
Qed.

Lemma gas_unknown_without_name start_time end_time slots :
  Forall (fun x => is_Some (customer_name x)) slots ->
  Forall (fun x => ~ gas_key start_time end_time None x) slots.
Proof.
  intros Hall. eapply Forall_impl; [exact Hall|].
  intros x [name Hx] (_ & _ & Hn). congruence.
Qed.

(** A webhook booking without [customer_name] is stored under the name N/A
    but compared by its missing name, so it is never taken for a duplicate
    of itself: sent again and again, on a date whose reservations all have a
    customer name, it is added each time. *)
Theorem gas_booking_without_name_repeats r date start_time end_time timestamps st :
  w_is_cancellation r = false -> gas_fields r date start_time end_time ->
  w_customer_name r = None ->
  Forall (fun x => is_Some (customer_name x)) (slots_on date (reservations_db st)) ->
  let result := gas_webhook (map (fun timestamp => (timestamp, r)) timestamps) st in
  (exists c, snd result = Some c /\ added c = length timestamps) /\
  slots_on date (reservations_db (fst result)) =
    slots_on date (reservations_db st) ++ repeat (gas_entry r) (length timestamps).
Proof.
  intros Hb Hf Hn. unfold gas_webhook. cbv zeta.
  assert (Hgen : forall ts st c,
    Forall (fun x => is_Some (customer_name x)) (slots_on date (reservations_db st)) ->
    let result := gas_loop (map (fun timestamp => (timestamp, r)) ts) st c in
    (exists c', snd result = Some c' /\ added c' = (added c + length ts)%nat) /\
    slots_on date (reservations_db (fst result)) =
      slots_on date (reservations_db st) ++ repeat (gas_entry r) (length ts)).
  { intros ts. induction ts as [|t ts IH]; intros st0 c Hall; cbn [map gas_loop].
    - simpl. rewrite app_nil_r. split; [|reflexivity]. exists c. split; [reflexivity|lia].
    - destruct (AppFacts.gas_apply_booking t r date start_time end_time st0 Hb Hf)
        as [Hnew _].
      cbv zeta in Hnew. rewrite Hn in Hnew.
      destruct Hnew as [Ho Hdb]; [now apply gas_unknown_without_name|].
      destruct (gas_apply t r st0) as [st1 o]. simpl in Ho, Hdb. subst o.
      assert (Hl : slots_on date (reservations_db st1) =
                   slots_on date (reservations_db st0) ++ [gas_entry r])
        by (rewrite Hdb; apply AppFacts.slots_on_insert).
      destruct (IH st1 (count Added c)) as [(c' & Hc' & Ha) Hs].
      { rewrite Hl. apply Forall_app. split; [exact Hall|].
        constructor; [|constructor]. eexists; reflexivity. }
      cbv zeta in Hc', Hs. rewrite Hs, Hl, <- app_assoc.
      split; [|reflexivity]. exists c'. split; [exact Hc'|].
      rewrite Ha. cbn [count added length]. lia. }
  intros Hall.
  destruct (Hgen timestamps st {| added := 0; cancelled := 0; skipped := 0 |} Hall)
    as [(c & Hc & Ha) Hs].
  cbv zeta in Hc, Hs. split; [|exact Hs]. exists c. split; [exact Hc|exact Ha].
Qed.

End StoreFacts.

(** ** The routes that write the store by hand *)

Module RouteFacts.
Import App AppSpec Routes RoutesSpec StoreFacts.

Lemma pop_gmail_Popped start_time l rest :
  pop_gmail start_time l = Popped rest ->
  exists before r after,
    l = before ++ r :: after /\ gmail_at start_time r /\
    Forall (fun x => ~ gmail_at start_time x) before /\ rest = before ++ after.
Proof.
  revert rest. induction l as [|x l IH]; intros rest; simpl; [discriminate|].
  assert (Hnext : ~ gmail_at start_time x ->
    match pop_gmail start_time l with
    | Popped rest' => Popped (x :: rest')
    | other => other
    end = Popped rest ->
    exists before r after,
      x :: l = before ++ r :: after /\ gmail_at start_time r /\
      Forall (fun x => ~ gmail_at start_time x) before /\ rest = before ++ after).
  { intros Hx H. destruct (pop_gmail start_time l) as [rest'| |]; try discriminate.
    injection H as <-. destruct (IH rest' eq_refl) as (before & r & after & -> & Hr & Hb & ->).
    exists (x :: before), r, after. repeat split; try apply Hr.
    now constructor. }
  destruct (start x) as [s|] eqn:Es; [|discriminate].
  destruct (bool_decide (s = start_time)) eqn:Eb.
  - apply bool_decide_eq_true in Eb. subst s.
    destruct (type_ x) as [t|] eqn:Et; [|discriminate].
    destruct (bool_decide (t = u "gmail")) eqn:Eg.
    + apply bool_decide_eq_true in Eg. subst t. intros [= <-].
      exists [], x, l. repeat split; auto.
    + apply bool_decide_eq_false in Eg. apply Hnext.
      intros [_ Ht]. congruence.
  - apply bool_decide_eq_false in Eb. apply Hnext. intros [Hs _]. congruence.
Qed.

Lemma pop_gmail_Not_popped start_time l :
  pop_gmail start_time l = Not_popped ->
  Forall (fun x => ~ gmail_at start_time x) l.
Proof.
  induction l as [|x l IH]; simpl; [constructor|].
  assert (Hnext : ~ gmail_at start_time x ->
    match pop_gmail start_time l with
    | Popped rest' => Popped (x :: rest')
    | other => other
    end = Not_popped ->
    Forall (fun x => ~ gmail_at start_time x) (x :: l)).
  { intros Hx H. destruct (pop_gmail start_time l); try discriminate.
    constructor; auto. }
  destruct (start x) as [s|] eqn:Es; [|discriminate].
  destruct (bool_decide (s = start_time)) eqn:Eb.
  - apply bool_decide_eq_true in Eb. subst s.
    destruct (type_ x) as [t|] eqn:Et; [|discriminate].
    destruct (bool_decide (t = u "gmail")) eqn:Eg; [discriminate|].
    apply bool_decide_eq_false in Eg. apply Hnext. intros [_ Ht]. congruence.
  - apply bool_decide_eq_false in Eb. apply Hnext. intros [Hs _]. congruence.
Qed.

Lemma pop_gmail_keyed start_time l :
  Forall keyed l -> pop_gmail start_time l <> Raised.
Proof.
  induction 1 as [|x l [[s Hs] [t Ht]] _ IH]; simpl; [discriminate|].
  rewrite Hs, Ht.
  destruct (bool_decide (s = start_time)); [destruct (bool_decide (t = u "gmail"))|];
    try discriminate; destruct (pop_gmail start_time l); congruence.
Qed.

Lemma pop_gmail_found start_time l :
  Forall keyed l -> Exists (gmail_at start_time) l ->
  exists rest, pop_gmail start_time l = Popped rest.
Proof.
  intros Hk He. destruct (pop_gmail start_time l) as [rest| |] eqn:E.
  - eauto.
  - apply pop_gmail_Not_popped in E. apply List.Exists_exists in He.
    destruct He as (x & Hin & Hx).
    destruct (proj1 (List.Forall_forall _ _) E x Hin Hx).
  - now destruct (pop_gmail_keyed start_time l Hk).
Qed.

(** An answer of [process_email] other than 200 leaves the store as it was
    and writes no log; with 200 the store holds one reservation more after a
    booking and one less after a cancellation. *)
Theorem process_email_store data db :
  let '(db', response, logged) := process_email data db in
  balanced db db' (outcome_of response) /\
  (status_code response <> 200%Z -> db' = db /\ logged = None).
Proof.
  unfold process_email. cbv zeta.
  destruct (negb _); [simpl; auto|].
  destruct (bool_decide (_ = u "booking")).
  - destruct (negb _); [simpl; auto|].
    split; [|intros H; now destruct H].
    cbn [outcome_of balanced]. rewrite AppFacts.slots_on_ensure_date.
    match goal with |- stored (<[?d := ?l]> _) = _ =>
      pose proof (stored_replace d l db) as H end.
    rewrite length_app in H. simpl in H. lia.
  - destruct (bool_decide (_ = u "cancellation")); [|simpl; auto].
    destruct (db !! get (p_date data) []) as [slots|] eqn:E; [|simpl; auto].
    destruct (pop_gmail _ slots) as [rest| |] eqn:Ep; [|simpl; auto|simpl; auto].
    split; [|intros H; now destruct H].
    cbn [outcome_of balanced].
    apply pop_gmail_Popped in Ep.
    destruct Ep as (before & r & after & -> & _ & _ & ->).
    pose proof (stored_insert (get (p_date data) []) (before ++ after) db) as H.
    unfold slots_on in H. rewrite E in H. simpl in H.
    rewrite !length_app in H. simpl in H. lia.
Qed.

Lemma cancellation_answers date start_time db :
  date <> [] -> start_time <> [] ->
  Forall keyed (slots_on date db) ->
  let '(db', response, logged) :=
    process_email (cancellation_request date start_time) db in
  (db !! date = None -> response = Unknown_action_type /\ db' = db) /\
  (is_Some (db !! date) ->
   Forall (fun r => ~ gmail_at start_time r) (slots_on date db) ->
   response = Reservation_not_found /\ db' = db) /\
  (Exists (gmail_at start_time) (slots_on date db) ->
   response = Cancellation_done date start_time /\
   exists before r after,
     slots_on date db = before ++ r :: after /\ gmail_at start_time r /\
     Forall (fun x => ~ gmail_at start_time x) before /\
     db' = <[date := before ++ after]> db).
Proof.
  intros Hd Hs Hk. unfold process_email, cancellation_request. cbv zeta.
  cbn [p_action_type p_date p_start_time p_end_time get].
  match goal with |- context [negb ?b] => replace b with true end.
  2: { destruct date; [congruence|]. destruct start_time; [congruence|]. reflexivity. }
  cbn [negb].
  rewrite bool_decide_eq_false_2 by (vm_compute; discriminate).
  rewrite bool_decide_eq_true_2 by reflexivity.
  unfold slots_on in Hk |- *. unfold str in *.
  destruct (db !! date) as [slots|] eqn:E; simpl in Hk |- *.
  - destruct (pop_gmail start_time slots) as [rest| |] eqn:Ep; cbv beta iota.
    + split; [intros [=]|]. split.
      * intros _ Hall. apply pop_gmail_Popped in Ep.
        destruct Ep as (before & r & after & -> & Hr & _).
        apply Forall_app in Hall. destruct Hall as [_ Hall].
        apply Forall_cons in Hall. now destruct Hall as [Hn _].
      * intros _. split; [reflexivity|]. apply pop_gmail_Popped in Ep.
        destruct Ep as (before & r & after & -> & Hr & Hb & ->).
        exists before, r, after. auto.
    + split; [intros [=]|]. split; [auto|].
      intros He. destruct (pop_gmail_found start_time slots Hk He) as [rest Hrest].
      congruence.
    + now destruct (pop_gmail_keyed start_time slots Hk).
  - split; [auto|]. split.
    + intros [x Hx]. discriminate.
    + intros He. inversion He.
Qed.

(** The answers of [process_email] to a cancellation, when every
    reservation of the date has a start and a type: 400 with the text of
    the unknown action type when the date is not in the store, 404 when the
    date has no gmail reservation with that start, and 200 otherwise, with
    the first such reservation removed and the others in their order. *)
Theorem process_email_cancellation date start_time db :
  date <> [] -> start_time <> [] ->
  Forall keyed (slots_on date db) ->
  let '(db', response, logged) :=
    process_email (cancellation_request date start_time) db in
  (db !! date = None -> response = Unknown_action_type /\ db' = db) /\
  (is_Some (db !! date) ->
   Forall (fun r => ~ gmail_at start_time r) (slots_on date db) ->
   response = Reservation_not_found /\ db' = db) /\
  (Exists (gmail_at start_time) (slots_on date db) ->
   response = Cancellation_done date start_time /\
   exists before r after,
     slots_on date db = before ++ r :: after /\ gmail_at start_time r /\
     Forall (fun x => ~ gmail_at start_time x) before /\
     db' = <[date := before ++ after]> db).
Proof. apply cancellation_answers. Qed.

Lemma process_email_booking date start_time end_time db :
  date <> [] -> start_time <> [] -> end_time <> [] ->
  process_email (booking_request date start_time end_time) db =
    (<[date := slots_on date db ++
         [new_booking start_time end_time]]>
       (ensure_date date db),
     Booking_added date start_time end_time,
     Some (Gas_processed_booking (new_booking start_time end_time))).
Proof.
  intros Hd Hs He. unfold process_email, booking_request. cbv zeta.
  cbn [p_action_type p_date p_start_time p_end_time get].
  match goal with |- context [negb ?b] => replace b with true end.
  2: { destruct date; [congruence|]. destruct start_time; [congruence|]. reflexivity. }
  cbn [negb]. rewrite bool_decide_eq_true_2 by reflexivity.
  destruct end_time; [congruence|]. cbn [truthy negb].
  rewrite AppFacts.slots_on_ensure_date. reflexivity.
Qed.

(** A booking sent to [process_email] and then a cancellation for the same
    date and start, on a date whose reservations have a start and a type:
    both are answered with 200, the date holds as many reservations as
    before, the other dates are untouched, and when the date had no gmail
    reservation with that start its list is what it was before.  When it
    had one, that older one is removed and the new one stays. *)
Theorem process_email_round_trip date start_time end_time db :
  date <> [] -> start_time <> [] -> end_time <> [] ->
  Forall keyed (slots_on date db) ->
  let '(db1, booked, _) := process_email (booking_request date start_time end_time) db in
  let '(db2, cancelled, _) := process_email (cancellation_request date start_time) db1 in
  booked = Booking_added date start_time end_time /\
  cancelled = Cancellation_done date start_time /\
  length (slots_on date db2) = length (slots_on date db) /\
  (forall d, d <> date -> db2 !! d = db !! d) /\
  (Forall (fun r => ~ gmail_at start_time r) (slots_on date db) ->
   slots_on date db2 = slots_on date db) /\
  (Exists (gmail_at start_time) (slots_on date db) ->
   last (slots_on date db2) = Some (new_booking start_time end_time)).
Proof.
  intros Hd Hs He Hk.
  rewrite (process_email_booking date start_time end_time db Hd Hs He).
  set (entry := new_booking start_time end_time).
  set (db1 := <[date := slots_on date db ++ [entry]]> (ensure_date date db)).
  assert (Hl : slots_on date db1 = slots_on date db ++ [entry])
    by apply AppFacts.slots_on_insert.
  assert (Hentry : gmail_at start_time entry) by (split; reflexivity).
  assert (Hk1 : Forall keyed (slots_on date db1)).
  { rewrite Hl. apply Forall_app. split; [exact Hk|].
    constructor; [|constructor]. split; eexists; reflexivity. }
  pose proof (cancellation_answers date start_time db1 Hd Hs Hk1) as Hc.
  destruct (process_email (cancellation_request date start_time) db1)
    as [[db2 cancelled] logged].
  destruct Hc as (_ & _ & Hc).
  destruct Hc as (-> & before & r & after & Hsplit & Hr & Hb & ->).
  { rewrite Hl. apply Exists_app. right. now constructor. }
  split; [reflexivity|]. split; [reflexivity|].
  rewrite AppFacts.slots_on_insert.
  assert (Hlen : length (slots_on date db1) = S (length (before ++ after))).
  { rewrite Hsplit, !length_app. simpl. lia. }
  rewrite Hl, length_app in Hlen. simpl in Hlen.
  split; [lia|]. split; [|split].
  - intros d Hne. rewrite lookup_insert_ne by congruence. unfold db1.
    rewrite lookup_insert_ne by congruence. now apply AppFacts.lookup_ensure_date_ne.
  - intros Hnone. rewrite Hl in Hsplit.
    destruct after as [|a after _] using rev_ind.
    + apply app_inj_tail in Hsplit. destruct Hsplit as [-> _].
      now rewrite app_nil_r.
    + rewrite app_comm_cons, app_assoc in Hsplit.
      apply app_inj_tail in Hsplit. destruct Hsplit as [Hsplit _].
      rewrite Hsplit in Hnone. apply Forall_app in Hnone.
      destruct Hnone as [_ Hnone]. apply Forall_cons in Hnone.
      now destruct Hnone as [Hn _].
  - intros Hsome. rewrite Hl in Hsplit.
    destruct after as [|a after _] using rev_ind.
    + apply app_inj_tail in Hsplit. destruct Hsplit as [<- _].
      apply List.Exists_exists in Hsome. destruct Hsome as (x & Hin & Hx).
      destruct (proj1 (List.Forall_forall _ _) Hb x Hin Hx).
    + rewrite app_comm_cons, app_assoc in Hsplit.
      apply app_inj_tail in Hsplit. destruct Hsplit as [_ <-].
      rewrite app_assoc. apply last_snoc.
Qed.

(** A reservation added by [add_reservation] is the last of its date, so
    that [delete_reservation_api] with the former number of reservations
    of the date as index removes it again and gives it back; the store is
    then as before, with the date as a key. *)
Theorem add_then_delete timestamp date data db logs :
  let '(db1, logs1, _) := add_reservation timestamp date data db logs in
  stored db1 = S (stored db) /\
  slots_on date db1 = slots_on date db ++ [data] /\
  delete_reservation_api date (Z.of_nat (length (slots_on date db))) db1 =
    (ensure_date date db, Some data).
Proof.
  unfold add_reservation. cbv zeta. rewrite AppFacts.slots_on_ensure_date.
  set (l := slots_on date db). set (db1 := <[date := l ++ [data]]> (ensure_date date db)).
  split; [|split].
  - pose proof (stored_replace date (l ++ [data]) db) as H.
    fold l in H. fold db1 in H. rewrite length_app in H. simpl in H. lia.
  - apply AppFacts.slots_on_insert.
  - unfold delete_reservation_api, db1. unfold str in *.
    rewrite lookup_insert_eq, length_app. simpl length.
    replace ((0 <=? Z.of_nat (length l)) && (Z.of_nat (length l) <? Z.of_nat (length l + 1)))%Z
      with true by (symmetry; apply andb_true_iff; split; [apply Z.leb_le|apply Z.ltb_lt]; lia).
    rewrite Nat2Z.id, list_lookup_middle by reflexivity.
    rewrite insert_insert_eq. f_equal.
    replace (delete (length l) (l ++ [data])) with l.
    + apply insert_id. apply AppFacts.lookup_ensure_date.
    + rewrite delete_middle. now rewrite app_nil_r.
Qed.

(** [delete_reservation_api] removes a reservation exactly when the date is
    in the store and the index is within its list; the store then holds one
    reservation less, the removed one is the one at the index, and the
    others keep their order.  Otherwise the store is untouched. *)
Theorem delete_reservation_api_effect date index db :
  let '(db', removed) := delete_reservation_api date index db in
  (is_Some removed <->
   is_Some (db !! date) /\ (0 <= index < Z.of_nat (length (slots_on date db)))%Z) /\
  (removed = None -> db' = db) /\
  (forall r, removed = Some r ->
     slots_on date db !! Z.to_nat index = Some r /\
     slots_on date db' =
       take (Z.to_nat index) (slots_on date db) ++
       drop (S (Z.to_nat index)) (slots_on date db) /\
     S (stored db') = stored db).
Proof.
  unfold delete_reservation_api, slots_on. unfold str in *.
  destruct (db !! date) as [slots|] eqn:E; simpl.
  - destruct ((0 <=? index) && (index <? Z.of_nat (length slots)))%Z eqn:Er.
    + apply andb_true_iff in Er. destruct Er as [H0 H1].
      apply Z.leb_le in H0. apply Z.ltb_lt in H1.
      destruct (slots !! Z.to_nat index) as [removed|] eqn:El.
      * split; [split; [intros _; split; [eauto|lia]|eauto]|].
        split; [discriminate|]. intros r [= <-]. split; [reflexivity|].
        rewrite lookup_insert_eq. simpl. split; [apply delete_take_drop|].
        pose proof (stored_insert date (delete (Z.to_nat index) slots) db) as H.
        unfold slots_on in H. unfold str in *. rewrite E in H. simpl in H.
        rewrite length_delete in H by eauto.
        apply lookup_lt_Some in El. lia.
      * apply lookup_ge_None in El. lia.
    + split; [|split; [reflexivity|discriminate]].
      split; [intros [x [=]]|]. intros [_ Hr].
      apply andb_false_iff in Er. destruct Er as [Er|Er].
      * apply Z.leb_gt in Er. lia.
      * apply Z.ltb_ge in Er. lia.
  - split; [|split; [reflexivity|discriminate]].
    split; [intros [x [=]]|]. intros [[x [=]] _].
Qed.

End RouteFacts.

(** ** The properties above at concrete inputs *)

Module MoreExamples.
Import Inputs RouteInputs.

Lemma ascii_decimal_values : FieldSpec.decimal_values (H:=Tables.ascii).
Proof.
  intros c v. simpl. unfold Tables.ascii_digit.
  destruct ((48 <=? c) && (c <=? 57)) eqn:E; [|discriminate].
  intros [= <-]. apply andb_true_iff in E. destruct E as [_ E].
  apply N.leb_le in E. lia.
Qed.

Lemma ascii_plain_signs : FieldSpec.plain_signs (H:=Tables.ascii).
Proof. repeat split. Qed.

Lemma event_fields_shape_witness :
  exists r,
    Classifier.classify_email (H:=Tables.ascii) subject_a body_booking = Some r /\
    FieldSpec.is_date_text (Classifier.date r) = true /\
    FieldSpec.is_time_text (Classifier.start_time r) = true /\
    FieldSpec.is_time_text (Classifier.end_time r) = true /\
    Classifier.duration_minutes r =
      (FieldSpec.minutes_of (Classifier.end_time r) -
       FieldSpec.minutes_of (Classifier.start_time r))%Z.
Proof.
  destruct (Classifier.classify_email (H:=Tables.ascii) subject_a body_booking)
    as [r|] eqn:E; [|vm_compute in E; discriminate].
  exists r. split; [reflexivity|].
  exact (FieldFacts.event_fields_shape (H:=Tables.ascii) subject_a body_booking r
           ascii_decimal_values E).
Defined.

Lemma gate_needs_keyword_or_brand_witness :
  exists r,
    Classifier.classify_email (H:=Tables.ascii) subject_a body_weak = Some r /\
    (0.7 <? Classifier.confidence r)%float =
      (0 <? ClassifierSpec.matched
              (ClassifierSpec.keywords_of (Classifier.action_type r)) body_weak)%nat
      || ClassifierSpec.has_brand body_weak.
Proof.
  destruct (Classifier.classify_email (H:=Tables.ascii) subject_a body_weak)
    as [r|] eqn:E; [|vm_compute in E; discriminate].
  exists r. split; [reflexivity|].
  exact (FieldFacts.gate_needs_keyword_or_brand (H:=Tables.ascii) subject_a body_weak r E).
Defined.

Lemma parse_reservation_info_returns_witness :
  (exists r,
     GmailParser.parse_reservation_info (H:=Tables.ascii) 2025 (Some mail_dated) =
       GmailParser.Return (Some r)) /\
  GmailParser.parse_reservation_info (H:=Tables.ascii) 2025 (Some mail_undated) =
    GmailParser.Return None.
Proof.
  split.
  - destruct (ParserFacts.parse_reservation_info_returns (H:=Tables.ascii) 2025
                mail_dated ascii_plain_signs) as ([r|] & Hr & Hnone).
    + exists r. exact Hr.
    + destruct (proj1 Hnone eq_refl) as [Hx|Hx]; vm_compute in Hx; discriminate.
  - destruct (ParserFacts.parse_reservation_info_returns (H:=Tables.ascii) 2025
                mail_undated ascii_plain_signs) as (result & Hr & Hnone).
    rewrite Hr. f_equal. apply Hnone. left. vm_compute. reflexivity.
Defined.

Lemma legacy_takes_any_dated_mail_witness :
  exists reservations r,
    GmailParserLegacy.fetch_and_parse_reservations_legacy (H:=Tables.ascii) 2025 inbox
      [u "m1"; u "m2"] = GmailParser.Return reservations /\
    In r reservations /\ GmailParser.message_id r = u "m2".
Proof.
  destruct (ParserFacts.legacy_takes_any_dated_mail (H:=Tables.ascii) 2025 inbox
              [u "m1"; u "m2"] ascii_plain_signs) as (reservations & Hr & _ & Hall).
  destruct (Hall (u "m2") mail_weak) as (r & Hin & Hid & _).
  - right. left. reflexivity.
  - vm_compute. reflexivity.
  - vm_compute. discriminate.
  - vm_compute. discriminate.
  - exists reservations, r. auto.
Defined.

Lemma fast_sync_fields_witness :
  exists r,
    FastSync.parse_reservation (H:=Tables.ascii) body_cancel subject_cancel = Some r /\
    length (FastSync.date r) = 10%nat /\ length (FastSync.start r) = 5%nat /\
    length (FastSync.end_ r) = 5%nat /\ FastSync.is_cancellation r = true.
Proof.
  destruct (FastSync.parse_reservation (H:=Tables.ascii) body_cancel subject_cancel)
    as [r|] eqn:E; [|vm_compute in E; discriminate].
  exists r. split; [reflexivity|].
  destruct (ParserFacts.fast_sync_fields (H:=Tables.ascii) body_cancel subject_cancel r E)
    as (Hd & Hs & He & _ & _ & Hc).
  split; [exact Hd|]. split; [exact Hs|]. split; [exact He|].
  rewrite Hc. vm_compute. reflexivity.
Defined.

Lemma sync_gmail_judgment_log_witness :
  map (fun entry => match entry with
                    | App.Judgment _ action_type _ _ _ _ => action_type
                    | _ => []
                    end)
    (App.reservation_judgment_logs
       (fst (App.sync_gmail_reservations [(t2, cancel_tanaka)] state_tanaka))) =
  [u "booking"; u "cancellation"].
Proof.
  destruct (StoreFacts.sync_gmail_judgment_log [(t2, cancel_tanaka)] state_tanaka)
    as [Hlog _].
  - vm_compute. lia.
  - rewrite Hlog. vm_compute. reflexivity.
Defined.

Lemma sync_counters_account_for_store_witness :
  exists c,
    snd (App.gas_webhook
           [(t1, gas_booking None); (t2, gas_cancellation (Some (u "11:00")))]
           state_tanaka) = Some c /\
    App.added c = 1%nat /\ App.cancelled c = 1%nat /\
    RoutesSpec.stored
      (App.reservations_db
         (fst (App.gas_webhook
                 [(t1, gas_booking None); (t2, gas_cancellation (Some (u "11:00")))]
                 state_tanaka))) = RoutesSpec.stored (App.reservations_db state_tanaka).
Proof.
  destruct (App.gas_webhook
              [(t1, gas_booking None); (t2, gas_cancellation (Some (u "11:00")))]
              state_tanaka) as [st' [c|]] eqn:E;
    [|apply (f_equal snd) in E; vm_compute in E; discriminate].
  exists c.
  assert (Ha : App.added c = 1%nat /\ App.cancelled c = 1%nat).
  { apply (f_equal snd) in E. vm_compute in E. injection E as <-. split; reflexivity. }
  destruct Ha as [Ha Hc].
  pose proof (proj2 StoreFacts.sync_counters_account_for_store
                [(t1, gas_booking None); (t2, gas_cancellation (Some (u "11:00")))]
                state_tanaka c) as H.
  rewrite E in H. specialize (H eq_refl). simpl fst in *.
  split; [reflexivity|]. split; [exact Ha|]. split; [exact Hc|]. lia.
Defined.

Lemma gas_webhook_logs_witness :
  length (App.activity_logs
            (fst (App.gas_webhook
                    [(t1, gas_booking (Some (u "田中")));
                     (t2, gas_booking (Some (u "田中")))] empty_state))) = 1%nat /\
  exists timestamp key,
    last (App.activity_logs
            (fst (App.gas_webhook [(t2, gas_cancellation None)] state_tanaka))) =
    Some (timestamp, App.Gas_webhook_error key).
Proof.
  split.
  - destruct (StoreFacts.gas_webhook_logs
                [(t1, gas_booking (Some (u "田中"))); (t2, gas_booking (Some (u "田中")))]
                empty_state) as (_ & _ & Hlen & _).
    + simpl. lia.
    + rewrite (Hlen {| App.added := 1; App.cancelled := 0; App.skipped := 1 |}).
      * reflexivity.
      * vm_compute. reflexivity.
  - destruct (StoreFacts.gas_webhook_logs [(t2, gas_cancellation None)] state_tanaka)
      as (_ & _ & _ & Herr).
    + vm_compute. lia.
    + apply Herr. vm_compute. reflexivity.
Defined.

Lemma judgment_log_bound_witness :
  (length (Routes.serve_all
             [Routes.Export_logs t1; Routes.Add_log t2 (u "note"); Routes.Export_logs t2]
             AppSpec.full_log) <= 202)%nat /\
  (201 <= length (Routes.serve (Routes.Add_log t2 (u "note")) log_after_export))%nat.
Proof.
  destruct StoreFacts.judgment_log_bound as [Hbound Hkeep]. split.
  - apply (Hbound [Routes.Export_logs t1; Routes.Add_log t2 (u "note");
                   Routes.Export_logs t2] AppSpec.full_log).
    vm_compute. lia.
  - assert (Hl : length log_after_export = 201%nat) by (vm_compute; reflexivity).
    rewrite <- Hl.
    apply (Hkeep (Routes.Add_log t2 (u "note")) log_after_export).
    + rewrite Hl. lia.
    + discriminate.
Defined.

Lemma gas_booking_without_name_repeats_witness :
  exists c,
    snd (App.gas_webhook [(t1, gas_booking None); (t2, gas_booking None)] empty_state) =
      Some c /\
    App.added c = 2%nat.
Proof.
  destruct (StoreFacts.gas_booking_without_name_repeats (gas_booking None) day
              (u "10:00") (u "11:00") [t1; t2] empty_state) as [Hadded _].
  - reflexivity.
  - repeat split; reflexivity.
  - reflexivity.
  - vm_compute. constructor.
  - exact Hadded.
Defined.

Lemma process_email_store_witness :
  let '(db', response, logged) :=
    Routes.process_email (RoutesSpec.cancellation_request (u "2025-12-24") (u "10:00"))
      db_tanaka in
  response = Routes.Unknown_action_type /\ db' = db_tanaka /\ logged = None.
Proof.
  pose proof (RouteFacts.process_email_store
                (RoutesSpec.cancellation_request (u "2025-12-24") (u "10:00")) db_tanaka) as H.
  destruct (Routes.process_email _ db_tanaka) as [[db' response] logged] eqn:E.
  assert (Hr : response = Routes.Unknown_action_type).
  { apply (f_equal (fun x => snd (fst x))) in E. simpl in E. rewrite <- E.
    vm_compute. reflexivity. }
  split; [exact Hr|]. apply (proj2 H). rewrite Hr. simpl. lia.
Defined.

Lemma process_email_cancellation_witness :
  let '(db', response, logged) :=
    Routes.process_email (RoutesSpec.cancellation_request day (u "10:00")) db_tanaka in
  response = Routes.Cancellation_done day (u "10:00") /\
  App.slots_on day db' = [].
Proof.
  pose proof (RouteFacts.process_email_cancellation day (u "10:00") db_tanaka) as H.
  destruct (Routes.process_email _ db_tanaka) as [[db' response] logged].
  destruct H as (_ & _ & H).
  - discriminate.
  - discriminate.
  - vm_compute. constructor; [|constructor]. split; eexists; reflexivity.
  - destruct H as (Hr & before & r & after & Hsplit & _ & _ & Hdb).
    + vm_compute. left. split; reflexivity.
    + split; [exact Hr|]. rewrite Hdb, AppFacts.slots_on_insert.
      assert (Hl : length (App.slots_on day db_tanaka) = 1%nat)
        by (vm_compute; reflexivity).
      rewrite Hsplit, length_app in Hl. simpl in Hl.
      destruct before; [|simpl in Hl; lia]. destruct after; [|simpl in Hl; lia].
      reflexivity.
Defined.

Lemma process_email_round_trip_witness :
  let '(db1, booked, _) :=
    Routes.process_email (RoutesSpec.booking_request day (u "10:00") (u "11:30")) db_tanaka in
  let '(db2, cancelled, _) :=
    Routes.process_email (RoutesSpec.cancellation_request day (u "10:00")) db1 in
  cancelled = Routes.Cancellation_done day (u "10:00") /\
  App.slots_on day db2 = [RoutesSpec.new_booking (u "10:00") (u "11:30")].
Proof.
  pose proof (RouteFacts.process_email_round_trip day (u "10:00") (u "11:30") db_tanaka)
    as H.
  destruct (Routes.process_email _ db_tanaka) as [[db1 booked] logged1].
  destruct (Routes.process_email _ db1) as [[db2 cancelled] logged2].
  destruct H as (_ & Hc & Hlen & _ & _ & Hlast).
  - discriminate.
  - discriminate.
  - discriminate.
  - vm_compute. constructor; [|constructor]. split; eexists; reflexivity.
  - split; [exact Hc|].
    assert (Hl : length (App.slots_on day db_tanaka) = 1%nat)
      by (vm_compute; reflexivity).
    rewrite Hl in Hlen.
    assert (He : Exists (RoutesSpec.gmail_at (u "10:00")) (App.slots_on day db_tanaka))
      by (vm_compute; left; split; reflexivity).
    specialize (Hlast He).
    destruct (App.slots_on day db2) as [|x [|y l]]; simpl in Hlen; try lia.
    simpl in Hlast. congruence.
Defined.

Lemma delete_reservation_api_effect_witness :
  let '(db', removed) := Routes.delete_reservation_api day 0 db_tanaka in
  removed = Some (AppSpec.gmail_entry (booking_tanaka (u "m1"))) /\
  App.slots_on day db' = [] /\ RoutesSpec.stored db' = 0%nat.
Proof.
  pose proof (RouteFacts.delete_reservation_api_effect day 0 db_tanaka) as H.
  destruct (Routes.delete_reservation_api day 0 db_tanaka) as [db' removed].
  destruct H as (Hsome & _ & Hr).
  assert (Hin : is_Some removed).
  { apply Hsome. split; [vm_compute; eauto|]. vm_compute. split; [discriminate|reflexivity]. }
  destruct Hin as [r ->]. destruct (Hr r eq_refl) as (Hat & Hrest & Hcount).
  assert (Hs : App.slots_on day db_tanaka = [AppSpec.gmail_entry (booking_tanaka (u "m1"))])
    by (vm_compute; reflexivity).
  assert (Hn : RoutesSpec.stored db_tanaka = 1%nat) by (vm_compute; reflexivity).
  rewrite Hs in Hat, Hrest. simpl in Hat, Hrest. injection Hat as <-.
  split; [reflexivity|]. split; [exact Hrest|]. lia.
Defined.

End MoreExamples.
